(** * Zesty Dispatcher: weighted skill selection and manifest rewriting

    A shallow embedding of the dispatcher plugin (the [agent:bootstrap]
    hook, [selectRelevantSkills], [isExempt] and [parseSkillMetadata])
    together with the properties its specification states about it.

    Strings.  A JavaScript string is a sequence of UTF-16 code units; the
    embedding uses Rocq's [string], read as the code units U+0000..U+00FF.
    Case mapping, white space and word characters are those of ECMAScript
    on that range.

    Exceptions.  What is thrown is any value: the TypeError and SyntaxError
    of the run-time system, a value with a message, or [undefined] and
    [null], of which no property can be read.  The logger is taken to
    return.

    Objects.  The score and reason tables of a selection are object
    literals written by assignment; the key [__proto__] is not stored in
    them but reaches the setter of [Object.prototype]. *)

From Stdlib Require Import ZArith Ascii String List Bool Lia.
From stdpp Require Import base option list strings pretty gmap.

Import ListNotations.
Local Open Scope Z_scope.
Local Open Scope string_scope.
Local Open Scope list_scope.

(* ===================================================================== *)
(** * Code units *)
(* ===================================================================== *)

Module CodeUnit.

Definition in_range (lo hi n : N) : bool := ((lo <=? n) && (n <=? hi))%N.

(** [String.prototype.toLowerCase] on one code unit: A-Z and the
    Latin-1 capitals U+00C0..U+00DE (U+00D7 is the multiplication sign). *)
Definition toLowerCase (c : ascii) : ascii :=
  let n := N_of_ascii c in
  if in_range 65 90 n || (in_range 192 222 n && negb (n =? 215)%N)
  then ascii_of_N (n + 32) else c.

(** The abstract operation Canonicalize of a RegExp with the [i] flag and
    without the [u] flag: the code unit of the upper-cased character.  The
    micro sign and y-diaeresis have their capitals outside Latin-1; the
    sharp s upper-cases to two characters and is left alone. *)
Definition Canonicalize (c : ascii) : N :=
  let n := N_of_ascii c in
  if in_range 97 122 n || (in_range 224 254 n && negb (n =? 247)%N)
  then (n - 32)%N
  else if (n =? 181)%N then 924%N
  else if (n =? 255)%N then 376%N
  else n.

(** [\w]: the ASCII letters, digits and underscore. *)
Definition isWordChar (c : ascii) : bool :=
  let n := N_of_ascii c in
  in_range 97 122 n || in_range 65 90 n || in_range 48 57 n || (n =? 95)%N.

(** [\s], which is also what [String.prototype.trim] removes: TAB, LF, VT,
    FF, CR, SPACE and NO-BREAK SPACE. *)
Definition isWhiteSpace (c : ascii) : bool :=
  let n := N_of_ascii c in
  in_range 9 13 n || (n =? 32)%N || (n =? 160)%N.

End CodeUnit.

(* ===================================================================== *)
(** * String methods *)
(* ===================================================================== *)

Module Js.

Definition chars : string -> list ascii := list_ascii_of_string.
Definition of_chars : list ascii -> string := string_of_list_ascii.

Definition toLowerCase (s : string) : string :=
  of_chars (map CodeUnit.toLowerCase (chars s)).

Definition startsWith (s pre : string) : bool := String.prefix pre s.

Definition endsWith (s suf : string) : bool :=
  let n := String.length s in
  let k := String.length suf in
  (k <=? n)%nat && String.eqb (String.substring (n - k) k s) suf.

(** [s.slice(0, -1)] *)
Definition slice_0_m1 (s : string) : string :=
  String.substring 0 (String.length s - 1) s.

(** [s.slice(1, -1)] *)
Definition slice_1_m1 (s : string) : string :=
  String.substring 1 (String.length s - 2) s.

(** [a.includes(x)] on an array of strings. *)
Definition includes (l : list string) (x : string) : bool :=
  existsb (String.eqb x) l.

(** [a.join(sep)] *)
Definition join (sep : string) (l : list string) : string :=
  String.concat sep l.

(** Truthiness of a string: every string but the empty one. *)
Definition truthy (s : string) : bool :=
  match s with EmptyString => false | _ => true end.

Fixpoint dropWhile (f : ascii -> bool) (l : list ascii) : list ascii :=
  match l with
  | c :: l' => if f c then dropWhile f l' else l
  | [] => []
  end.

Definition trimStart_chars (l : list ascii) : list ascii :=
  dropWhile CodeUnit.isWhiteSpace l.

Definition trimEnd_chars (l : list ascii) : list ascii :=
  rev (dropWhile CodeUnit.isWhiteSpace (rev l)).

(** [s.trim()] *)
Definition trim (s : string) : string :=
  of_chars (trimEnd_chars (trimStart_chars (chars s))).

(** [s.split(/\s+/)]: the pieces between maximal runs of white space.  A
    string that starts (ends) with white space yields an empty first
    (last) piece, and the empty string yields one empty piece.  [gap]
    tells that the previous code unit was white space, [tok] is the piece
    read so far, reversed. *)
Fixpoint split_ws_go (gap : bool) (tok : list ascii) (l : list ascii)
  : list string :=
  match l with
  | [] => [of_chars (rev tok)]
  | c :: l' =>
      if CodeUnit.isWhiteSpace c then
        if gap then split_ws_go true [] l'
        else of_chars (rev tok) :: split_ws_go true [] l'
      else split_ws_go false (c :: tok) l'
  end.

Definition split_whitespace (s : string) : list string :=
  split_ws_go false [] (chars s).

(** [s.split(/\r?\n/)]: a line ends at LF, and a CR right before that LF
    belongs to the separator. *)
Fixpoint split_lines_go (tok : list ascii) (l : list ascii) : list string :=
  match l with
  | [] => [of_chars (rev tok)]
  | c :: l' =>
      if Ascii.eqb c "010" then of_chars (rev tok) :: split_lines_go [] l'
      else
        match l' with
        | d :: l'' =>
            if Ascii.eqb c "013" && Ascii.eqb d "010"
            then of_chars (rev tok) :: split_lines_go [] l''
            else split_lines_go (c :: tok) l'
        | [] => split_lines_go (c :: tok) l'
        end
  end.

Definition split_lines (s : string) : list string :=
  split_lines_go [] (chars s).

End Js.

(* ===================================================================== *)
(** * Regular expressions built from escaped literals *)
(* ===================================================================== *)

(** The program builds its regular expressions at run time as
    [new RegExp(`\\b${s.replace(/[.*+?^${}()|[\]\\]/g, '\\$&')}\\b`, 'i')].
    The embedding keeps the three steps apart: the escaping of [s], the
    reading of the pattern source, and the matching.  The pattern reader
    covers the sources made of pattern characters, identity escapes of
    syntax characters and the assertion [\b]; [None] stands for a source
    outside that fragment. *)
Module RegExp.

Inductive atom : Type :=
| Char (c : ascii)
| WordBoundary.

(** SyntaxCharacter of the ECMAScript pattern grammar. *)
Definition isSyntaxCharacter (c : ascii) : bool :=
  existsb (Ascii.eqb c) (Js.chars "^$\.*+?()[]{}|").

Fixpoint parse_go (l : list ascii) : option (list atom) :=
  match l with
  | [] => Some []
  | c :: l' =>
      if Ascii.eqb c "\" then
        match l' with
        | d :: l'' =>
            if Ascii.eqb d "b"
            then option_map (cons WordBoundary) (parse_go l'')
            else if isSyntaxCharacter d
            then option_map (cons (Char d)) (parse_go l'')
            else None
        | [] => None
        end
      else if isSyntaxCharacter c then None
      else option_map (cons (Char c)) (parse_go l')
  end.

(** [new RegExp(source, 'i')] *)
Definition compile (source : string) : option (list atom) :=
  parse_go (Js.chars source).

Definition isWord (o : option ascii) : bool :=
  match o with Some c => CodeUnit.isWordChar c | None => false end.

(** Matching at one position; [prev] is the code unit before it. *)
Fixpoint match_here (r : list atom) (prev : option ascii) (l : list ascii)
  : bool :=
  match r with
  | [] => true
  | WordBoundary :: r' =>
      xorb (isWord prev) (isWord (head l)) && match_here r' prev l
  | Char c :: r' =>
      match l with
      | d :: l' =>
          (CodeUnit.Canonicalize c =? CodeUnit.Canonicalize d)%N
          && match_here r' (Some d) l'
      | [] => false
      end
  end.

(** The start positions are tried from left to right. *)
Fixpoint search (r : list atom) (prev : option ascii) (l : list ascii)
  : bool :=
  match_here r prev l
  || match l with
     | d :: l' => search r (Some d) l'
     | [] => false
     end.

(** [re.test(s)] *)
Definition test (r : list atom) (s : string) : bool :=
  search r None (Js.chars s).

(** The character class of the escaping [replace]. *)
Definition escaped_class : string := ".*+?^${}()|[]\".

(** [s.replace(/[.*+?^${}()|[\]\\]/g, '\\$&')] *)
Definition escape (s : string) : string :=
  Js.of_chars
    (flat_map
       (fun c => if existsb (Ascii.eqb c) (Js.chars escaped_class)
                 then ["\"%char; c] else [c])
       (Js.chars s)).

(** [new RegExp(`\\b${escape(s)}\\b`, 'i').test(subject)].  The source built
    here is always inside the fragment (lemma [compile_escaped] below), so
    the [None] branch is never taken. *)
Definition wholeWordTest (s subject : string) : bool :=
  match compile ("\b" ++ escape s ++ "\b") with
  | Some r => test r subject
  | None => false
  end.

End RegExp.

(* ===================================================================== *)
(** * Descriptor metadata *)
(* ===================================================================== *)

Record SkillMetadata : Type := mkMeta {
  meta_name : string;
  meta_description : string
}.

Module Frontmatter.

Fixpoint is_prefix (p l : list ascii) : bool :=
  match p, l with
  | [], _ => true
  | a :: p', b :: l' => Ascii.eqb a b && is_prefix p' l'
  | _ :: _, [] => false
  end.

(** The text before and after the first occurrence of [needle]. *)
Fixpoint cut (needle l : list ascii) : option (list ascii * list ascii) :=
  if is_prefix needle l then Some ([], skipn (length needle) l)
  else
    match l with
    | c :: l' =>
        match cut needle l' with
        | Some (before, after) => Some (c :: before, after)
        | None => None
        end
    | [] => None
    end.

Definition dashes : list ascii := Js.chars "---".

(** Group 1 of [content.match(/---\s*([\s\S]*?)\s*---/)].  The match
    starts at the first [---]; the greedy [\s*] takes all the white space
    after it, the lazy group stops as early as the rest can match, that is
    before the white space in front of the next [---]. *)
Definition frontmatterMatch (content : string) : option string :=
  match cut dashes (Js.chars content) with
  | Some (_, rest) =>
      match cut dashes (Js.trimStart_chars rest) with
      | Some (body, _) => Some (Js.of_chars (Js.trimEnd_chars body))
      | None => None
      end
  | None => None
  end.

Definition dquote : string := String "034"%char EmptyString.
Definition squote : string := "'".

(** The body of the loop over the lines of the header block. *)
Definition parse_line (meta : SkillMetadata) (line : string) : SkillMetadata :=
  let trimmedLine := Js.trim line in
  if negb (Js.truthy trimmedLine) || String.eqb trimmedLine "---" then meta
  else
    match String.index 0 ":" trimmedLine with
    | Some colonIndex =>
        let key :=
          Js.toLowerCase (Js.trim (String.substring 0 colonIndex trimmedLine)) in
        let value :=
          Js.trim (String.substring (colonIndex + 1)
                     (String.length trimmedLine - (colonIndex + 1))
                     trimmedLine) in
        let value :=
          if (Js.startsWith value dquote && Js.endsWith value dquote)
             || (Js.startsWith value squote && Js.endsWith value squote)
          then Js.trim (Js.slice_1_m1 value)
          else value in
        let meta :=
          if String.eqb key "name"
          then mkMeta value (meta_description meta) else meta in
        if String.eqb key "description"
        then mkMeta (meta_name meta) value else meta
    | None => meta
    end.

End Frontmatter.

Definition parseSkillMetadata (content : string) : SkillMetadata :=
  let meta := mkMeta "" "" in
  match Frontmatter.frontmatterMatch content with
  | Some block => fold_left Frontmatter.parse_line (Js.split_lines block) meta
  | None => meta
  end.

(* ===================================================================== *)
(** * Exemptions *)
(* ===================================================================== *)

Definition isExempt (skillName : string) (patterns : list string) : bool :=
  existsb
    (fun pattern =>
       if Js.endsWith pattern "*" then
         let prefix := Js.slice_0_m1 pattern in
         Js.startsWith skillName prefix
       else String.eqb skillName pattern)
    patterns.

(* ===================================================================== *)
(** * Effects: the caller-owned record list, the log, exceptions *)
(* ===================================================================== *)

(** A record of the host's list: [{ path, content? }] or a bare path. *)
Inductive record : Type :=
| PathString (p : string)
| FileObject (path : string) (content : option string).

(** What the program can see thrown: any value.  [CollaboratorError]
    stands for a value other than [undefined] and [null] that a rejected
    [generateText] carries, with the text that [e.message] gives in a
    template; [Nullish] is [undefined] or [null]. *)
Inductive error : Type :=
| TypeError                                (* a property of undefined, a call of no function *)
| SyntaxError                              (* [JSON.parse] *)
| CollaboratorError (message : string)
| Nullish.

Inductive log_entry : Type :=
| LogWarn (e : error)
| LogError (e : error).

(** [bootstrapFiles] is the array the host owns and shares with the hook;
    the hook mutates it in place, so it lives in the state. *)
Record state : Type := mkState {
  bootstrapFiles : list record;
  log : list log_entry
}.

Inductive completion (A : Type) : Type :=
| Normal (a : A)
| Throw (e : error).
Arguments Normal {A} a.
Arguments Throw {A} e.

Definition M (A : Type) : Type := state -> completion A * state.

Definition ret {A} (a : A) : M A := fun st => (Normal a, st).

Definition bind {A B} (m : M A) (k : A -> M B) : M B :=
  fun st =>
    match m st with
    | (Normal a, st') => k a st'
    | (Throw e, st') => (Throw e, st')
    end.

Definition throw {A} (e : error) : M A := fun st => (Throw e, st).

(** [try { body } catch (e) { handler(e) }] *)
Definition try_catch {A} (body : M A) (handler : error -> M A) : M A :=
  fun st =>
    match body st with
    | (Normal a, st') => (Normal a, st')
    | (Throw e, st') => handler e st'
    end.

Declare Scope js_scope.
Delimit Scope js_scope with js.
Notation "'let*' x ':=' m 'in' k" := (bind m (fun x => k))
  (at level 10, x name, m at level 100, k at level 200) : js_scope.
Notation "m ';;;' k" := (bind m (fun _ => k))
  (at level 100, k at level 200, right associativity) : js_scope.
Local Open Scope js_scope.

(** [e.message] in a [catch (e)] clause: reading a property of
    [undefined] or [null] throws a TypeError; of any other value it gives
    the text the log entry stands for. *)
Definition read_message (e : error) : M error :=
  match e with
  | Nullish => throw TypeError
  | _ => ret e
  end.

Definition logger_warn (e : error) : M unit :=
  fun st => (Normal tt, mkState (bootstrapFiles st) (log st ++ [LogWarn e])).

Definition logger_error (e : error) : M unit :=
  fun st => (Normal tt, mkState (bootstrapFiles st) (log st ++ [LogError e])).

Definition read_bootstrapFiles : M (list record) :=
  fun st => (Normal (bootstrapFiles st), st).

(** [bootstrapFiles.length = 0] *)
Definition truncate_bootstrapFiles : M unit :=
  fun st => (Normal tt, mkState [] (log st)).

(** [bootstrapFiles.push(...items)] *)
Definition push_bootstrapFiles (items : list record) : M unit :=
  fun st => (Normal tt, mkState (bootstrapFiles st ++ items) (log st)).

(** A loop whose body may throw. *)
Fixpoint forM {A B} (f : A -> M B) (l : list A) : M (list B) :=
  match l with
  | [] => ret []
  | x :: l' => let* y := f x in let* ys := forM f l' in ret (y :: ys)
  end.

Fixpoint foldM {A B} (f : B -> A -> M B) (l : list A) (acc : B) : M B :=
  match l with
  | [] => ret acc
  | x :: l' => let* acc' := f acc x in foldM f l' acc'
  end.

(* ===================================================================== *)
(** * The host: configuration, collaborator, file system *)
(* ===================================================================== *)

(** An element of the array the collaborator's reply parses to.  Only
    [Array.prototype.includes] against a string looks at the elements. *)
Inductive json_value : Type :=
| JString (s : string)
| JOther.

(** A [{ role, content }] object: a turn of the conversation history, and
    the one message of a request to the collaborator. *)
Record message : Type := mkMessage {
  role : string;
  content : string
}.

(** The argument of [generateText]: [{ model, messages, temperature }].
    The temperature is the constant 0.1 and is left out. *)
Record llm_request : Type := mkRequest {
  req_model : string;
  req_messages : list message
}.

(** [{ text?: string, content?: string }] *)
Record llm_response : Type := mkResponse {
  resp_text : option string;
  resp_content : option string
}.

(** The promise [generateText] returns is fulfilled with a response or
    rejected with any value; a call that throws is the same to [await]. *)
Inductive llm_outcome : Type :=
| Resolves (r : llm_response)
| Rejects (reason : error).

(** [api]: [pluginConfig?.exemptions], [pluginConfig?.routerModel] and
    [runtime?.llm?.generateText], each possibly absent. *)
Record Api : Type := mkApi {
  config_exemptions : option (list string);
  config_routerModel : option string;
  generateText : option (llm_request -> llm_outcome)
}.

(** What the program uses of its run-time system.
    [readDescriptor p] is the text of
    [fs.open(p); handle.read({buffer: Buffer.alloc(1024), length: 1024});
     handle.close(); buffer.toString()], or [None] when one of them throws.
    [JSON_parse] is [JSON.parse] on a text that starts with an opening and
    ends with a closing bracket: the array it denotes, or [None] for the
    SyntaxError. *)
Record Runtime : Type := mkRuntime {
  readDescriptor : string -> option string;
  JSON_parse : string -> option (list json_value)
}.

(** A [Map<string, string>]: keys in insertion order, no key twice. *)
Module JsMap.

Definition t : Type := list (string * string).

Fixpoint set (k v : string) (m : t) : t :=
  match m with
  | [] => [(k, v)]
  | (k', v') :: m' =>
      if String.eqb k' k then (k, v) :: m' else (k', v') :: set k v m'
  end.

Fixpoint get (k : string) (m : t) : option string :=
  match m with
  | [] => None
  | (k', v') :: m' => if String.eqb k' k then Some v' else get k m'
  end.

Definition keys (m : t) : list string := map fst m.

End JsMap.

(* ===================================================================== *)
(** * The Selector: [selectRelevantSkills] *)
(* ===================================================================== *)

(** An object made by the literal [{}] and written by [obj[key] = value]
    only.  The key [__proto__] is not stored: the assignment reaches the
    setter of [Object.prototype], which ignores a value that is no object
    and makes an object the new prototype of [obj].  Any other key becomes
    an own property, whatever the prototype is.  [proto] is [None] as long
    as the prototype is [Object.prototype]. *)
Module JsObject.

Record t (V : Type) : Type := mk {
  own : gmap string V;
  proto : option V
}.
Arguments mk {V} own proto.
Arguments own {V} _.
Arguments proto {V} _.

Definition proto_key : string := "__proto__".

Definition empty {V : Type} : t V := mk ∅ None.

(** [obj[key] = value] for a value that is a number. *)
Definition assign_primitive {V : Type} (key : string) (value : V) (obj : t V)
  : t V :=
  if String.eqb key proto_key then obj
  else mk (<[key := value]> (own obj)) (proto obj).

(** [obj[key] = value] for a value that is an array. *)
Definition assign_object {V : Type} (key : string) (value : V) (obj : t V)
  : t V :=
  if String.eqb key proto_key then mk (own obj) (Some value)
  else mk (<[key := value]> (own obj)) (proto obj).

End JsObject.

(** [{ selected, scores, breakdown }]: an array and two objects used as
    tables from candidate names to numbers and to arrays of reasons. *)
Record selection : Type := mkSelection {
  selected : list string;
  scores : JsObject.t Z;
  breakdown : JsObject.t (list string)
}.

Definition defaultExemptions : list string := ["zesty-*"; "qmd"].
Definition defaultRouterModel : string := "github-copilot/gpt-5-mini".

(** [api.pluginConfig?.exemptions || ["zesty-*", "qmd"]]: an array, also
    the empty one, is truthy. *)
Definition configExemptions (api : Api) : list string :=
  match config_exemptions api with
  | Some l => l
  | None => defaultExemptions
  end.

(** [api.pluginConfig?.routerModel || "github-copilot/gpt-5-mini"] *)
Definition routerModel (api : Api) : string :=
  match config_routerModel api with
  | Some m => if Js.truthy m then m else defaultRouterModel
  | None => defaultRouterModel
  end.

(** [response.text || response.content || ''] *)
Definition responseText (r : llm_response) : string :=
  let or_else (o : option string) (d : string) :=
    match o with
    | Some t => if Js.truthy t then t else d
    | None => d
    end in
  or_else (resp_text r) (or_else (resp_content r) "").

(** [text.match(/\[.*\]/s)]: from the first opening bracket to the last
    closing bracket after it. *)
Definition jsonMatch (text : string) : option string :=
  let not_char (x c : ascii) := negb (Ascii.eqb c x) in
  match Js.dropWhile (not_char "["%char) (Js.chars text) with
  | open :: after =>
      match Js.dropWhile (not_char "]"%char) (rev after) with
      | [] => None
      | inner => Some (Js.of_chars (open :: rev inner))
      end
  | [] => None
  end.

(** [await api.runtime.llm.generateText({...})] *)
Definition await_generateText (gen : llm_request -> llm_outcome)
    (req : llm_request) : M llm_response :=
  match gen req with
  | Resolves r => ret r
  | Rejects reason => throw reason
  end.

(** [JSON.parse(jsonMatch[0])] *)
Definition parse_json (rt : Runtime) (text : string) : M (list json_value) :=
  match JSON_parse rt text with
  | Some l => ret l
  | None => throw SyntaxError
  end.

(** [JSON.stringify] of an array of strings. *)
Module Stringify.

Definition hex_digit (n : N) : ascii :=
  match String.get (N.to_nat n) "0123456789abcdef" with
  | Some c => c
  | None => "0"%char
  end.

(** QuoteJSONString on one code unit below U+0100. *)
Definition quote_unit (c : ascii) : list ascii :=
  let n := N_of_ascii c in
  if (n =? 34)%N then ["\"%char; c]
  else if (n =? 92)%N then ["\"%char; c]
  else if (n =? 8)%N then Js.chars "\b"
  else if (n =? 9)%N then Js.chars "\t"
  else if (n =? 10)%N then Js.chars "\n"
  else if (n =? 12)%N then Js.chars "\f"
  else if (n =? 13)%N then Js.chars "\r"
  else if (n <? 32)%N
  then Js.chars "\u00" ++ [hex_digit (n / 16); hex_digit (n mod 16)]
  else [c].

Definition quote (s : string) : string :=
  String "034"%char (Js.of_chars (flat_map quote_unit (Js.chars s)))
    ++ String "034"%char EmptyString.

Definition array (l : list string) : string :=
  "[" ++ Js.join "," (map quote l) ++ "]".

End Stringify.

(** The prompt of the batched call. *)
Definition prompt (query : string) (nonExempt : list string) : string :=
  "Select highly relevant skills for: " ++ String "034"%char query
    ++ String "034"%char " from: " ++ Stringify.array nonExempt
    ++ ". Return JSON array only.".

(** The request the Selector sends. *)
Definition request (model query : string) (nonExempt : list string)
  : llm_request :=
  mkRequest model [mkMessage "user" (prompt query nonExempt)].

(** Step 2 of the Selector: the value of [llmRecommended] after the
    guarded, batched call. *)
Definition llmRecommendation (api : Api) (rt : Runtime) (query : string)
    (nonExempt : list string) : M (list json_value) :=
  match nonExempt, generateText api with
  | _ :: _, Some gen =>
      try_catch
        (let* response :=
           await_generateText gen (request (routerModel api) query nonExempt) in
         let text := responseText response in
         match jsonMatch text with
         | Some m => parse_json rt m
         | None => ret []
         end)
        (fun e => let* m := read_message e in logger_warn m ;;; ret [])
  | _, _ => ret []
  end.

(** [llmRecommended.includes(skillName)] *)
Definition llm_includes (llmRecommended : list json_value) (skillName : string)
  : bool :=
  existsb
    (fun v => match v with JString s => String.eqb s skillName | JOther => false end)
    llmRecommended.

(** [qLower.split(/\s+/).filter(w => w.length > 2)] *)
Definition keywords (qLower : string) : list string :=
  List.filter (fun w => (2 <? String.length w)%nat) (Js.split_whitespace qLower).

Definition matchedKeywords (qLower desc : string) : list string :=
  List.filter (fun k => RegExp.wholeWordTest k desc) (keywords qLower).

(** Decimal digits of a score, for the reason text. *)
Definition digits (z : Z) : string := pretty z.

Section Scoring.

Variable rt : Runtime.
Variable qLower : string.
Variable llmRecommended : list json_value.
Variable skillFiles : JsMap.t.

(** Name signal: score and reasons after the first [if] of the loop body. *)
Definition nameSignal (skillName : string) (sr : Z * list string)
  : Z * list string :=
  if RegExp.wholeWordTest skillName qLower
  then (fst sr + 60, snd sr ++ ["Name Match (+60)"])
  else sr.

Definition llmSignal (skillName : string) (sr : Z * list string)
  : Z * list string :=
  if llm_includes llmRecommended skillName
  then (fst sr + 60, snd sr ++ ["LLM Recommended (+60)"])
  else sr.

(** The part of the [try] block after the read: from the buffer text to
    the updated score and reasons. *)
Definition descriptionOfBuffer (buffer : string) : string :=
  Js.toLowerCase (meta_description (parseSkillMetadata buffer)).

Definition keywordSignal (desc : string) (sr : Z * list string)
  : Z * list string :=
  let matched := matchedKeywords qLower desc in
  if (0 <? length matched)%nat then
    let descScore := Z.min 30 (Z.of_nat (length matched) * 10) in
    (fst sr + descScore,
     snd sr ++ [("Desc Keywords: " ++ Js.join ", " matched
                   ++ " (+" ++ digits descScore ++ ")")%string])
  else sr.

(** [if (skillPath) { try { ... } catch (e) { /* ignore */ } }] *)
Definition descriptionSignal (skillName : string) (sr : Z * list string)
  : Z * list string :=
  match JsMap.get skillName skillFiles with
  | Some skillPath =>
      if Js.truthy skillPath then
        match readDescriptor rt skillPath with
        | Some buffer => keywordSignal (descriptionOfBuffer buffer) sr
        | None => sr
        end
      else sr
  | None => sr
  end.

Definition scoreSkill (skillName : string) : Z * list string :=
  descriptionSignal skillName
    (llmSignal skillName (nameSignal skillName (0, []))).

(** One turn of the scoring loop. *)
Definition scoringStep (acc : selection) (skillName : string) : selection :=
  let '(score, reasons) := scoreSkill skillName in
  mkSelection
    (if (60 <=? score)%Z then selected acc ++ [skillName] else selected acc)
    (JsObject.assign_primitive skillName score (scores acc))
    (JsObject.assign_object skillName reasons (breakdown acc)).

End Scoring.

(** One turn of the exemption loop. *)
Definition exemptionStep (acc : selection) (s : string) : selection :=
  mkSelection
    (selected acc ++ [s])
    (JsObject.assign_primitive s 999 (scores acc))
    (JsObject.assign_object s ["Exemption"] (breakdown acc)).

(** [candidateNames.filter(s => isExempt(s, configExemptions))] *)
Definition exemptCandidates (api : Api) (candidateNames : list string)
  : list string :=
  List.filter (fun s => isExempt s (configExemptions api)) candidateNames.

(** [candidateNames.filter(s => !exemptions.includes(s))] *)
Definition nonExemptCandidates (api : Api) (candidateNames : list string)
  : list string :=
  List.filter
    (fun s => negb (Js.includes (exemptCandidates api candidateNames) s))
    candidateNames.

Definition selectRelevantSkills (api : Api) (rt : Runtime) (query : string)
    (skillFiles : JsMap.t) : M selection :=
  let qLower := Js.toLowerCase query in
  let candidateNames := JsMap.keys skillFiles in
  let exemptions := exemptCandidates api candidateNames in
  let acc :=
    fold_left exemptionStep exemptions
      (mkSelection [] JsObject.empty JsObject.empty) in
  let nonExempt := nonExemptCandidates api candidateNames in
  let* llmRecommended := llmRecommendation api rt query nonExempt in
  ret (fold_left (scoringStep rt qLower llmRecommended skillFiles) nonExempt acc).

(* ===================================================================== *)
(** * The ManifestRewriter: the [agent:bootstrap] hook *)
(* ===================================================================== *)

(** [filePath.match(/[\\/]skills[\\/]([^\\/]+)/)] *)
Module SkillPath.

Definition isSeparator (c : ascii) : bool :=
  Ascii.eqb c "\" || Ascii.eqb c "/".

Fixpoint takeWhile (f : ascii -> bool) (l : list ascii) : list ascii :=
  match l with
  | c :: l' => if f c then c :: takeWhile f l' else []
  | [] => []
  end.

(** An attempt at the head of [l]: a separator, [skills], a separator and
    then as many code units other than separators as there are, at least
    one of them.  The result is group 1. *)
Definition match_at (l : list ascii) : option (list ascii) :=
  match l with
  | c :: l1 =>
      if isSeparator c && Frontmatter.is_prefix (Js.chars "skills") l1 then
        match skipn 6 l1 with
        | d :: l2 =>
            if isSeparator d then
              match takeWhile (fun x => negb (isSeparator x)) l2 with
              | [] => None
              | name => Some name
              end
            else None
        | [] => None
        end
      else None
  | [] => None
  end.

(** The leftmost position where the attempt succeeds. *)
Fixpoint find (l : list ascii) : option (list ascii) :=
  match match_at l with
  | Some name => Some name
  | None =>
      match l with
      | _ :: l' => find l'
      | [] => None
      end
  end.

(** [match?.[1]] *)
Definition skillName (filePath : string) : option string :=
  option_map Js.of_chars (find (Js.chars filePath)).

End SkillPath.

(** [event.context] without the record list, which is in the state. *)
Record event : Type := mkEvent {
  sessionEntry : option (list message)
}.

(** [sessionEntry || []] *)
Definition history (ev : event) : list message :=
  match sessionEntry ev with
  | Some h => h
  | None => []
  end.

(** [[...(sessionEntry || [])].reverse().find(m => m.role === 'user')] *)
Definition lastUserMsg (ev : event) : option message :=
  List.find (fun m => String.eqb (role m) "user") (rev (history ev)).

(** [lastUserMsg ? lastUserMsg.content : ''] *)
Definition query_of (ev : event) : string :=
  match lastUserMsg ev with
  | Some m => content m
  | None => ""
  end.

(** [file.path || (typeof file === 'string' ? file : '')] *)
Definition path_or_empty (file : record) : string :=
  match file with
  | PathString p => p
  | FileObject p _ => if Js.truthy p then p else ""
  end.

(** [(file.path || file).match(/[\\/]skills[\\/]([^\\/]+)/)?.[1]]: an
    object whose path is empty is itself the receiver of [match], and it
    has no such method. *)
Definition path_match (file : record) : M (option string) :=
  match file with
  | PathString p => ret (SkillPath.skillName p)
  | FileObject p _ =>
      if Js.truthy p then ret (SkillPath.skillName p) else throw TypeError
  end.

(** The body of the first loop over [bootstrapFiles]. *)
Definition partitionStep (acc : JsMap.t * list record) (file : record)
  : JsMap.t * list record :=
  let '(skillPaths, nonSkillFiles) := acc in
  let filePath := path_or_empty file in
  match SkillPath.skillName filePath with
  | Some skillName =>
      if Js.endsWith filePath "SKILL.md"
      then (JsMap.set skillName filePath skillPaths, nonSkillFiles)
      else (skillPaths, nonSkillFiles)
  | None => (skillPaths, nonSkillFiles ++ [file])
  end.

Definition partition (files : list record) : JsMap.t * list record :=
  fold_left partitionStep files ([], []).

(** [Array.from(new Set(l))]: the first occurrence of each element. *)
Definition dedupe (l : list string) : list string :=
  fold_left (fun acc x => if Js.includes acc x then acc else acc ++ [x]) l [].

(** [Array.from(new Set(bootstrapFiles.map(...).filter(Boolean)))] *)
Definition allSkillNames (files : list record) : M (list string) :=
  let* names := forM path_match files in
  ret (dedupe (List.filter Js.truthy (omap id names))).

(** The body of the loop that rebuilds [keptFiles]. *)
Definition keepStep (selected : list string) (keptFiles : list record)
    (file : record) : M (list record) :=
  let* skillMatch := path_match file in
  match skillMatch with
  | Some skillName =>
      if Js.includes selected skillName
      then ret (keptFiles ++ [file]) else ret keptFiles
  | None => ret keptFiles
  end.

Definition lf : string := String "010"%char EmptyString.

Definition reportPath : string := "zesty-dispatcher-report.md".

Definition report (selected : list string) : record :=
  FileObject reportPath
    (Some (lf ++ lf ++ "[Zesty Dispatcher] Active Skills (Threshold 60): "
             ++ Js.join ", " selected ++ "." ++ lf)%string).

(** The [try] block of the hook. *)
Definition hook_body (api : Api) (rt : Runtime) (ev : event) : M unit :=
  let query := query_of ev in
  if negb (Js.truthy query) then ret tt
  else
    let* files := read_bootstrapFiles in
    let '(skillPaths, nonSkillFiles) := partition files in
    let* files := read_bootstrapFiles in
    let* allNames := allSkillNames files in
    let* sel := selectRelevantSkills api rt query skillPaths in
    let* files := read_bootstrapFiles in
    let* keptFiles := foldM (keepStep (selected sel)) files nonSkillFiles in
    truncate_bootstrapFiles ;;;
    push_bootstrapFiles keptFiles ;;;
    match selected sel with
    | _ :: _ => push_bootstrapFiles [report (selected sel)]
    | [] => ret tt
    end.

(** The hook as registered: the [try] block and its [catch]. *)
Definition hook (api : Api) (rt : Runtime) (ev : event) : M unit :=
  try_catch (hook_body api rt ev)
    (fun e => let* m := read_message e in logger_error m).

(* ===================================================================== *)
(** * The specification's vocabulary *)
(* ===================================================================== *)

Module Spec.

(** Two texts are equal ignoring case when their lower-cased forms are
    the same. *)
Definition equal_ignoring_case (a b : list ascii) : Prop :=
  map CodeUnit.toLowerCase a = map CodeUnit.toLowerCase b.

(** A word boundary lies between [before] and [after] when exactly one
    of the two code units next to it is a word character; the ends of the
    text count as non-word. *)
Definition word_boundary (before after : list ascii) : Prop :=
  RegExp.isWord (last before) <> RegExp.isWord (head after).

(** [w] occurs in [s] as a whole word, ignoring case. *)
Definition occurs_as_whole_word (w s : string) : Prop :=
  exists pre mid post : list ascii,
    Js.chars s = pre ++ mid ++ post
    /\ equal_ignoring_case mid (Js.chars w)
    /\ word_boundary pre (mid ++ post)
    /\ word_boundary (pre ++ mid) post.

(** A pattern that ends in the wildcard matches the names that start
    with what is before the wildcard; any other pattern matches itself. *)
Definition matches_pattern (name pattern : string) : Prop :=
  (exists pre, pattern = (pre ++ "*")%string
               /\ exists rest, name = (pre ++ rest)%string)
  \/ ((forall pre, pattern <> (pre ++ "*")%string) /\ name = pattern).

Definition exempted (name : string) (patterns : list string) : Prop :=
  exists pattern, In pattern patterns /\ matches_pattern name pattern.

(** The exemption patterns in force: the configured list, or [zesty-*] and
    [qmd] when none is configured. *)
Definition patterns_in_force (api : Api) (patterns : list string) : Prop :=
  config_exemptions api = Some patterns
  \/ (config_exemptions api = None /\ patterns = ["zesty-*"; "qmd"]).

(** [t] is a piece of [text]. *)
Definition contains_text (text t : string) : Prop :=
  exists pre post, text = (pre ++ t ++ post)%string.

(** No piece of the reply parses as a JSON array. *)
Definition no_parsable_array (rt : Runtime) (text : string) : Prop :=
  forall t, contains_text text t -> JSON_parse rt t = None.

(** The three ways the semantic signal is lost: no collaborator, a call
    that raises, a reply without a parsable array. *)
Inductive semantic_failure (api : Api) (rt : Runtime) (req : llm_request)
  : Prop :=
| collaborator_absent :
    generateText api = None -> semantic_failure api rt req
| collaborator_raises gen reason :
    generateText api = Some gen -> gen req = Rejects reason ->
    semantic_failure api rt req
| reply_unparsable gen r :
    generateText api = Some gen -> gen req = Resolves r ->
    no_parsable_array rt (responseText r) ->
    semantic_failure api rt req.

(** The call is rejected with [undefined] or [null]. *)
Definition rejected_without_reason (api : Api) (req : llm_request) : Prop :=
  exists gen, generateText api = Some gen /\ gen req = Rejects Nullish.

(** The conversation holds no turn of the user. *)
Definition no_user_turn (h : list message) : Prop :=
  forall m, In m h -> role m <> "user".

(** [m] is the most recent turn of the user. *)
Definition last_user_turn (h : list message) (m : message) : Prop :=
  exists before after,
    h = before ++ m :: after /\ role m = "user" /\ no_user_turn after.

(** The path of a record, and the candidate it belongs to. *)
Definition record_path (file : record) : string :=
  match file with
  | PathString p => p
  | FileObject p _ => p
  end.

Definition candidate_of (file : record) : option string :=
  SkillPath.skillName (record_path file).

Definition is_non_skill (file : record) : bool :=
  match candidate_of file with
  | Some _ => false
  | None => true
  end.

Definition is_selected_skill (sel : list string) (file : record) : bool :=
  match candidate_of file with
  | Some name => Js.includes sel name
  | None => false
  end.

(** The list the rewriter is to leave: the non-skill records, then the
    records of the selected candidates, both in their original order,
    then the report when something was selected. *)
Definition rewritten (files : list record) (sel : list string)
  : list record :=
  List.filter is_non_skill files
    ++ List.filter (is_selected_skill sel) files
    ++ match sel with
       | _ :: _ => [report sel]
       | [] => []
       end.

(** An object record that carries a path; bare paths always do. *)
Definition has_path (file : record) : Prop :=
  match file with
  | PathString _ => True
  | FileObject p _ => p <> ""
  end.

(** The distinct candidate names found across the records. *)
Definition is_candidate_name (files : list record) (name : string) : Prop :=
  exists file, In file files /\ candidate_of file = Some name.

End Spec.

(** The points each signal adds for one candidate. *)
Definition nameContribution (qLower skillName : string) : Z :=
  fst (nameSignal qLower skillName (0, [])).

Definition llmContribution (llmRecommended : list json_value)
    (skillName : string) : Z :=
  fst (llmSignal llmRecommended skillName (0, [])).

Definition keywordContribution (qLower desc : string) : Z :=
  fst (keywordSignal qLower desc (0, [])).

Definition descriptionContribution (rt : Runtime) (qLower : string)
    (skillFiles : JsMap.t) (skillName : string) : Z :=
  fst (descriptionSignal rt qLower skillFiles skillName (0, [])).

(** The keywords of the query that the description in a candidate's
    descriptor holds; none when the candidate has no descriptor path or the
    descriptor cannot be read. *)
Definition descriptorKeywords (rt : Runtime) (qLower : string)
    (skillFiles : JsMap.t) (skillName : string) : list string :=
  match JsMap.get skillName skillFiles with
  | Some skillPath =>
      if Js.truthy skillPath then
        match readDescriptor rt skillPath with
        | Some buffer => matchedKeywords qLower (descriptionOfBuffer buffer)
        | None => []
        end
      else []
  | None => []
  end.

(* ===================================================================== *)
(** * Auxiliary definitions for the proofs, and sample data *)
(* ===================================================================== *)

(** Every code unit is one of the 256. *)
Definition all_code_units : list ascii := map ascii_of_nat (seq 0 256).

(** The code unit before the position reached after reading [l], when
    [prev] was before [l]. *)
Definition last_or (prev : option ascii) (l : list ascii) : option ascii :=
  match last l with
  | Some c => Some c
  | None => prev
  end.

Module Sample.

(** A reader of arrays of plain strings such as [["a","b"]], enough for
    the sample replies below: no escapes, no white space, no nesting. *)
Fixpoint read_strings (fuel : nat) (l : list ascii) : option (list json_value) :=
  match fuel with
  | O => None
  | S fuel' =>
      match l with
      | q :: l1 =>
          if Ascii.eqb q "034" then
            let body := SkillPath.takeWhile (fun c => negb (Ascii.eqb c "034")) l1 in
            match skipn (length body) l1 with
            | _ :: c :: l2 =>
                if Ascii.eqb c "]" then
                  match l2 with
                  | [] => Some [JString (Js.of_chars body)]
                  | _ :: _ => None
                  end
                else if Ascii.eqb c "," then
                  option_map (cons (JString (Js.of_chars body)))
                    (read_strings fuel' l2)
                else None
            | _ => None
            end
          else None
      | [] => None
      end
  end.

Definition parse_string_array (text : string) : option (list json_value) :=
  match Js.chars text with
  | c :: l =>
      if Ascii.eqb c "[" then
        match l with
        | [d] => if Ascii.eqb d "]" then Some [] else None
        | _ => read_strings (length l) l
        end
      else None
  | [] => None
  end.

Definition pdf_descriptor : string :=
  "---" ++ lf ++ "name: pdf" ++ lf
    ++ "description: Parses pdf files and tool output" ++ lf ++ "---" ++ lf.

Definition rt : Runtime :=
  mkRuntime
    (fun p => if String.eqb p "/ws/skills/pdf/SKILL.md"
              then Some pdf_descriptor else None)
    parse_string_array.

Definition quoted (s : string) : string :=
  Frontmatter.dquote ++ s ++ Frontmatter.dquote.

(** No collaborator configured. *)
Definition api_plain : Api := mkApi None None None.

(** A collaborator whose call raises. *)
Definition api_failing : Api :=
  mkApi None None (Some (fun _ => Rejects (CollaboratorError "timeout"))).

(** A collaborator whose call is rejected without a reason, as
    [Promise.reject()] and [throw undefined] do. *)
Definition api_rejecting : Api :=
  mkApi None None (Some (fun _ => Rejects Nullish)).

(** Every candidate is exempt. *)
Definition api_exempting : Api := mkApi (Some ["*"]) None None.

(** A collaborator that recommends one candidate and one name that is
    not a candidate. *)
Definition api_recommending : Api :=
  mkApi None None
    (Some (fun _ =>
             Resolves (mkResponse
                         (Some ("Sure: [" ++ quoted "xyz" ++ ","
                                  ++ quoted "ghost" ++ "]")%string)
                         None))).

Definition skillFiles : JsMap.t :=
  [("pdf", "/ws/skills/pdf/SKILL.md");
   ("xyz", "/ws/skills/xyz/SKILL.md");
   ("zesty-x", "/ws/skills/zesty-x/SKILL.md")].

(** A map with a candidate whose directory is named [__proto__]. *)
Definition protoFiles : JsMap.t :=
  [("__proto__", "/ws/skills/__proto__/SKILL.md");
   ("pdf", "/ws/skills/pdf/SKILL.md")].

Definition files : list record :=
  [FileObject "/ws/AGENTS.md" None;
   FileObject "/ws/skills/pdf/SKILL.md" None;
   PathString "/ws/skills/pdf/run.py";
   FileObject "/ws/skills/xyz/SKILL.md" None;
   FileObject "/ws/skills/zesty-x/SKILL.md" None;
   FileObject "/ws/SOUL.md" (Some "soul")].

Definition st : state := mkState files [].

Definition asks (query : string) : event :=
  mkEvent (Some [mkMessage "user" query; mkMessage "assistant" "ok"]).

End Sample.

(* ===================================================================== *)
(** * Descriptor headers with plain values *)
(* ===================================================================== *)

Module Header.

(** Neither end of the text is white space. *)
Definition trimmed (s : string) : Prop :=
  (forall c, head (Js.chars s) = Some c -> CodeUnit.isWhiteSpace c = false)
  /\ (forall c, last (Js.chars s) = Some c -> CodeUnit.isWhiteSpace c = false).

Definition single_line (s : string) : Prop :=
  ~ In "010"%char (Js.chars s).

Definition dash_free (l : list ascii) : Prop :=
  forall a b, l <> a ++ Frontmatter.dashes ++ b.

(** Not wrapped in a pair of double or of single quotes. *)
Definition unquoted (s : string) : Prop :=
  (Js.startsWith s Frontmatter.dquote && Js.endsWith s Frontmatter.dquote)
  || (Js.startsWith s Frontmatter.squote && Js.endsWith s Frontmatter.squote)
  = false.

(** A value a header line carries unchanged. *)
Definition plain (s : string) : Prop :=
  s <> "" /\ trimmed s /\ single_line s /\ dash_free (Js.chars s)
  /\ unquoted s.

(** The header block of a descriptor with the two recognised keys. *)
Definition render (name description : string) : string :=
  "---" ++ lf ++ "name: " ++ name ++ lf
    ++ "description: " ++ description ++ lf ++ "---".

End Header.

(* ===================================================================== *)
(** * Strings and lists of code units *)
(* ===================================================================== *)

Lemma chars_app (a b : string) : Js.chars (a ++ b) = Js.chars a ++ Js.chars b.
Proof.
  unfold Js.chars. induction a as [|c a IH]; simpl; [reflexivity|].
  now rewrite IH.
Qed.

Lemma chars_of_chars (l : list ascii) : Js.chars (Js.of_chars l) = l.
Proof. apply list_ascii_of_string_of_list_ascii. Qed.

Lemma of_chars_chars (s : string) : Js.of_chars (Js.chars s) = s.
Proof. apply string_of_list_ascii_of_string. Qed.

Lemma in_all_code_units (c : ascii) : In c all_code_units.
Proof.
  unfold all_code_units. apply in_map_iff. exists (nat_of_ascii c). split.
  - apply ascii_nat_embedding.
  - apply in_seq. pose proof (nat_ascii_bounded c). lia.
Qed.

Lemma forall_code_units (P : ascii -> bool) :
  forallb P all_code_units = true -> forall c, P c = true.
Proof.
  intros H c. rewrite forallb_forall in H. apply H, in_all_code_units.
Qed.

(* ===================================================================== *)
(** * Escaped literals are read back as literals *)
(* ===================================================================== *)

Lemma escaped_class_syntax (c : ascii) :
  existsb (Ascii.eqb c) (Js.chars RegExp.escaped_class)
  = RegExp.isSyntaxCharacter c.
Proof.
  apply Bool.eqb_true_iff.
  revert c. apply forall_code_units. vm_compute. reflexivity.
Qed.

Lemma syntax_character_not_b (c : ascii) :
  RegExp.isSyntaxCharacter c = true -> Ascii.eqb c "b" = false.
Proof.
  revert c.
  assert (H : forall c, implb (RegExp.isSyntaxCharacter c)
                          (negb (Ascii.eqb c "b")) = true)
    by (apply forall_code_units; vm_compute; reflexivity).
  intros c Hc. specialize (H c). rewrite Hc in H. simpl in H.
  now apply negb_true_iff.
Qed.

Lemma backslash_is_syntax (c : ascii) :
  Ascii.eqb c "\" = true -> RegExp.isSyntaxCharacter c = true.
Proof. intros H%Ascii.eqb_eq. subst c. reflexivity. Qed.

(** The pattern source made of [\b], the escaped [s] and [\b] is inside
    the fragment, and reads as: boundary, the code units of [s], boundary. *)
Lemma parse_go_escaped (l : list ascii) (tail : list ascii) :
  RegExp.parse_go
    (flat_map (fun c => if existsb (Ascii.eqb c) (Js.chars RegExp.escaped_class)
                        then ["\"%char; c] else [c]) l ++ tail)
  = option_map (app (map RegExp.Char l)) (RegExp.parse_go tail).
Proof.
  induction l as [|c l IH].
  - simpl. destruct (RegExp.parse_go tail); reflexivity.
  - cbn [flat_map map]. rewrite <- app_assoc, escaped_class_syntax.
    destruct (RegExp.isSyntaxCharacter c) eqn:Hc.
    + cbn [app RegExp.parse_go]. change (Ascii.eqb "\" "\") with true.
      cbn iota. rewrite (syntax_character_not_b c Hc), Hc, IH.
      destruct (RegExp.parse_go tail); reflexivity.
    + cbn [app RegExp.parse_go].
      destruct (Ascii.eqb c "\") eqn:Hb.
      * apply backslash_is_syntax in Hb. congruence.
      * rewrite Hc, IH. destruct (RegExp.parse_go tail); reflexivity.
Qed.

Lemma compile_escaped (s : string) :
  RegExp.compile ("\b" ++ RegExp.escape s ++ "\b")
  = Some (RegExp.WordBoundary :: map RegExp.Char (Js.chars s)
            ++ [RegExp.WordBoundary]).
Proof.
  unfold RegExp.compile, RegExp.escape.
  rewrite !chars_app, chars_of_chars.
  change (Js.chars "\b") with ["\"%char; "b"%char].
  cbn [app RegExp.parse_go Ascii.eqb]. simpl Ascii.eqb.
  rewrite parse_go_escaped. reflexivity.
Qed.

(* ===================================================================== *)
(** * Matching an escaped literal between word boundaries *)
(* ===================================================================== *)

Lemma canonicalize_lower (a b : ascii) :
  (CodeUnit.Canonicalize a =? CodeUnit.Canonicalize b)%N
  = Ascii.eqb (CodeUnit.toLowerCase a) (CodeUnit.toLowerCase b).
Proof.
  assert (H : forallb
                (fun a => forallb
                   (fun b => Bool.eqb
                      (CodeUnit.Canonicalize a =? CodeUnit.Canonicalize b)%N
                      (Ascii.eqb (CodeUnit.toLowerCase a) (CodeUnit.toLowerCase b)))
                   all_code_units)
                all_code_units = true)
    by (vm_compute; reflexivity).
  rewrite forallb_forall in H. specialize (H a (in_all_code_units a)).
  rewrite forallb_forall in H. specialize (H b (in_all_code_units b)).
  now apply Bool.eqb_true_iff.
Qed.

Lemma last_or_cons prev d l : last_or prev (d :: l) = last_or (Some d) l.
Proof.
  unfold last_or. destruct l as [|e l]; [reflexivity|].
  rewrite last_cons. destruct (last (e :: l)) eqn:E; [reflexivity|].
  apply last_None in E. discriminate.
Qed.

Lemma last_or_None l : last_or None l = last l.
Proof. unfold last_or. destruct (last l); reflexivity. Qed.

Lemma last_or_app prev a b : last_or prev (a ++ b) = last_or (last_or prev a) b.
Proof.
  revert prev. induction a as [|c a IH]; intros prev; simpl.
  - reflexivity.
  - rewrite !last_or_cons. apply IH.
Qed.

Lemma last_app_or (a b : list ascii) : last (a ++ b) = last_or (last a) b.
Proof. now rewrite <- !last_or_None, last_or_app. Qed.

Lemma xorb_true_neq (a b : bool) : xorb a b = true <-> a <> b.
Proof. destruct a, b; simpl; split; congruence. Qed.

Lemma match_here_literal (w : list ascii) (r : list RegExp.atom)
    (prev : option ascii) (l : list ascii) :
  RegExp.match_here (map RegExp.Char w ++ r) prev l = true
  <-> exists mid rest,
        l = mid ++ rest
        /\ Spec.equal_ignoring_case mid w
        /\ RegExp.match_here r (last_or prev mid) rest = true.
Proof.
  unfold Spec.equal_ignoring_case.
  revert prev l. induction w as [|c w IH]; intros prev l.
  - cbn [map app]. split.
    + intros H. exists [], l. auto.
    + intros (mid & rest & -> & Hm & H).
      destruct mid; [exact H|discriminate].
  - cbn [map app RegExp.match_here]. destruct l as [|d l].
    + split; [discriminate|].
      intros (mid & rest & Hl & Hm & _).
      destruct mid; discriminate.
    + rewrite andb_true_iff, canonicalize_lower, Ascii.eqb_eq, IH. split.
      * intros (Hcd & mid & rest & -> & Hm & H).
        exists (d :: mid), rest. rewrite last_or_cons. cbn [map app].
        repeat split; congruence.
      * intros (mid & rest & Hl & Hm & H).
        destruct mid as [|d' mid]; [discriminate|].
        cbn [map app] in Hl, Hm. injection Hl as -> ->. injection Hm as Hd Hm.
        rewrite last_or_cons in H. split; [congruence|].
        exists mid, rest. auto.
Qed.

Lemma search_positions (r : list RegExp.atom) (prev : option ascii)
    (l : list ascii) :
  RegExp.search r prev l = true
  <-> exists pre post,
        l = pre ++ post /\ RegExp.match_here r (last_or prev pre) post = true.
Proof.
  revert prev. induction l as [|d l IH]; intros prev;
    cbn [RegExp.search]; rewrite orb_true_iff.
  - split.
    + intros [H|H]; [|discriminate]. exists [], []. auto.
    + intros (pre & post & Hl & H). left.
      symmetry in Hl. apply app_eq_nil in Hl as [-> ->]. exact H.
  - rewrite IH. split.
    + intros [H|(pre & post & -> & H)].
      * exists [], (d :: l). auto.
      * exists (d :: pre), post. rewrite last_or_cons. auto.
    + intros (pre & post & Hl & H). destruct pre as [|d' pre].
      * left. cbn in Hl. subst post. exact H.
      * right. cbn [app] in Hl. injection Hl as -> ->.
        rewrite last_or_cons in H. exists pre, post. auto.
Qed.

(** The test the program runs for names and for keywords decides the
    whole-word occurrence of the specification. *)
Lemma wholeWordTest_spec (w s : string) :
  RegExp.wholeWordTest w s = true <-> Spec.occurs_as_whole_word w s.
Proof.
  unfold RegExp.wholeWordTest, RegExp.test, Spec.occurs_as_whole_word,
    Spec.word_boundary.
  rewrite compile_escaped, search_positions. split.
  - intros (pre & post & Hs & H).
    cbn [RegExp.match_here] in H. apply andb_true_iff in H as [Hb H].
    apply match_here_literal in H as (mid & rest & -> & Hm & H).
    cbn [RegExp.match_here] in H. rewrite andb_true_r in H.
    exists pre, mid, rest. rewrite last_or_None in *.
    repeat split; try assumption.
    + now apply xorb_true_neq.
    + apply xorb_true_neq in H. now rewrite last_app_or.
  - intros (pre & mid & post & Hs & Hm & Hb1 & Hb2).
    exists pre, (mid ++ post). split; [assumption|].
    cbn [RegExp.match_here]. rewrite last_or_None.
    apply andb_true_iff. split; [now apply xorb_true_neq|].
    apply match_here_literal. exists mid, post. repeat split; try assumption.
    cbn [RegExp.match_here]. rewrite andb_true_r. apply xorb_true_neq.
    now rewrite <- last_app_or.
Qed.

(* ===================================================================== *)
(** * Exemption patterns *)
(* ===================================================================== *)

Lemma string_app_cons (a : ascii) (s t : string) :
  (String a s ++ t)%string = String a (s ++ t).
Proof. reflexivity. Qed.

Lemma string_snoc_cases (p : string) :
  p = "" \/ exists pre c, p = (pre ++ String c "")%string.
Proof.
  induction p as [|a p IH]; [now left|right].
  destruct IH as [->|(pre & c & ->)].
  - exists "", a. reflexivity.
  - exists (String a pre), c. reflexivity.
Qed.

Lemma string_length_app (a b : string) :
  String.length (a ++ b) = (String.length a + String.length b)%nat.
Proof. induction a as [|c a IH]; simpl; [reflexivity|now rewrite IH]. Qed.

Lemma substring_snoc_last (pre : string) (c : ascii) :
  String.substring (String.length pre) 1 (pre ++ String c "") = String c "".
Proof. induction pre as [|a pre IH]; simpl; [reflexivity|exact IH]. Qed.

Lemma substring_snoc_init (pre : string) (c : ascii) :
  String.substring 0 (String.length pre) (pre ++ String c "") = pre.
Proof. induction pre as [|a pre IH]; simpl; [reflexivity|now rewrite IH]. Qed.

Lemma string_snoc_inj (a b : string) (c d : ascii) :
  (a ++ String c "")%string = (b ++ String d "")%string -> a = b /\ c = d.
Proof.
  revert b. induction a as [|x a IH]; intros [|y b] H; simpl in H.
  - injection H as ->. auto.
  - injection H as -> H. destruct b; discriminate.
  - injection H as -> H. destruct a; discriminate.
  - injection H as -> H. apply IH in H as [-> ->]. auto.
Qed.

Lemma endsWith_star (p : string) :
  Js.endsWith p "*" = true <-> exists pre, p = (pre ++ "*")%string.
Proof.
  unfold Js.endsWith. split.
  - intros [Hlen Heq]%andb_true_iff. apply String.eqb_eq in Heq.
    destruct (string_snoc_cases p) as [->|(pre & c & ->)]; [discriminate|].
    exists pre. rewrite string_length_app in Heq. simpl String.length in Heq.
    replace (String.length pre + 1 - 1)%nat with (String.length pre) in Heq by lia.
    rewrite substring_snoc_last in Heq. now rewrite Heq.
  - intros (pre & ->). rewrite string_length_app. simpl String.length.
    replace (String.length pre + 1 - 1)%nat with (String.length pre) by lia.
    rewrite substring_snoc_last. apply andb_true_iff. split.
    + apply Nat.leb_le. lia.
    + reflexivity.
Qed.

Lemma slice_0_m1_snoc (pre : string) (c : ascii) :
  Js.slice_0_m1 (pre ++ String c "") = pre.
Proof.
  unfold Js.slice_0_m1. rewrite string_length_app. simpl String.length.
  replace (String.length pre + 1 - 1)%nat with (String.length pre) by lia.
  apply substring_snoc_init.
Qed.

Lemma startsWith_app (s pre : string) :
  Js.startsWith s pre = true <-> exists rest, s = (pre ++ rest)%string.
Proof.
  unfold Js.startsWith. revert s. induction pre as [|a pre IH]; intros s.
  - destruct s; simpl; split; eauto.
  - destruct s as [|b s]; simpl.
    + split; [discriminate|]. intros (rest & H). discriminate.
    + destruct (ascii_dec a b) as [->|Hab].
      * rewrite IH. split; intros (rest & H); exists rest;
          rewrite string_app_cons in *; congruence.
      * split; [discriminate|]. intros (rest & H).
        rewrite string_app_cons in H. congruence.
Qed.

Lemma matches_pattern_decided (name pattern : string) :
  (if Js.endsWith pattern "*"
   then Js.startsWith name (Js.slice_0_m1 pattern)
   else String.eqb name pattern) = true
  <-> Spec.matches_pattern name pattern.
Proof.
  unfold Spec.matches_pattern.
  destruct (Js.endsWith pattern "*") eqn:E.
  - apply endsWith_star in E as (pre & ->).
    rewrite slice_0_m1_snoc, startsWith_app. split.
    + intros H. left. exists pre. auto.
    + intros [(pre' & Hp & H)|(Hno & _)].
      * apply string_snoc_inj in Hp as [-> _]. exact H.
      * now destruct (Hno pre).
  - rewrite String.eqb_eq. split.
    + intros ->. right. split; [|reflexivity].
      intros pre ->. assert (Js.endsWith (pre ++ "*") "*" = true)
        by (apply endsWith_star; eauto). congruence.
    + intros [(pre & -> & _)|(_ & H)]; [|exact H].
      assert (Js.endsWith (pre ++ "*") "*" = true)
        by (apply endsWith_star; eauto). congruence.
Qed.

Lemma isExempt_spec (name : string) (patterns : list string) :
  isExempt name patterns = true <-> Spec.exempted name patterns.
Proof.
  unfold isExempt, Spec.exempted. rewrite existsb_exists.
  split; intros (p & Hin & H); exists p; split; try assumption;
    now apply matches_pattern_decided.
Qed.

Lemma includes_In (l : list string) (x : string) :
  Js.includes l x = true <-> In x l.
Proof.
  unfold Js.includes. rewrite existsb_exists. split.
  - intros (y & Hin & ->%String.eqb_eq). exact Hin.
  - intros Hin. exists x. split; [exact Hin|apply String.eqb_refl].
Qed.

Lemma in_exemptCandidates api cands s :
  In s (exemptCandidates api cands)
  <-> In s cands /\ isExempt s (configExemptions api) = true.
Proof. apply filter_In. Qed.

Lemma in_nonExemptCandidates api cands s :
  In s (nonExemptCandidates api cands)
  <-> In s cands /\ isExempt s (configExemptions api) = false.
Proof.
  unfold nonExemptCandidates. rewrite filter_In, negb_true_iff. split.
  - intros [Hin Hinc]. split; [exact Hin|].
    destruct (isExempt s (configExemptions api)) eqn:E; [|reflexivity].
    assert (Js.includes (exemptCandidates api cands) s = true)
      by (apply includes_In, in_exemptCandidates; auto).
    congruence.
  - intros [Hin Hex]. split; [exact Hin|].
    destruct (Js.includes (exemptCandidates api cands) s) eqn:E; [|reflexivity].
    apply includes_In, in_exemptCandidates in E as [_ E]. congruence.
Qed.

(* ===================================================================== *)
(** * The two loops of the Selector *)
(* ===================================================================== *)

Lemma exemption_loop_selected (l : list string) (acc : selection) :
  selected (fold_left exemptionStep l acc) = selected acc ++ l.
Proof.
  revert acc. induction l as [|s l IH]; intros acc; simpl.
  - now rewrite app_nil_r.
  - rewrite IH. simpl. now rewrite <- app_assoc.
Qed.

Lemma own_assign_primitive {V : Type} (k : string) (v : V)
    (o : JsObject.t V) (s : string) :
  JsObject.own (JsObject.assign_primitive k v o) !! s
  = if String.eqb s k && negb (String.eqb s JsObject.proto_key)
    then Some v else JsObject.own o !! s.
Proof.
  unfold JsObject.assign_primitive.
  destruct (String.eqb_spec s k) as [->|Hne]; cbn [andb].
  - destruct (String.eqb k JsObject.proto_key); cbn [negb JsObject.own];
      [reflexivity|apply lookup_insert_eq].
  - destruct (String.eqb k JsObject.proto_key); cbn [JsObject.own];
      [reflexivity|apply lookup_insert_ne; congruence].
Qed.

Lemma own_assign_object {V : Type} (k : string) (v : V)
    (o : JsObject.t V) (s : string) :
  JsObject.own (JsObject.assign_object k v o) !! s
  = if String.eqb s k && negb (String.eqb s JsObject.proto_key)
    then Some v else JsObject.own o !! s.
Proof.
  unfold JsObject.assign_object.
  destruct (String.eqb_spec s k) as [->|Hne]; cbn [andb].
  - destruct (String.eqb k JsObject.proto_key); cbn [negb JsObject.own];
      [reflexivity|apply lookup_insert_eq].
  - destruct (String.eqb k JsObject.proto_key); cbn [JsObject.own];
      [reflexivity|apply lookup_insert_ne; congruence].
Qed.

Lemma proto_assign_primitive {V : Type} (k : string) (v : V)
    (o : JsObject.t V) :
  JsObject.proto (JsObject.assign_primitive k v o) = JsObject.proto o.
Proof.
  unfold JsObject.assign_primitive.
  destruct (String.eqb k JsObject.proto_key); reflexivity.
Qed.

Lemma proto_assign_object {V : Type} (k : string) (v : V)
    (o : JsObject.t V) :
  JsObject.proto (JsObject.assign_object k v o)
  = if String.eqb JsObject.proto_key k then Some v else JsObject.proto o.
Proof.
  unfold JsObject.assign_object. rewrite (String.eqb_sym JsObject.proto_key k).
  destruct (String.eqb k JsObject.proto_key); reflexivity.
Qed.

(** What a loop of assignments leaves under a name: the value of the turn
    for that name, unless the name is [__proto__]. *)
Lemma includes_cons (x : string) (l : list string) (s : string) :
  Js.includes (x :: l) s = String.eqb s x || Js.includes l s.
Proof. reflexivity. Qed.

Lemma loop_lookup {V : Type} (now later : bool) (np : bool) (v : V)
    (old : option V) :
  (if later && np then Some v
   else if now && np then Some v else old)
  = if (now || later) && np then Some v else old.
Proof. destruct now, later, np; reflexivity. Qed.

Lemma exemption_loop_scores (l : list string) (acc : selection) (s : string) :
  JsObject.own (scores (fold_left exemptionStep l acc)) !! s
  = if Js.includes l s && negb (String.eqb s JsObject.proto_key)
    then Some 999 else JsObject.own (scores acc) !! s.
Proof.
  revert acc. induction l as [|x l IH]; intros acc; [reflexivity|].
  cbn [fold_left]. rewrite IH, includes_cons. cbn [exemptionStep scores].
  rewrite own_assign_primitive. apply loop_lookup.
Qed.

Lemma exemption_loop_breakdown (l : list string) (acc : selection) (s : string) :
  JsObject.own (breakdown (fold_left exemptionStep l acc)) !! s
  = if Js.includes l s && negb (String.eqb s JsObject.proto_key)
    then Some ["Exemption"] else JsObject.own (breakdown acc) !! s.
Proof.
  revert acc. induction l as [|x l IH]; intros acc; [reflexivity|].
  cbn [fold_left]. rewrite IH, includes_cons. cbn [exemptionStep breakdown].
  rewrite own_assign_object. apply loop_lookup.
Qed.

Lemma exemption_loop_scores_proto (l : list string) (acc : selection) :
  JsObject.proto (scores (fold_left exemptionStep l acc))
  = JsObject.proto (scores acc).
Proof.
  revert acc. induction l as [|x l IH]; intros acc; [reflexivity|].
  cbn [fold_left]. rewrite IH. cbn [exemptionStep scores].
  apply proto_assign_primitive.
Qed.

Lemma exemption_loop_breakdown_proto (l : list string) (acc : selection) :
  JsObject.proto (breakdown (fold_left exemptionStep l acc))
  = if Js.includes l JsObject.proto_key then Some ["Exemption"]
    else JsObject.proto (breakdown acc).
Proof.
  revert acc. induction l as [|x l IH]; intros acc; [reflexivity|].
  cbn [fold_left]. rewrite IH, includes_cons. cbn [exemptionStep breakdown].
  rewrite proto_assign_object.
  destruct (Js.includes l JsObject.proto_key); [now rewrite orb_true_r|].
  now rewrite orb_false_r.
Qed.

Section ScoringLoop.

Variable rt : Runtime.
Variable qLower : string.
Variable llm : list json_value.
Variable skillFiles : JsMap.t.

Let step := scoringStep rt qLower llm skillFiles.
Let score (s : string) : Z := fst (scoreSkill rt qLower llm skillFiles s).

Lemma scoring_loop_selected (l : list string) (acc : selection) :
  selected (fold_left step l acc)
  = selected acc ++ List.filter (fun s => (60 <=? score s)%Z) l.
Proof.
  revert acc. induction l as [|s l IH]; intros acc; cbn [fold_left List.filter].
  - now rewrite app_nil_r.
  - rewrite IH. unfold step, scoringStep, score.
    destruct (scoreSkill rt qLower llm skillFiles s) as [z rs]. cbn [selected fst].
    destruct (60 <=? z)%Z; [now rewrite <- app_assoc|reflexivity].
Qed.

Lemma scoring_loop_scores (l : list string) (acc : selection) (s : string) :
  JsObject.own (scores (fold_left step l acc)) !! s
  = if Js.includes l s && negb (String.eqb s JsObject.proto_key)
    then Some (score s) else JsObject.own (scores acc) !! s.
Proof.
  revert acc. induction l as [|x l IH]; intros acc; [reflexivity|].
  cbn [fold_left]. rewrite IH, includes_cons.
  rewrite <- (loop_lookup (String.eqb s x)). f_equal.
  unfold step, scoringStep, score.
  destruct (String.eqb_spec s x) as [->|Hne];
    destruct (scoreSkill rt qLower llm skillFiles x) as [z rs];
    cbn [scores fst]; rewrite own_assign_primitive.
  - now rewrite String.eqb_refl.
  - apply String.eqb_neq in Hne. now rewrite Hne.
Qed.

Lemma scoring_loop_breakdown (l : list string) (acc : selection) (s : string) :
  JsObject.own (breakdown (fold_left step l acc)) !! s
  = if Js.includes l s && negb (String.eqb s JsObject.proto_key)
    then Some (snd (scoreSkill rt qLower llm skillFiles s))
    else JsObject.own (breakdown acc) !! s.
Proof.
  revert acc. induction l as [|x l IH]; intros acc; [reflexivity|].
  cbn [fold_left]. rewrite IH, includes_cons.
  rewrite <- (loop_lookup (String.eqb s x)). f_equal.
  unfold step, scoringStep.
  destruct (String.eqb_spec s x) as [->|Hne];
    destruct (scoreSkill rt qLower llm skillFiles x) as [z rs];
    cbn [breakdown snd]; rewrite own_assign_object.
  - now rewrite String.eqb_refl.
  - apply String.eqb_neq in Hne. now rewrite Hne.
Qed.

Lemma scoring_loop_scores_proto (l : list string) (acc : selection) :
  JsObject.proto (scores (fold_left step l acc)) = JsObject.proto (scores acc).
Proof.
  revert acc. induction l as [|x l IH]; intros acc; [reflexivity|].
  cbn [fold_left]. rewrite IH. unfold step, scoringStep.
  destruct (scoreSkill rt qLower llm skillFiles x) as [z rs]. cbn [scores].
  apply proto_assign_primitive.
Qed.

Lemma scoring_loop_breakdown_proto (l : list string) (acc : selection) :
  JsObject.proto (breakdown (fold_left step l acc))
  = if Js.includes l JsObject.proto_key
    then Some (snd (scoreSkill rt qLower llm skillFiles JsObject.proto_key))
    else JsObject.proto (breakdown acc).
Proof.
  revert acc. induction l as [|x l IH]; intros acc; [reflexivity|].
  cbn [fold_left]. rewrite IH, includes_cons. unfold step, scoringStep.
  destruct (Js.includes l JsObject.proto_key); [now rewrite orb_true_r|].
  rewrite orb_false_r.
  destruct (String.eqb_spec JsObject.proto_key x) as [<-|Hne];
    destruct (scoreSkill rt qLower llm skillFiles _) as [z rs] eqn:E;
    cbn [breakdown snd]; rewrite proto_assign_object.
  - now rewrite String.eqb_refl.
  - apply String.eqb_neq in Hne. now rewrite Hne.
Qed.

End ScoringLoop.

(* ===================================================================== *)
(** * The score is the sum of the three signals *)
(* ===================================================================== *)

Lemma nameSignal_adds qLower s sr :
  fst (nameSignal qLower s sr) = fst sr + nameContribution qLower s.
Proof.
  unfold nameContribution, nameSignal.
  destruct (RegExp.wholeWordTest s qLower); simpl; lia.
Qed.

Lemma llmSignal_adds llm s sr :
  fst (llmSignal llm s sr) = fst sr + llmContribution llm s.
Proof.
  unfold llmContribution, llmSignal.
  destruct (llm_includes llm s); simpl; lia.
Qed.

Lemma keywordSignal_adds qLower desc sr :
  fst (keywordSignal qLower desc sr) = fst sr + keywordContribution qLower desc.
Proof.
  unfold keywordContribution, keywordSignal.
  destruct (0 <? length (matchedKeywords qLower desc))%nat; simpl; lia.
Qed.

Lemma descriptionSignal_adds rt qLower sf s sr :
  fst (descriptionSignal rt qLower sf s sr)
  = fst sr + descriptionContribution rt qLower sf s.
Proof.
  unfold descriptionContribution, descriptionSignal.
  destruct (JsMap.get s sf) as [p|]; [|simpl; lia].
  destruct (Js.truthy p); [|simpl; lia].
  destruct (readDescriptor rt p) as [buffer|]; [|simpl; lia].
  rewrite (keywordSignal_adds _ _ sr), (keywordSignal_adds _ _ (0, [])).
  simpl. lia.
Qed.

Lemma score_is_sum rt qLower llm sf s :
  fst (scoreSkill rt qLower llm sf s)
  = nameContribution qLower s + llmContribution llm s
    + descriptionContribution rt qLower sf s.
Proof.
  unfold scoreSkill.
  rewrite descriptionSignal_adds, llmSignal_adds, nameSignal_adds. simpl. lia.
Qed.

Lemma llmContribution_nil s : llmContribution [] s = 0.
Proof. reflexivity. Qed.

(* ===================================================================== *)
(** * The batched call and the two ways the Selector ends *)
(* ===================================================================== *)

(** The batched call returns a recommendation, leaving the log alone or
    adding one warning to it, or it throws out of its [catch] clause: that
    happens exactly when the call was made and rejected with [undefined] or
    [null]. *)
Lemma llmRecommendation_cases api rt query nonExempt st :
  (exists llm st',
     llmRecommendation api rt query nonExempt st = (Normal llm, st')
     /\ bootstrapFiles st' = bootstrapFiles st
     /\ (log st' = log st
         \/ exists e, e <> Nullish /\ log st' = log st ++ [LogWarn e])
     /\ (generateText api = None -> st' = st))
  \/ (llmRecommendation api rt query nonExempt st = (Throw TypeError, st)
      /\ nonExempt <> []
      /\ Spec.rejected_without_reason api
           (request (routerModel api) query nonExempt)).
Proof.
  unfold llmRecommendation, Spec.rejected_without_reason.
  destruct nonExempt as [|n ne]; [left; exists [], st; auto|].
  destruct (generateText api) as [gen|]; [|left; exists [], st; auto].
  unfold try_catch, bind, await_generateText, parse_json.
  destruct (gen _) as [r|e] eqn:Hgen; cbn.
  - left. destruct (jsonMatch (responseText r)) as [m|]; cbn.
    + destruct (JSON_parse rt m); cbn; eexists _, _;
        (split; [reflexivity|]); cbn; repeat split; auto; try discriminate.
      right. exists SyntaxError. split; [discriminate|reflexivity].
    + eexists _, _. split; [reflexivity|]. repeat split; auto; discriminate.
  - destruct e as [| |msg|]; cbn.
    4: { right. split; [reflexivity|]. split; [discriminate|].
         exists gen. auto. }
    all: left; eexists _, _; (split; [reflexivity|]); cbn;
      repeat split; auto; try discriminate;
      right; eexists; (split; [|reflexivity]); discriminate.
Qed.

Lemma nullish_rejection_throws api rt query nonExempt st :
  nonExempt <> [] ->
  Spec.rejected_without_reason api (request (routerModel api) query nonExempt) ->
  llmRecommendation api rt query nonExempt st = (Throw TypeError, st).
Proof.
  intros Hne (gen & Hgen & Hrej). unfold llmRecommendation.
  destruct nonExempt as [|n ne]; [congruence|]. rewrite Hgen.
  unfold try_catch, bind, await_generateText. rewrite Hrej. reflexivity.
Qed.

(** The Selector returns what the two loops leave for the recommendation
    of the batched call. *)
Lemma selectRelevantSkills_normal api rt query sf st res st' :
  selectRelevantSkills api rt query sf st = (Normal res, st') ->
  exists llm,
    llmRecommendation api rt query
      (nonExemptCandidates api (JsMap.keys sf)) st = (Normal llm, st')
    /\ bootstrapFiles st' = bootstrapFiles st
    /\ res
       = fold_left (scoringStep rt (Js.toLowerCase query) llm sf)
           (nonExemptCandidates api (JsMap.keys sf))
           (fold_left exemptionStep (exemptCandidates api (JsMap.keys sf))
              (mkSelection [] JsObject.empty JsObject.empty)).
Proof.
  unfold selectRelevantSkills, bind.
  destruct (llmRecommendation_cases api rt query
              (nonExemptCandidates api (JsMap.keys sf)) st)
    as [(llm & st1 & Hrun & Hst & _)|(Hrun & _)]; rewrite Hrun.
  - intros [= <- <-]. exists llm. auto.
  - discriminate.
Qed.

(** The only exception that leaves the Selector is the TypeError of its
    [catch] clause, thrown before anything was logged. *)
Lemma selectRelevantSkills_throws api rt query sf st e st1 :
  selectRelevantSkills api rt query sf st = (Throw e, st1) ->
  e = TypeError /\ st1 = st
  /\ nonExemptCandidates api (JsMap.keys sf) <> []
  /\ Spec.rejected_without_reason api
       (request (routerModel api) query
          (nonExemptCandidates api (JsMap.keys sf))).
Proof.
  unfold selectRelevantSkills, bind.
  destruct (llmRecommendation_cases api rt query
              (nonExemptCandidates api (JsMap.keys sf)) st)
    as [(llm & st2 & Hrun & _)|(Hrun & Hne & Hrej)]; rewrite Hrun.
  - discriminate.
  - intros [= <- <-]. auto.
Qed.

Lemma selectRelevantSkills_cases api rt query sf st :
  (exists res st', selectRelevantSkills api rt query sf st = (Normal res, st'))
  \/ selectRelevantSkills api rt query sf st = (Throw TypeError, st).
Proof.
  destruct (selectRelevantSkills api rt query sf st) as [[res|e] st1] eqn:E.
  - left. eauto.
  - right. apply selectRelevantSkills_throws in E as (-> & -> & _).
    reflexivity.
Qed.

(** What the two loops leave in the result, for a given recommendation. *)
Section SelectorResult.

Variable api : Api.
Variable rt : Runtime.
Variable query : string.
Variable llm : list json_value.
Variable sf : JsMap.t.

Let cands := JsMap.keys sf.
Let qLower := Js.toLowerCase query.
Let res :=
  fold_left (scoringStep rt qLower llm sf) (nonExemptCandidates api cands)
    (fold_left exemptionStep (exemptCandidates api cands)
       (mkSelection [] JsObject.empty JsObject.empty)).

Lemma result_selected (s : string) :
  In s (selected res)
  <-> In s cands
      /\ (isExempt s (configExemptions api) = true
          \/ 60 <= fst (scoreSkill rt qLower llm sf s)).
Proof.
  unfold res. rewrite scoring_loop_selected, exemption_loop_selected.
  cbn [selected app]. rewrite in_app_iff, filter_In.
  rewrite in_exemptCandidates, in_nonExemptCandidates, Z.leb_le.
  destruct (isExempt s (configExemptions api)); intuition congruence.
Qed.

Lemma result_exempt (s : string) :
  In s cands -> isExempt s (configExemptions api) = true ->
  JsObject.own (scores res) !! s
  = (if String.eqb s JsObject.proto_key then None else Some 999)
  /\ JsObject.own (breakdown res) !! s
     = (if String.eqb s JsObject.proto_key then None else Some ["Exemption"]).
Proof.
  intros Hin Hex. unfold res.
  rewrite scoring_loop_scores, scoring_loop_breakdown.
  assert (Hne : Js.includes (nonExemptCandidates api cands) s = false).
  { destruct (Js.includes _ s) eqn:E; [|reflexivity].
    apply includes_In, in_nonExemptCandidates in E as [_ E]. congruence. }
  rewrite Hne, exemption_loop_scores, exemption_loop_breakdown.
  assert (He : Js.includes (exemptCandidates api cands) s = true)
    by (apply includes_In, in_exemptCandidates; auto).
  rewrite He. cbn [andb scores breakdown JsObject.empty JsObject.own].
  rewrite !lookup_empty.
  destruct (String.eqb s JsObject.proto_key); auto.
Qed.

Lemma result_scored (s : string) :
  In s cands -> isExempt s (configExemptions api) = false ->
  JsObject.own (scores res) !! s
  = (if String.eqb s JsObject.proto_key then None
     else Some (fst (scoreSkill rt qLower llm sf s)))
  /\ JsObject.own (breakdown res) !! s
     = (if String.eqb s JsObject.proto_key then None
        else Some (snd (scoreSkill rt qLower llm sf s))).
Proof.
  intros Hin Hex. unfold res.
  rewrite scoring_loop_scores, scoring_loop_breakdown.
  assert (Hne : Js.includes (nonExemptCandidates api cands) s = true)
    by (apply includes_In, in_nonExemptCandidates; auto).
  rewrite Hne. cbn [andb].
  rewrite exemption_loop_scores, exemption_loop_breakdown.
  assert (He : Js.includes (exemptCandidates api cands) s = false).
  { destruct (Js.includes (exemptCandidates api cands) s) eqn:E; [|reflexivity].
    apply includes_In, in_exemptCandidates in E as [_ E]. congruence. }
  rewrite He. cbn [andb scores breakdown JsObject.empty JsObject.own].
  rewrite !lookup_empty.
  destruct (String.eqb s JsObject.proto_key); auto.
Qed.

Lemma result_not_candidate (s : string) :
  ~ In s cands ->
  JsObject.own (scores res) !! s = None
  /\ JsObject.own (breakdown res) !! s = None.
Proof.
  intros Hnot. unfold res.
  rewrite scoring_loop_scores, scoring_loop_breakdown,
    exemption_loop_scores, exemption_loop_breakdown.
  assert (Hn : Js.includes (nonExemptCandidates api cands) s = false).
  { destruct (Js.includes _ s) eqn:E; [|reflexivity].
    apply includes_In, in_nonExemptCandidates in E as [E _]. contradiction. }
  assert (He : Js.includes (exemptCandidates api cands) s = false).
  { destruct (Js.includes (exemptCandidates api cands) s) eqn:E; [|reflexivity].
    apply includes_In, in_exemptCandidates in E as [E _]. contradiction. }
  rewrite Hn, He. cbn. rewrite !lookup_empty. auto.
Qed.

(** The prototypes of the two tables: that of the scores is never
    replaced, that of the reasons is replaced by the reasons of the
    candidate [__proto__] when there is one. *)
Lemma result_proto :
  JsObject.proto (scores res) = None
  /\ JsObject.proto (breakdown res)
     = if Js.includes cands JsObject.proto_key
       then Some (if isExempt JsObject.proto_key (configExemptions api)
                  then ["Exemption"]
                  else snd (scoreSkill rt qLower llm sf JsObject.proto_key))
       else None.
Proof.
  unfold res.
  rewrite scoring_loop_scores_proto, exemption_loop_scores_proto,
    scoring_loop_breakdown_proto, exemption_loop_breakdown_proto.
  split; [reflexivity|]. cbn [breakdown JsObject.empty JsObject.proto].
  destruct (Js.includes cands JsObject.proto_key) eqn:C.
  - apply includes_In in C.
    destruct (isExempt JsObject.proto_key (configExemptions api)) eqn:E.
    + assert (Hn : Js.includes (nonExemptCandidates api cands)
                     JsObject.proto_key = false).
      { destruct (Js.includes (nonExemptCandidates api cands)
                    JsObject.proto_key) eqn:N; [|reflexivity].
        apply includes_In, in_nonExemptCandidates in N as [_ N]. congruence. }
      assert (He : Js.includes (exemptCandidates api cands)
                     JsObject.proto_key = true)
        by (apply includes_In, in_exemptCandidates; auto).
      now rewrite Hn, He.
    + assert (Hn : Js.includes (nonExemptCandidates api cands)
                     JsObject.proto_key = true)
        by (apply includes_In, in_nonExemptCandidates; auto).
      now rewrite Hn.
  - assert (Hn : Js.includes (nonExemptCandidates api cands)
                   JsObject.proto_key = false).
    { destruct (Js.includes (nonExemptCandidates api cands)
                  JsObject.proto_key) eqn:N; [|reflexivity].
      apply includes_In, in_nonExemptCandidates in N as [N _].
      apply includes_In in N. congruence. }
    assert (He : Js.includes (exemptCandidates api cands)
                   JsObject.proto_key = false).
    { destruct (Js.includes (exemptCandidates api cands) JsObject.proto_key)
        eqn:N; [|reflexivity].
      apply includes_In, in_exemptCandidates in N as [N _].
      apply includes_In in N. congruence. }
    now rewrite Hn, He.
Qed.

End SelectorResult.

(* ===================================================================== *)
(** * Properties of the signals *)
(* ===================================================================== *)

(** C4.  The name signal adds 60 points exactly when the candidate name
    occurs in the lower-cased query as a whole word, ignoring case, and
    nothing otherwise; the query "use the pdf tool" matches the candidate
    "pdf", the query "use the pdfgen tool" does not. *)
Theorem name_match_is_whole_word (skillName query : string) :
  let qLower := Js.toLowerCase query in
  (nameContribution qLower skillName = 60
   <-> Spec.occurs_as_whole_word skillName qLower)
  /\ (nameContribution qLower skillName = 0
      <-> ~ Spec.occurs_as_whole_word skillName qLower)
  /\ nameContribution (Js.toLowerCase "use the pdf tool") "pdf" = 60
  /\ nameContribution (Js.toLowerCase "use the pdfgen tool") "pdf" = 0.
Proof.
  intros qLower. rewrite <- wholeWordTest_spec.
  unfold nameContribution, nameSignal.
  destruct (RegExp.wholeWordTest skillName qLower); cbn [fst];
    repeat split; try reflexivity; try discriminate; try congruence;
    intros H; try lia; try (now destruct H).
Qed.

Lemma filter_filter_andb {A} (f g : A -> bool) (l : list A) :
  List.filter g (List.filter f l) = List.filter (fun x => f x && g x) l.
Proof.
  induction l as [|x l IH]; [reflexivity|]. cbn [List.filter].
  destruct (f x); cbn [List.filter andb]; [|exact IH].
  destruct (g x); now rewrite IH.
Qed.

(** The description signal of a candidate is the keyword signal on the
    description of its descriptor, and nothing when the candidate has no
    descriptor path or the descriptor cannot be read. *)
Lemma descriptionContribution_cases (rt : Runtime) (qLower : string)
    (sf : JsMap.t) (s : string) :
  descriptionContribution rt qLower sf s
  = match JsMap.get s sf with
    | Some p =>
        if Js.truthy p then
          match readDescriptor rt p with
          | Some buffer => keywordContribution qLower (descriptionOfBuffer buffer)
          | None => 0
          end
        else 0
    | None => 0
    end.
Proof.
  unfold descriptionContribution, descriptionSignal, keywordContribution.
  destruct (JsMap.get s sf) as [p|]; [|reflexivity].
  destruct (Js.truthy p); [|reflexivity].
  destruct (readDescriptor rt p); reflexivity.
Qed.

(** C5.  The description signal adds min(30, 10 x n) points, where n counts
    the pieces of the lower-cased query, split at white space, that are
    longer than two code units and occur in the lower-cased description as
    a whole word, ignoring case.  This is what a candidate's score receives
    when its descriptor is read and carries that description, and five
    matching keywords add 30. *)
Theorem description_density_is_capped (query description : string) :
  let qLower := Js.toLowerCase query in
  let desc := Js.toLowerCase description in
  exists keep : string -> bool,
    (forall k, keep k = true
               <-> (2 < String.length k)%nat
                   /\ Spec.occurs_as_whole_word k desc)
    /\ keywordContribution qLower desc
       = Z.min 30
           (10 * Z.of_nat (length (List.filter keep (Js.split_whitespace qLower))))
    /\ (forall rt sf s p buffer,
          JsMap.get s sf = Some p -> Js.truthy p = true ->
          readDescriptor rt p = Some buffer ->
          meta_description (parseSkillMetadata buffer) = description ->
          descriptionContribution rt qLower sf s
          = keywordContribution qLower desc)
    /\ keywordContribution "alpha beta gamma delta omega"
         "omega delta gamma beta alpha" = 30.
Proof.
  intros qLower desc.
  exists (fun k => (2 <? String.length k)%nat && RegExp.wholeWordTest k desc).
  split; [|split; [|split]].
  - intros k. now rewrite andb_true_iff, Nat.ltb_lt, wholeWordTest_spec.
  - unfold keywordContribution, keywordSignal, matchedKeywords, keywords.
    rewrite filter_filter_andb.
    destruct (length _) as [|n] eqn:E; cbn [Nat.ltb Nat.leb fst]; lia.
  - intros rt sf s p buffer Hget Hp Hread Hdesc.
    rewrite descriptionContribution_cases, Hget, Hp, Hread.
    unfold descriptionOfBuffer. now rewrite Hdesc.
  - vm_compute. reflexivity.
Qed.

(* ===================================================================== *)
(** * Properties of the Selector *)
(* ===================================================================== *)

(** C3.  A candidate that no exemption pattern matches is selected exactly
    when its total score, the sum of the three signals, is at least 60: a
    total of 59 leaves it out, a total of 60 takes it in.  The total is the
    score the Selector records for the candidate, under every name that the
    score object stores. *)
Theorem threshold_is_sixty (api : Api) (rt : Runtime) (query : string)
    (sf : JsMap.t) (st : state) (s : string) (res : selection) (st' : state) :
  In s (JsMap.keys sf) ->
  ~ Spec.exempted s (configExemptions api) ->
  selectRelevantSkills api rt query sf st = (Normal res, st') ->
  exists llm,
    llmRecommendation api rt query
      (nonExemptCandidates api (JsMap.keys sf)) st = (Normal llm, st')
    /\ let total :=
         nameContribution (Js.toLowerCase query) s + llmContribution llm s
         + descriptionContribution rt (Js.toLowerCase query) sf s in
       JsObject.own (scores res) !! s
       = (if String.eqb s "__proto__" then None else Some total)
       /\ (In s (selected res) <-> 60 <= total)
       /\ (total = 59 -> ~ In s (selected res))
       /\ (total = 60 -> In s (selected res)).
Proof.
  intros Hin Hnot Hrun.
  assert (Hex : isExempt s (configExemptions api) = false).
  { destruct (isExempt s (configExemptions api)) eqn:E; [|reflexivity].
    now apply isExempt_spec in E. }
  destruct (selectRelevantSkills_normal _ _ _ _ _ _ _ Hrun)
    as (llm & Hllm & _ & ->).
  exists llm. split; [exact Hllm|].
  cbv zeta. rewrite <- score_is_sum.
  pose proof (result_selected api rt query llm sf s) as Hsel.
  pose proof (result_scored api rt query llm sf s Hin Hex) as [Hsc _].
  rewrite Hex in Hsel.
  split; [exact Hsc|]. split; [split|split].
  - intros H. apply Hsel in H as [_ [H|H]]; [discriminate|exact H].
  - intros H. apply Hsel. auto.
  - intros H59 H. apply Hsel in H as [_ [H|H]]; [discriminate|lia].
  - intros H60. apply Hsel. split; [exact Hin|right; lia].
Qed.

(** An exempt candidate is selected whatever the query, the descriptors
    and the reply are, and the tables hold the score 999 and the reason
    "Exemption" for it under every name but [__proto__]. *)
Lemma exempt_candidate_result (api : Api) (rt : Runtime) (query : string)
    (sf : JsMap.t) (st : state) (s : string) (res : selection) (st' : state) :
  In s (JsMap.keys sf) ->
  isExempt s (configExemptions api) = true ->
  selectRelevantSkills api rt query sf st = (Normal res, st') ->
  In s (selected res)
  /\ JsObject.own (scores res) !! s
     = (if String.eqb s "__proto__" then None else Some 999)
  /\ JsObject.own (breakdown res) !! s
     = (if String.eqb s "__proto__" then None else Some ["Exemption"]).
Proof.
  intros Hin Hex Hrun.
  destruct (selectRelevantSkills_normal _ _ _ _ _ _ _ Hrun)
    as (llm & _ & _ & ->).
  split; [apply result_selected; auto|].
  exact (result_exempt api rt query llm sf s Hin Hex).
Qed.

(** C6.  With every candidate exempt, the candidate [__proto__] of the
    record [/ws/skills/__proto__/SKILL.md] is selected, but the score object
    the Selector returns has no entry for it: the assignment of 999 under
    that name stores nothing, and the assignment of the reasons makes them
    the prototype of the reason object.  The candidate "pdf" beside it has
    the score 999 and the reason "Exemption". *)
Theorem exempt_proto_candidate_has_no_sentinel :
  let files := [FileObject "/ws/skills/__proto__/SKILL.md" None;
                FileObject "/ws/skills/pdf/SKILL.md" None] in
  let sf := fst (partition files) in
  JsMap.keys sf = ["__proto__"; "pdf"]
  /\ config_exemptions Sample.api_exempting = Some ["*"]
  /\ Spec.exempted "__proto__" ["*"]
  /\ exists res,
       selectRelevantSkills Sample.api_exempting Sample.rt "hello" sf
         (mkState files []) = (Normal res, mkState files [])
       /\ selected res = ["__proto__"; "pdf"]
       /\ JsObject.own (scores res) !! "__proto__" = None
       /\ JsObject.own (breakdown res) !! "__proto__" = None
       /\ JsObject.proto (breakdown res) = Some ["Exemption"]
       /\ JsObject.own (scores res) !! "pdf" = Some 999
       /\ JsObject.own (breakdown res) !! "pdf" = Some ["Exemption"].
Proof.
  cbv zeta. split; [reflexivity|]. split; [reflexivity|]. split.
  - apply isExempt_spec. reflexivity.
  - eexists. split; [vm_compute; reflexivity|].
    repeat split; vm_compute; reflexivity.
Qed.

(** C7.  Every name the Selector returns as selected is one of the
    candidate names it was given, whatever the collaborator replies: a
    name that is not a candidate is never selected. *)
Theorem selected_are_candidates (api : Api) (rt : Runtime) (query : string)
    (sf : JsMap.t) (st : state) (res : selection) (st' : state) :
  selectRelevantSkills api rt query sf st = (Normal res, st') ->
  (forall n, In n (selected res) -> In n (JsMap.keys sf))
  /\ (forall n, ~ In n (JsMap.keys sf) -> ~ In n (selected res)).
Proof.
  intros Hrun.
  destruct (selectRelevantSkills_normal _ _ _ _ _ _ _ Hrun)
    as (llm & _ & _ & ->).
  assert (H : forall n,
             In n (selected
                     (fold_left
                        (scoringStep rt (Js.toLowerCase query) llm sf)
                        (nonExemptCandidates api (JsMap.keys sf))
                        (fold_left exemptionStep
                           (exemptCandidates api (JsMap.keys sf))
                           (mkSelection [] JsObject.empty JsObject.empty)))) ->
             In n (JsMap.keys sf)).
  { intros n H. now apply result_selected in H as [H _]. }
  split; [exact H|]. intros n Hn Hsel. exact (Hn (H n Hsel)).
Qed.

(* ===================================================================== *)
(** * Losing the semantic signal *)
(* ===================================================================== *)

Lemma of_chars_app (a b : list ascii) :
  Js.of_chars (a ++ b) = (Js.of_chars a ++ Js.of_chars b)%string.
Proof.
  unfold Js.of_chars. induction a as [|c a IH]; [reflexivity|].
  cbn [app string_of_list_ascii]. now rewrite IH.
Qed.

Lemma dropWhile_suffix (f : ascii -> bool) (l : list ascii) :
  exists pre, l = pre ++ Js.dropWhile f l.
Proof.
  induction l as [|c l (pre & IH)]; [exists []; reflexivity|].
  cbn [Js.dropWhile]. destruct (f c).
  - exists (c :: pre). cbn [app]. now rewrite <- IH.
  - exists []. reflexivity.
Qed.

(** The bracketed text handed to [JSON.parse] is a piece of the reply. *)
Lemma jsonMatch_contained (text m : string) :
  jsonMatch text = Some m -> Spec.contains_text text m.
Proof.
  unfold jsonMatch, Spec.contains_text.
  set (nb := fun c : ascii => negb (Ascii.eqb c "[")).
  set (nc := fun c : ascii => negb (Ascii.eqb c "]")).
  destruct (dropWhile_suffix nb (Js.chars text)) as (pre & Hpre).
  destruct (Js.dropWhile nb (Js.chars text)) as [|open after]; [discriminate|].
  destruct (dropWhile_suffix nc (rev after)) as (x & Hx).
  destruct (Js.dropWhile nc (rev after)) as [|i inner]; [discriminate|].
  intros [= <-].
  exists (Js.of_chars pre), (Js.of_chars (rev x)).
  change (String open (Js.of_chars (rev inner ++ [i])))
    with (Js.of_chars (open :: rev (i :: inner))).
  rewrite <- !of_chars_app, <- (of_chars_chars text) at 1. rewrite Hpre.
  f_equal. cbn [app]. do 2 f_equal.
  rewrite <- (rev_involutive after), Hx, rev_app_distr. reflexivity.
Qed.

Lemma semantic_failure_empty (api : Api) (rt : Runtime) (query : string)
    (nonExempt : list string) (st : state) :
  Spec.semantic_failure api rt (request (routerModel api) query nonExempt) ->
  ~ Spec.rejected_without_reason api
      (request (routerModel api) query nonExempt) ->
  exists st',
    llmRecommendation api rt query nonExempt st = (Normal [], st')
    /\ bootstrapFiles st' = bootstrapFiles st.
Proof.
  intros Hfail Hreason. unfold llmRecommendation.
  destruct nonExempt as [|n ne]; [exists st; auto|].
  destruct Hfail as [Habs|gen e Hgen Hrej|gen r Hgen Hres Hno].
  - rewrite Habs. exists st. auto.
  - rewrite Hgen. unfold try_catch, bind, await_generateText.
    rewrite Hrej. destruct e; cbn; eauto.
    destruct Hreason. exists gen. auto.
  - rewrite Hgen. unfold try_catch, bind, await_generateText, parse_json.
    rewrite Hres. cbn.
    destruct (jsonMatch (responseText r)) as [m|] eqn:Hm; cbn; [|eauto].
    rewrite (Hno m (jsonMatch_contained _ _ Hm)). cbn. eauto.
Qed.

(** C9.  A call of the collaborator that is rejected without a reason is a
    call that raises, but the recommendation is not the empty one and the
    selection does not complete: the [catch] clause of the batched call
    throws a TypeError while it reads the message, nothing is logged as a
    warning, the Selector ends with that TypeError, and the hook leaves the
    list as it was.  With a rejection that carries a message the Selector
    returns and "pdf", named in the query, is selected. *)
Theorem nullish_rejection_aborts_selection :
  let query := "use the pdf tool" in
  let nonExempt :=
    nonExemptCandidates Sample.api_rejecting (JsMap.keys Sample.skillFiles) in
  Spec.semantic_failure Sample.api_rejecting Sample.rt
    (request (routerModel Sample.api_rejecting) query nonExempt)
  /\ llmRecommendation Sample.api_rejecting Sample.rt query nonExempt Sample.st
     = (Throw TypeError, Sample.st)
  /\ selectRelevantSkills Sample.api_rejecting Sample.rt query
       Sample.skillFiles Sample.st
     = (Throw TypeError, Sample.st)
  /\ hook Sample.api_rejecting Sample.rt (Sample.asks query) Sample.st
     = (Normal tt, mkState Sample.files [LogError TypeError])
  /\ exists res,
       selectRelevantSkills Sample.api_failing Sample.rt query
         Sample.skillFiles Sample.st
       = (Normal res,
          mkState Sample.files [LogWarn (CollaboratorError "timeout")])
       /\ selected res = ["zesty-x"; "pdf"].
Proof.
  cbv zeta. split; [|split; [|split; [|split]]].
  - eapply Spec.collaborator_raises; reflexivity.
  - vm_compute. reflexivity.
  - vm_compute. reflexivity.
  - vm_compute. reflexivity.
  - eexists. split; vm_compute; reflexivity.
Qed.

(* ===================================================================== *)
(** * The query of an event *)
(* ===================================================================== *)

Lemma find_app {A} (f : A -> bool) (a b : list A) :
  List.find f (a ++ b)
  = match List.find f a with
    | Some x => Some x
    | None => List.find f b
    end.
Proof.
  induction a as [|x a IH]; [reflexivity|]. cbn [app List.find].
  destruct (f x); [reflexivity|exact IH].
Qed.

Lemma find_all_false {A} (f : A -> bool) (l : list A) :
  (forall x, In x l -> f x = false) -> List.find f l = None.
Proof.
  induction l as [|x l IH]; intros H; [reflexivity|]. cbn [List.find].
  rewrite (H x (or_introl eq_refl)). apply IH. intros y Hy. apply H. now right.
Qed.

Lemma no_user_turn_find (h : list message) :
  Spec.no_user_turn h ->
  List.find (fun m => String.eqb (role m) "user") (rev h) = None.
Proof.
  intros H. apply find_all_false. intros m Hm%in_rev.
  apply String.eqb_neq. now apply H.
Qed.

Lemma lastUserMsg_none (ev : event) :
  Spec.no_user_turn (history ev) -> lastUserMsg ev = None.
Proof. apply no_user_turn_find. Qed.

Lemma lastUserMsg_last (ev : event) (m : message) :
  Spec.last_user_turn (history ev) m -> lastUserMsg ev = Some m.
Proof.
  intros (before & after & Hh & Hrole & Hno). unfold lastUserMsg.
  rewrite Hh, rev_app_distr. cbn [rev]. rewrite <- app_assoc, find_app.
  rewrite (no_user_turn_find after Hno). cbn [app List.find].
  now rewrite Hrole.
Qed.

(** C8.  When the conversation holds no turn of the user, or the most
    recent one has an empty content, the hook returns at once: the record
    list and the log are what they were. *)
Theorem no_query_no_change (api : Api) (rt : Runtime) (ev : event)
    (st : state) :
  Spec.no_user_turn (history ev)
  \/ (exists m, Spec.last_user_turn (history ev) m /\ content m = "") ->
  hook api rt ev st = (Normal tt, st).
Proof.
  intros H.
  assert (Hq : query_of ev = "").
  { unfold query_of. destruct H as [H|(m & H & Hc)].
    - now rewrite (lastUserMsg_none ev H).
    - now rewrite (lastUserMsg_last ev m H). }
  unfold hook, try_catch, hook_body. rewrite Hq. reflexivity.
Qed.

(* ===================================================================== *)
(** * Lists whose records carry their paths, and the others *)
(* ===================================================================== *)

Lemma path_or_empty_record_path (file : record) :
  path_or_empty file = Spec.record_path file.
Proof. destruct file as [p|[|c p] o]; reflexivity. Qed.

Lemma partition_non_skill (files : list record) (m : JsMap.t)
    (ns : list record) :
  snd (fold_left partitionStep files (m, ns))
  = ns ++ List.filter Spec.is_non_skill files.
Proof.
  revert m ns. induction files as [|f files IH]; intros m ns.
  - cbn. now rewrite app_nil_r.
  - cbn [fold_left List.filter]. unfold partitionStep at 2.
    unfold Spec.is_non_skill, Spec.candidate_of.
    rewrite path_or_empty_record_path.
    destruct (SkillPath.skillName (Spec.record_path f)) as [n|].
    + destruct (Js.endsWith (Spec.record_path f) "SKILL.md"); apply IH.
    + rewrite IH, <- app_assoc. reflexivity.
Qed.

Lemma path_match_has_path (file : record) (st : state) :
  Spec.has_path file ->
  path_match file st = (Normal (Spec.candidate_of file), st).
Proof.
  destruct file as [p|p o]; cbn; [reflexivity|].
  destruct p; [congruence|reflexivity].
Qed.

Lemma forM_path_match_has_path (files : list record) (st : state) :
  Forall Spec.has_path files ->
  forM path_match files st = (Normal (map Spec.candidate_of files), st).
Proof.
  induction 1 as [|f files Hf _ IH]; [reflexivity|].
  cbn [forM map]. unfold bind.
  now rewrite (path_match_has_path f st Hf), IH.
Qed.

Lemma foldM_keepStep_has_path (sel : list string) (files kept : list record)
    (st : state) :
  Forall Spec.has_path files ->
  foldM (keepStep sel) files kept st
  = (Normal (kept ++ List.filter (Spec.is_selected_skill sel) files), st).
Proof.
  intros H. revert kept. induction H as [|f files Hf _ IH]; intros kept.
  - cbn. now rewrite app_nil_r.
  - cbn [foldM List.filter]. unfold bind, keepStep at 1.
    unfold bind. rewrite (path_match_has_path f st Hf).
    unfold Spec.is_selected_skill at 1.
    destruct (Spec.candidate_of f) as [n|]; [|apply IH].
    destruct (Js.includes sel n); cbn; rewrite IH; [|reflexivity].
    now rewrite <- app_assoc.
Qed.

Lemma forM_path_match_throws (files : list record) (st : state) :
  ~ Forall Spec.has_path files ->
  forM path_match files st = (Throw TypeError, st).
Proof.
  induction files as [|f files IH]; intros Hnot.
  - destruct Hnot. constructor.
  - destruct f as [p|[|a p] c].
    + cbn [forM]. unfold bind. cbn.
      rewrite IH; [reflexivity|].
      intros H. apply Hnot. constructor; [exact I|exact H].
    + reflexivity.
    + cbn [forM]. unfold bind. cbn.
      rewrite IH; [reflexivity|].
      intros H. apply Hnot. constructor; [discriminate|exact H].
Qed.

Lemma has_path_dec (files : list record) :
  Forall Spec.has_path files \/ ~ Forall Spec.has_path files.
Proof.
  induction files as [|f files [IH|IH]].
  - left. constructor.
  - destruct f as [p|[|a p] c].
    + left. constructor; [exact I|exact IH].
    + right. intros H. inversion H as [|? ? Hf _]. now apply Hf.
    + left. constructor; [discriminate|exact IH].
  - right. intros H. inversion H. contradiction.
Qed.

(* ===================================================================== *)
(** * The four ways the [try] block of the hook ends *)
(* ===================================================================== *)

Lemma hook_body_cases (api : Api) (rt : Runtime) (ev : event) (st : state) :
  let sf := fst (partition (bootstrapFiles st)) in
  (Js.truthy (query_of ev) = false
   /\ hook_body api rt ev st = (Normal tt, st))
  \/ (Js.truthy (query_of ev) = true
      /\ ~ Forall Spec.has_path (bootstrapFiles st)
      /\ hook_body api rt ev st = (Throw TypeError, st))
  \/ (Js.truthy (query_of ev) = true
      /\ Forall Spec.has_path (bootstrapFiles st)
      /\ selectRelevantSkills api rt (query_of ev) sf st = (Throw TypeError, st)
      /\ hook_body api rt ev st = (Throw TypeError, st))
  \/ (Js.truthy (query_of ev) = true
      /\ Forall Spec.has_path (bootstrapFiles st)
      /\ exists res st',
           selectRelevantSkills api rt (query_of ev) sf st = (Normal res, st')
           /\ hook_body api rt ev st
              = (Normal tt,
                 mkState (Spec.rewritten (bootstrapFiles st) (selected res))
                   (log st'))).
Proof.
  cbv zeta. destruct (Js.truthy (query_of ev)) eqn:Hq.
  2: { left. split; [reflexivity|]. unfold hook_body. rewrite Hq. reflexivity. }
  right. destruct (has_path_dec (bootstrapFiles st)) as [Hfiles|Hnot].
  - right.
    assert (Hns : snd (partition (bootstrapFiles st))
                  = List.filter Spec.is_non_skill (bootstrapFiles st))
      by apply (partition_non_skill _ [] []).
    assert (Hbody : hook_body api rt ev st
                    = bind (selectRelevantSkills api rt (query_of ev)
                              (fst (partition (bootstrapFiles st))))
                        (fun sel =>
                           let* files := read_bootstrapFiles in
                           let* keptFiles :=
                             foldM (keepStep (selected sel)) files
                               (snd (partition (bootstrapFiles st))) in
                           truncate_bootstrapFiles ;;;
                           push_bootstrapFiles keptFiles ;;;
                           match selected sel with
                           | _ :: _ => push_bootstrapFiles [report (selected sel)]
                           | [] => ret tt
                           end) st).
    { unfold hook_body. rewrite Hq. cbn [negb].
      unfold bind at 1, read_bootstrapFiles at 1. cbn iota.
      destruct (partition (bootstrapFiles st)) as [skillPaths nonSkillFiles].
      unfold bind at 1, read_bootstrapFiles at 1. cbn iota.
      unfold bind at 1, allSkillNames, bind at 1.
      rewrite (forM_path_match_has_path _ st Hfiles). reflexivity. }
    destruct (selectRelevantSkills_cases api rt (query_of ev)
                (fst (partition (bootstrapFiles st))) st)
      as [(res & st' & Hrun)|Hrun].
    + right. split; [reflexivity|]. split; [exact Hfiles|].
      exists res, st'. split; [exact Hrun|].
      destruct (selectRelevantSkills_normal _ _ _ _ _ _ _ Hrun)
        as (_ & _ & Hst' & _).
      rewrite Hbody. unfold bind at 1. rewrite Hrun.
      unfold bind at 1, read_bootstrapFiles at 1. cbn iota.
      unfold bind at 1. rewrite Hst', Hns.
      rewrite (foldM_keepStep_has_path _ _ _ st' Hfiles).
      unfold bind, truncate_bootstrapFiles, push_bootstrapFiles, Spec.rewritten.
      cbn. destruct (selected res); cbn; rewrite ?app_nil_r, <- ?app_assoc;
        reflexivity.
    + left. split; [reflexivity|]. split; [exact Hfiles|].
      split; [exact Hrun|]. rewrite Hbody. unfold bind at 1. now rewrite Hrun.
  - left. split; [reflexivity|]. split; [exact Hnot|].
    unfold hook_body. rewrite Hq. cbn [negb].
    unfold bind at 1, read_bootstrapFiles at 1. cbn iota.
    destruct (partition (bootstrapFiles st)) as [skillPaths nonSkillFiles].
    unfold bind at 1, read_bootstrapFiles at 1. cbn iota.
    unfold bind at 1, allSkillNames, bind at 1.
    rewrite (forM_path_match_throws _ st Hnot). reflexivity.
Qed.

(** What is thrown inside the [try] block is a TypeError, thrown before
    the list or the log was written. *)
Lemma hook_body_throws (api : Api) (rt : Runtime) (ev : event)
    (st : state) (e : error) (st1 : state) :
  hook_body api rt ev st = (Throw e, st1) -> e = TypeError /\ st1 = st.
Proof.
  intros H.
  destruct (hook_body_cases api rt ev st)
    as [[_ Hb]|[(_ & _ & Hb)|[(_ & _ & _ & Hb)|(_ & _ & res & st' & _ & Hb)]]];
    rewrite Hb in H; try discriminate; injection H as <- <-; auto.
Qed.

Lemma hook_outcome_cases (api : Api) (rt : Runtime) (ev : event) (st : state) :
  let sf := fst (partition (bootstrapFiles st)) in
  (Js.truthy (query_of ev) = false /\ hook api rt ev st = (Normal tt, st))
  \/ (Js.truthy (query_of ev) = true
      /\ ~ Forall Spec.has_path (bootstrapFiles st)
      /\ hook api rt ev st
         = (Normal tt,
            mkState (bootstrapFiles st) (log st ++ [LogError TypeError])))
  \/ (Js.truthy (query_of ev) = true
      /\ Forall Spec.has_path (bootstrapFiles st)
      /\ selectRelevantSkills api rt (query_of ev) sf st = (Throw TypeError, st)
      /\ hook api rt ev st
         = (Normal tt,
            mkState (bootstrapFiles st) (log st ++ [LogError TypeError])))
  \/ (Js.truthy (query_of ev) = true
      /\ Forall Spec.has_path (bootstrapFiles st)
      /\ exists res st',
           selectRelevantSkills api rt (query_of ev) sf st = (Normal res, st')
           /\ hook api rt ev st
              = (Normal tt,
                 mkState (Spec.rewritten (bootstrapFiles st) (selected res))
                   (log st'))).
Proof.
  cbv zeta. unfold hook, try_catch.
  destruct (hook_body_cases api rt ev st)
    as [[Hq Hb]|[(Hq & Hp & Hb)|[(Hq & Hp & Hs & Hb)|(Hq & Hp & res & st' & Hs & Hb)]]];
    rewrite Hb.
  - left. auto.
  - right. left. auto.
  - right. right. left. auto.
  - right. right. right. split; [exact Hq|]. split; [exact Hp|]. eauto.
Qed.

Lemma hook_never_throws (api : Api) (rt : Runtime) (ev : event) (st : state) :
  exists st', hook api rt ev st = (Normal tt, st').
Proof.
  destruct (hook_outcome_cases api rt ev st)
    as [[_ H]|[(_ & _ & H)|[(_ & _ & _ & H)|(_ & _ & res & st' & _ & H)]]];
    eauto.
Qed.

(** C10.  When something throws inside the [try] block of the hook, be it
    the read of a record's path or the Selector, the record list is at that
    point what it was before the call, the [catch] clause completes
    normally, and the list the caller sees afterwards is the one it passed
    in. *)
Theorem exceptions_are_contained (api : Api) (rt : Runtime) (ev : event)
    (st : state) (e : error) (st1 : state) :
  hook_body api rt ev st = (Throw e, st1) ->
  bootstrapFiles st1 = bootstrapFiles st
  /\ hook api rt ev st
     = (Normal tt, mkState (bootstrapFiles st) (log st1 ++ [LogError e])).
Proof.
  intros Hbody.
  destruct (hook_body_throws api rt ev st e st1 Hbody) as [-> ->].
  split; [reflexivity|].
  unfold hook, try_catch. rewrite Hbody. reflexivity.
Qed.

(** What the hook does to a list in which every object record has a
    non-empty path, when the Selector returns: non-skill records, then the
    records of the selected candidates, then the report when the selection
    is not empty. *)
Lemma hook_rewrites_lists_with_paths (api : Api) (rt : Runtime) (ev : event)
    (st : state) (res : selection) (st' : state) :
  Js.truthy (query_of ev) = true ->
  Forall Spec.has_path (bootstrapFiles st) ->
  selectRelevantSkills api rt (query_of ev)
    (fst (partition (bootstrapFiles st))) st = (Normal res, st') ->
  hook api rt ev st
  = (Normal tt,
     mkState (Spec.rewritten (bootstrapFiles st) (selected res)) (log st')).
Proof.
  intros Hq Hfiles Hrun.
  destruct (hook_outcome_cases api rt ev st)
    as [[Hq' _]|[(_ & Hnot & _)|[(_ & _ & Hs & _)|(_ & _ & res' & st'' & Hs & H)]]];
    congruence.
Qed.

(* ===================================================================== *)
(** * The candidates handed to the Selector *)
(* ===================================================================== *)

Lemma in_keys_set (k v n : string) (m : JsMap.t) :
  In n (JsMap.keys (JsMap.set k v m)) <-> n = k \/ In n (JsMap.keys m).
Proof.
  unfold JsMap.keys. induction m as [|[k' v'] m IH]; cbn.
  - intuition.
  - destruct (String.eqb_spec k' k) as [->|Hne]; cbn; [intuition|].
    rewrite IH. intuition.
Qed.

(** The names in the map given to the Selector are those of the records
    that match the skills pattern and end in [SKILL.md]. *)
Lemma candidates_have_descriptors (files : list record) (n : string) :
  In n (JsMap.keys (fst (partition files)))
  <-> exists file,
        In file files /\ Spec.candidate_of file = Some n
        /\ Js.endsWith (Spec.record_path file) "SKILL.md" = true.
Proof.
  unfold partition.
  assert (H : forall m ns,
             In n (JsMap.keys (fst (fold_left partitionStep files (m, ns))))
             <-> In n (JsMap.keys m)
                 \/ exists file,
                      In file files /\ Spec.candidate_of file = Some n
                      /\ Js.endsWith (Spec.record_path file) "SKILL.md" = true).
  { induction files as [|f files IH]; intros m ns.
    - cbn. split; [auto|]. intros [H|(file & [] & _)]. exact H.
    - cbn [fold_left]. unfold partitionStep at 2.
      rewrite path_or_empty_record_path.
      fold (Spec.candidate_of f).
      destruct (Spec.candidate_of f) as [k|] eqn:Hk.
      + destruct (Js.endsWith (Spec.record_path f) "SKILL.md") eqn:He.
        * rewrite IH, in_keys_set. split.
          -- intros [[->|H]|(file & Hin & Hc & Hd)]; [right|left|right]; auto.
             ++ exists f. cbn. auto.
             ++ exists file. cbn. auto.
          -- intros [H|(file & [<-|Hin] & Hc & Hd)]; [auto| |right; eauto].
             left. left. congruence.
        * rewrite IH. split.
          -- intros [H|(file & Hin & Hc & Hd)]; [auto|right].
             exists file. cbn. auto.
          -- intros [H|(file & [<-|Hin] & Hc & Hd)]; [auto|congruence|right; eauto].
      + rewrite IH. split.
        * intros [H|(file & Hin & Hc & Hd)]; [auto|right].
          exists file. cbn. auto.
        * intros [H|(file & [<-|Hin] & Hc & Hd)]; [auto|congruence|right; eauto]. }
  rewrite H. cbn. intuition.
Qed.

(** C1.  A candidate whose records are in the list without its SKILL.md is
    found by the pattern, and is in the list of all skill names the hook
    computes, but not among the names handed to the Selector: the query
    names it and still its record is dropped. *)
Theorem candidate_without_descriptor_is_lost :
  let files := [FileObject "/ws/AGENTS.md" None;
                FileObject "/ws/skills/pdf/run.py" None] in
  let st := mkState files [] in
  Spec.is_candidate_name files "pdf"
  /\ allSkillNames files st = (Normal ["pdf"], st)
  /\ JsMap.keys (fst (partition files)) = []
  /\ hook Sample.api_plain Sample.rt (Sample.asks "use the pdf tool") st
     = (Normal tt, mkState [FileObject "/ws/AGENTS.md" None] []).
Proof.
  cbv zeta. split; [|split; [|split]].
  - exists (FileObject "/ws/skills/pdf/run.py" None). split; [cbn; auto|].
    vm_compute. reflexivity.
  - vm_compute. reflexivity.
  - vm_compute. reflexivity.
  - vm_compute. reflexivity.
Qed.

(** C2.  An object record with an empty path makes the hook throw while it
    reads the paths a second time: the list stays as it was, so it is not
    the rewritten list, whatever the selection. *)
Theorem empty_path_blocks_rewrite :
  let files := [FileObject "/ws/skills/pdf/SKILL.md" None;
                FileObject "/ws/skills/xyz/SKILL.md" None;
                FileObject "" None] in
  let st := mkState files [] in
  Js.truthy (query_of (Sample.asks "use the pdf tool")) = true
  /\ hook Sample.api_plain Sample.rt (Sample.asks "use the pdf tool") st
     = (Normal tt, mkState files [LogError TypeError])
  /\ forall sel, Spec.rewritten files sel <> files.
Proof.
  cbv zeta. split; [reflexivity|]. split; [vm_compute; reflexivity|].
  intros sel. unfold Spec.rewritten.
  change (List.filter Spec.is_non_skill _) with [FileObject "" None].
  discriminate.
Qed.

(* ===================================================================== *)
(** * The theorems at sample inputs *)
(* ===================================================================== *)

(** The threshold theorem at the candidate "pdf" of the sample run. *)
Lemma threshold_is_sixty_witness :
  exists res st',
    In "pdf" (JsMap.keys Sample.skillFiles)
    /\ ~ Spec.exempted "pdf" (configExemptions Sample.api_recommending)
    /\ selectRelevantSkills Sample.api_recommending Sample.rt
         "use the pdf tool" Sample.skillFiles Sample.st = (Normal res, st')
    /\ exists llm,
         llmRecommendation Sample.api_recommending Sample.rt "use the pdf tool"
           (nonExemptCandidates Sample.api_recommending
              (JsMap.keys Sample.skillFiles)) Sample.st = (Normal llm, st')
         /\ let total :=
              nameContribution (Js.toLowerCase "use the pdf tool") "pdf"
              + llmContribution llm "pdf"
              + descriptionContribution Sample.rt
                  (Js.toLowerCase "use the pdf tool") Sample.skillFiles "pdf" in
            JsObject.own (scores res) !! "pdf"
            = (if String.eqb "pdf" "__proto__" then None else Some total)
            /\ (In "pdf" (selected res) <-> 60 <= total)
            /\ (total = 59 -> ~ In "pdf" (selected res))
            /\ (total = 60 -> In "pdf" (selected res)).
Proof.
  assert (Hin : In "pdf" (JsMap.keys Sample.skillFiles))
    by (vm_compute; auto).
  assert (Hnot : ~ Spec.exempted "pdf" (configExemptions Sample.api_recommending))
    by (intros H%isExempt_spec; vm_compute in H; discriminate).
  assert (Hrun : exists res st',
             selectRelevantSkills Sample.api_recommending Sample.rt
               "use the pdf tool" Sample.skillFiles Sample.st
             = (Normal res, st'))
    by (vm_compute; eauto).
  destruct Hrun as (res & st' & Hrun). exists res, st'.
  split; [exact Hin|]. split; [exact Hnot|]. split; [exact Hrun|].
  exact (threshold_is_sixty Sample.api_recommending Sample.rt "use the pdf tool"
           Sample.skillFiles Sample.st "pdf" res st' Hin Hnot Hrun).
Defined.

(** The theorem on selected names at the sample run, in which the
    collaborator names "ghost", which is no candidate. *)
Lemma selected_are_candidates_witness :
  exists res st',
    selectRelevantSkills Sample.api_recommending Sample.rt
      "use the pdf tool" Sample.skillFiles Sample.st = (Normal res, st')
    /\ (forall n, In n (selected res) -> In n (JsMap.keys Sample.skillFiles))
    /\ (forall n, ~ In n (JsMap.keys Sample.skillFiles) ->
                  ~ In n (selected res)).
Proof.
  assert (Hrun : exists res st',
             selectRelevantSkills Sample.api_recommending Sample.rt
               "use the pdf tool" Sample.skillFiles Sample.st
             = (Normal res, st'))
    by (vm_compute; eauto).
  destruct Hrun as (res & st' & Hrun). exists res, st'.
  split; [exact Hrun|].
  exact (selected_are_candidates Sample.api_recommending Sample.rt
           "use the pdf tool" Sample.skillFiles Sample.st res st' Hrun).
Defined.

(** The no-query theorem at a history without a turn of the user. *)
Lemma no_query_no_change_witness :
  let ev := mkEvent (Some [mkMessage "system" "boot"; mkMessage "assistant" "hello"]) in
  (Spec.no_user_turn (history ev)
   \/ exists m, Spec.last_user_turn (history ev) m /\ content m = "")
  /\ hook Sample.api_recommending Sample.rt ev Sample.st = (Normal tt, Sample.st).
Proof.
  cbv zeta.
  assert (H : Spec.no_user_turn
                (history (mkEvent (Some [mkMessage "system" "boot";
                                         mkMessage "assistant" "hello"])))).
  { intros m [<-|[<-|[]]]; discriminate. }
  split; [left; exact H|].
  exact (no_query_no_change Sample.api_recommending Sample.rt _ Sample.st
           (or_introl H)).
Defined.

(** The containment theorem at the two places that throw: a list that
    holds an object record with an empty path, and a call of the
    collaborator that is rejected without a reason. *)
Lemma exceptions_are_contained_witness :
  let ev := Sample.asks "use the pdf tool" in
  let st := mkState (Sample.files ++ [FileObject "" None]) [] in
  (hook_body Sample.api_recommending Sample.rt ev st = (Throw TypeError, st)
   /\ bootstrapFiles st = bootstrapFiles st
   /\ hook Sample.api_recommending Sample.rt ev st
      = (Normal tt, mkState (bootstrapFiles st) (log st ++ [LogError TypeError])))
  /\ (hook_body Sample.api_rejecting Sample.rt ev Sample.st
      = (Throw TypeError, Sample.st)
      /\ bootstrapFiles Sample.st = bootstrapFiles Sample.st
      /\ hook Sample.api_rejecting Sample.rt ev Sample.st
         = (Normal tt,
            mkState (bootstrapFiles Sample.st)
              (log Sample.st ++ [LogError TypeError]))).
Proof.
  cbv zeta.
  assert (H : hook_body Sample.api_recommending Sample.rt
                (Sample.asks "use the pdf tool")
                (mkState (Sample.files ++ [FileObject "" None]) [])
              = (Throw TypeError,
                 mkState (Sample.files ++ [FileObject "" None]) []))
    by (vm_compute; reflexivity).
  assert (H' : hook_body Sample.api_rejecting Sample.rt
                 (Sample.asks "use the pdf tool") Sample.st
               = (Throw TypeError, Sample.st))
    by (vm_compute; reflexivity).
  split.
  - split; [exact H|].
    exact (exceptions_are_contained Sample.api_recommending Sample.rt
             (Sample.asks "use the pdf tool") _ TypeError _ H).
  - split; [exact H'|].
    exact (exceptions_are_contained Sample.api_rejecting Sample.rt
             (Sample.asks "use the pdf tool") _ TypeError _ H').
Defined.

(* ===================================================================== *)
(** * Test cases *)
(* ===================================================================== *)

Example wildcard_exempts_prefix :
  isExempt "zesty-dispatcher" defaultExemptions = true
  /\ isExempt "zestydispatcher" defaultExemptions = false
  /\ isExempt "qmd" defaultExemptions = true
  /\ isExempt "qmdx" defaultExemptions = false.
Proof. repeat split; reflexivity. Qed.

Example quoted_description_is_unwrapped :
  parseSkillMetadata
    ("---" ++ lf ++ "name: pdf" ++ lf ++ "Description: "
       ++ Sample.quoted "Parses PDF files" ++ lf ++ "---" ++ lf ++ "# pdf")
  = mkMeta "pdf" "Parses PDF files".
Proof. vm_compute. reflexivity. Qed.

Example skill_names_of_paths :
  SkillPath.skillName "/home/u/.openclaw/skills/pdf/SKILL.md" = Some "pdf"
  /\ SkillPath.skillName "C:\ws\skills\canvas-design\refs\a.md"
     = Some "canvas-design"
  /\ SkillPath.skillName "/ws/skills/pdf" = Some "pdf"
  /\ SkillPath.skillName "/ws/skills/" = None
  /\ SkillPath.skillName "/ws/myskills/pdf/SKILL.md" = None
  /\ SkillPath.skillName "skills/pdf/SKILL.md" = None.
Proof. repeat split; vm_compute; reflexivity. Qed.

Example split_keeps_empty_ends :
  Js.split_whitespace " use  the pdf " = [""; "use"; "the"; "pdf"; ""]
  /\ Js.split_whitespace "" = [""]
  /\ keywords " an ox ran far " = ["ran"; "far"].
Proof. repeat split; vm_compute; reflexivity. Qed.

Example word_boundaries_of_symbols :
  RegExp.wholeWordTest "c++" "use c++ now" = false
  /\ RegExp.wholeWordTest "c++" "use c++x now" = true
  /\ RegExp.wholeWordTest "PDF" "read the pdf." = true
  /\ RegExp.wholeWordTest "a.c" "use abc" = false.
Proof. repeat split; vm_compute; reflexivity. Qed.

Example bracket_match_is_greedy :
  jsonMatch ("Sure: [" ++ Sample.quoted "pdf" ++ "] and [1]")
  = Some ("[" ++ Sample.quoted "pdf" ++ "] and [1]")%string
  /\ jsonMatch "no array here ]" = None.
Proof. split; vm_compute; reflexivity. Qed.

(** A whole run: the collaborator recommends "xyz" and the unknown name
    "ghost"; "pdf" is named in the query, "zesty-x" is exempt. *)
Example sample_run :
  hook Sample.api_recommending Sample.rt (Sample.asks "Use the PDF tool")
    Sample.st
  = (Normal tt,
     mkState
       [FileObject "/ws/AGENTS.md" None;
        FileObject "/ws/SOUL.md" (Some "soul");
        FileObject "/ws/skills/pdf/SKILL.md" None;
        PathString "/ws/skills/pdf/run.py";
        FileObject "/ws/skills/xyz/SKILL.md" None;
        FileObject "/ws/skills/zesty-x/SKILL.md" None;
        report ["zesty-x"; "pdf"; "xyz"]]
       []).
Proof. vm_compute. reflexivity. Qed.

Example sample_scores :
  exists res st',
    selectRelevantSkills Sample.api_recommending Sample.rt "Use the PDF tool"
      Sample.skillFiles Sample.st = (Normal res, st')
    /\ JsObject.own (scores res) !! "pdf" = Some 80
    /\ JsObject.own (breakdown res) !! "pdf"
       = Some ["Name Match (+60)"; "Desc Keywords: pdf, tool (+20)"]
    /\ JsObject.own (scores res) !! "xyz" = Some 60
    /\ JsObject.own (breakdown res) !! "xyz" = Some ["LLM Recommended (+60)"]
    /\ JsObject.own (scores res) !! "zesty-x" = Some 999
    /\ JsObject.own (scores res) !! "ghost" = None
    /\ JsObject.proto (breakdown res) = None.
Proof. eexists _, _. split; [reflexivity|]. repeat split; vm_compute; reflexivity. Qed.

Example prompt_of_sample :
  prompt "use the pdf tool" ["pdf"; "xyz"]
  = ("Select highly relevant skills for: " ++ Sample.quoted "use the pdf tool"
       ++ " from: [" ++ Sample.quoted "pdf" ++ "," ++ Sample.quoted "xyz"
       ++ "]. Return JSON array only.")%string
  /\ Stringify.quote ("a\b" ++ lf)
     = Sample.quoted "a\\b\n"
  /\ Stringify.quote (String "031"%char "z")
     = Sample.quoted "\u001fz".
Proof. repeat split; vm_compute; reflexivity. Qed.

(* ===================================================================== *)
(** * Further properties of the Selector *)
(* ===================================================================== *)

Lemma nonExempt_as_filter (api : Api) (cands : list string) :
  nonExemptCandidates api cands
  = List.filter (fun s => negb (isExempt s (configExemptions api))) cands.
Proof.
  unfold nonExemptCandidates. apply filter_ext_in. intros s Hin. f_equal.
  destruct (isExempt s (configExemptions api)) eqn:E.
  - apply includes_In, in_exemptCandidates. auto.
  - destruct (Js.includes (exemptCandidates api cands) s) eqn:I; [|reflexivity].
    apply includes_In, in_exemptCandidates in I as [_ I]. congruence.
Qed.

Lemma nameContribution_values (qLower s : string) :
  nameContribution qLower s
  = if RegExp.wholeWordTest s qLower then 60 else 0.
Proof.
  unfold nameContribution, nameSignal.
  destruct (RegExp.wholeWordTest s qLower); reflexivity.
Qed.

Lemma llm_includes_In (llm : list json_value) (s : string) :
  llm_includes llm s = true <-> In (JString s) llm.
Proof.
  unfold llm_includes. rewrite existsb_exists. split.
  - intros ([t|] & Hin & H); [|discriminate].
    apply String.eqb_eq in H. now subst t.
  - intros Hin. exists (JString s). split; [exact Hin|apply String.eqb_refl].
Qed.

Lemma llmContribution_values (llm : list json_value) (s : string) :
  llmContribution llm s = if llm_includes llm s then 60 else 0.
Proof.
  unfold llmContribution, llmSignal.
  destruct (llm_includes llm s); reflexivity.
Qed.

Lemma keywordContribution_values (qLower desc : string) :
  keywordContribution qLower desc
  = Z.min 30 (10 * Z.of_nat (length (matchedKeywords qLower desc))).
Proof.
  unfold keywordContribution, keywordSignal.
  destruct (length (matchedKeywords qLower desc)) as [|n];
    cbn [Nat.ltb Nat.leb fst]; lia.
Qed.

Lemma descriptionContribution_values (rt : Runtime) (qLower : string)
    (sf : JsMap.t) (s : string) :
  exists k : Z,
    0 <= k <= 3 /\ descriptionContribution rt qLower sf s = 10 * k.
Proof.
  rewrite descriptionContribution_cases.
  destruct (JsMap.get s sf) as [p|]; [|exists 0; lia].
  destruct (Js.truthy p); [|exists 0; lia].
  destruct (readDescriptor rt p) as [buffer|]; [|exists 0; lia].
  rewrite keywordContribution_values.
  set (n := Z.of_nat (length _)).
  assert (0 <= n) by (unfold n; lia).
  exists (Z.min 3 n). lia.
Qed.

Lemma descriptionContribution_keywords (rt : Runtime) (qLower : string)
    (sf : JsMap.t) (s : string) :
  descriptionContribution rt qLower sf s
  = Z.min 30 (10 * Z.of_nat (length (descriptorKeywords rt qLower sf s))).
Proof.
  rewrite descriptionContribution_cases. unfold descriptorKeywords.
  destruct (JsMap.get s sf) as [p|]; [|reflexivity].
  destruct (Js.truthy p); [|reflexivity].
  destruct (readDescriptor rt p) as [buffer|]; [|reflexivity].
  apply keywordContribution_values.
Qed.

(** X1.  The score of a candidate is 60 when its name occurs in the query
    as a whole word, plus 60 when the recommendation holds its name, plus
    10 for each keyword of the query found in the description of its
    descriptor, up to 30: a number between 0 and 150 that is never strictly
    between 30 and 60. *)
Theorem score_is_built_from_weights (rt : Runtime) (qLower : string)
    (llm : list json_value) (sf : JsMap.t) (s : string) :
  let z := fst (scoreSkill rt qLower llm sf s) in
  exists named recommended : bool,
    (named = true <-> Spec.occurs_as_whole_word s qLower)
    /\ (recommended = true <-> In (JString s) llm)
    /\ z = (if named then 60 else 0) + (if recommended then 60 else 0)
           + Z.min 30
               (10 * Z.of_nat (length (descriptorKeywords rt qLower sf s)))
    /\ 0 <= z <= 150
    /\ (z <= 30 \/ 60 <= z).
Proof.
  cbv zeta. rewrite score_is_sum, nameContribution_values, llmContribution_values,
    descriptionContribution_keywords.
  exists (RegExp.wholeWordTest s qLower), (llm_includes llm s).
  split; [apply wholeWordTest_spec|]. split; [apply llm_includes_In|].
  split; [reflexivity|].
  destruct (RegExp.wholeWordTest s qLower), (llm_includes llm s); lia.
Qed.

(** X2.  The description never decides: a candidate no exemption pattern
    matches is selected exactly when its name occurs in the lower-cased
    query as a whole word or the parsed reply of the collaborator holds its
    name. *)
Theorem selection_needs_name_or_recommendation (api : Api) (rt : Runtime)
    (query : string) (sf : JsMap.t) (st : state) (s : string)
    (res : selection) (st' : state) :
  In s (JsMap.keys sf) ->
  ~ Spec.exempted s (configExemptions api) ->
  selectRelevantSkills api rt query sf st = (Normal res, st') ->
  exists llm,
    llmRecommendation api rt query
      (nonExemptCandidates api (JsMap.keys sf)) st = (Normal llm, st')
    /\ (In s (selected res)
        <-> Spec.occurs_as_whole_word s (Js.toLowerCase query)
            \/ In (JString s) llm).
Proof.
  intros Hin Hnot Hrun.
  assert (Hex : isExempt s (configExemptions api) = false).
  { destruct (isExempt s (configExemptions api)) eqn:E; [|reflexivity].
    now apply isExempt_spec in E. }
  destruct (selectRelevantSkills_normal _ _ _ _ _ _ _ Hrun)
    as (llm & Hllm & _ & ->).
  exists llm. split; [exact Hllm|].
  rewrite (result_selected api rt query llm sf s), Hex.
  rewrite score_is_sum, nameContribution_values, llmContribution_values.
  rewrite <- wholeWordTest_spec, <- llm_includes_In.
  destruct (descriptionContribution_values rt (Js.toLowerCase query) sf s)
    as (k & Hk & ->).
  destruct (RegExp.wholeWordTest s (Js.toLowerCase query)),
           (llm_includes llm s); split.
  all: try (intros _; auto; split; [exact Hin|right; lia]).
  all: try (intros [_ [H|H]]; [discriminate|lia]).
  all: try (intros [H|H]; discriminate).
Qed.

(** X3.  The selected list holds the exempt candidates first and then the
    other candidates whose score reaches 60, each group in the order of the
    candidate names. *)
Theorem selected_lists_exempt_first (api : Api) (rt : Runtime)
    (query : string) (sf : JsMap.t) (st : state) (res : selection)
    (st' : state) :
  selectRelevantSkills api rt query sf st = (Normal res, st') ->
  exists llm,
    llmRecommendation api rt query
      (nonExemptCandidates api (JsMap.keys sf)) st = (Normal llm, st')
    /\ selected res
       = List.filter (fun s => isExempt s (configExemptions api))
           (JsMap.keys sf)
         ++ List.filter
              (fun s => negb (isExempt s (configExemptions api))
                        && (60 <=? fst (scoreSkill rt (Js.toLowerCase query)
                                          llm sf s))%Z)
              (JsMap.keys sf).
Proof.
  intros Hrun.
  destruct (selectRelevantSkills_normal _ _ _ _ _ _ _ Hrun)
    as (llm & Hllm & _ & ->).
  exists llm. split; [exact Hllm|].
  rewrite scoring_loop_selected, exemption_loop_selected.
  cbn [selected app]. rewrite nonExempt_as_filter, filter_filter_andb.
  reflexivity.
Qed.

(** X4.  The score object and the reason object the Selector returns have
    an own entry for every candidate but [__proto__], and for nothing else;
    the prototype of the score object stays what it was, and that of the
    reason object is replaced exactly when [__proto__] is a candidate. *)
Theorem tables_hold_every_candidate_but_proto (api : Api) (rt : Runtime)
    (query : string) (sf : JsMap.t) (st : state) (res : selection)
    (st' : state) :
  selectRelevantSkills api rt query sf st = (Normal res, st') ->
  (forall s,
     (is_Some (JsObject.own (scores res) !! s)
      <-> In s (JsMap.keys sf) /\ s <> "__proto__")
     /\ (is_Some (JsObject.own (breakdown res) !! s)
         <-> In s (JsMap.keys sf) /\ s <> "__proto__"))
  /\ JsObject.proto (scores res) = None
  /\ (is_Some (JsObject.proto (breakdown res))
      <-> In "__proto__" (JsMap.keys sf)).
Proof.
  intros Hrun.
  destruct (selectRelevantSkills_normal _ _ _ _ _ _ _ Hrun)
    as (llm & _ & _ & ->).
  split; [|split].
  - intros s.
    assert (Hcase : In s (JsMap.keys sf) \/ ~ In s (JsMap.keys sf)).
    { destruct (Js.includes (JsMap.keys sf) s) eqn:E.
      - left. now apply includes_In.
      - right. intros H%includes_In. congruence. }
    destruct Hcase as [Hin|Hnot].
    + assert (Hown :
          exists v w,
            JsObject.own (scores (fold_left
                (scoringStep rt (Js.toLowerCase query) llm sf)
                (nonExemptCandidates api (JsMap.keys sf))
                (fold_left exemptionStep (exemptCandidates api (JsMap.keys sf))
                   (mkSelection [] JsObject.empty JsObject.empty)))) !! s
            = (if String.eqb s JsObject.proto_key then None else Some v)
            /\ JsObject.own (breakdown (fold_left
                (scoringStep rt (Js.toLowerCase query) llm sf)
                (nonExemptCandidates api (JsMap.keys sf))
                (fold_left exemptionStep (exemptCandidates api (JsMap.keys sf))
                   (mkSelection [] JsObject.empty JsObject.empty)))) !! s
               = (if String.eqb s JsObject.proto_key then None else Some w)).
      { destruct (isExempt s (configExemptions api)) eqn:E.
        - destruct (result_exempt api rt query llm sf s Hin E) as [H1 H2]. eauto.
        - destruct (result_scored api rt query llm sf s Hin E) as [H1 H2]. eauto. }
      destruct Hown as (v & w & -> & ->).
      destruct (String.eqb_spec s JsObject.proto_key) as [->|Hne].
      * split; split; try (intros [x Hx]; discriminate);
          intros [_ H]; now destruct H.
      * split; split; eauto.
    + destruct (result_not_candidate api rt query llm sf s Hnot) as [-> ->].
      split; split; try (intros [x Hx]; discriminate); intros [H _];
        contradiction.
  - apply result_proto.
  - destruct (result_proto api rt query llm sf) as [_ ->].
    change (In "__proto__" (JsMap.keys sf))
      with (In JsObject.proto_key (JsMap.keys sf)).
    rewrite <- includes_In.
    destruct (Js.includes (JsMap.keys sf) JsObject.proto_key); split; eauto.
    + intros [x Hx]. discriminate.
    + discriminate.
Qed.

Lemma NoDup_filter_app {A} (f g : A -> bool) (l : list A) :
  List.NoDup l -> (forall x, f x = true -> g x = true -> False) ->
  List.NoDup (List.filter f l ++ List.filter g l).
Proof.
  intros Hl Hfg. apply List.NoDup_app.
  - now apply List.NoDup_filter.
  - now apply List.NoDup_filter.
  - intros x Hf Hg. apply filter_In in Hg as [_ Hg].
    apply filter_In in Hf as [_ Hf]. exact (Hfg x Hf Hg).
Qed.

(** X5.  When the candidate names are distinct, as the keys of a map are,
    no name is selected twice. *)
Theorem selected_has_no_duplicates (api : Api) (rt : Runtime)
    (query : string) (sf : JsMap.t) (st : state) (res : selection)
    (st' : state) :
  List.NoDup (JsMap.keys sf) ->
  selectRelevantSkills api rt query sf st = (Normal res, st') ->
  List.NoDup (selected res).
Proof.
  intros Hnd Hrun.
  destruct (selectRelevantSkills_normal _ _ _ _ _ _ _ Hrun)
    as (llm & _ & _ & ->).
  rewrite scoring_loop_selected, exemption_loop_selected.
  cbn [selected app]. rewrite nonExempt_as_filter, filter_filter_andb.
  apply NoDup_filter_app; [exact Hnd|].
  intros x Hx Hy. rewrite Hx in Hy. discriminate.
Qed.

(** X6.  The Selector ends in one of two ways.  It returns, and then it has
    left the record list alone and written at most one warning to the log,
    none when no collaborator is configured.  Or it throws a TypeError with
    the list and the log as they were, which is what happens when the
    batched call is made and rejected with [undefined] or [null]. *)
Theorem selector_warns_once_or_throws (api : Api) (rt : Runtime)
    (query : string) (sf : JsMap.t) (st : state) :
  let nonExempt := nonExemptCandidates api (JsMap.keys sf) in
  let req := request (routerModel api) query nonExempt in
  ((exists res st',
      selectRelevantSkills api rt query sf st = (Normal res, st')
      /\ bootstrapFiles st' = bootstrapFiles st
      /\ (log st' = log st
          \/ exists e, e <> Nullish /\ log st' = log st ++ [LogWarn e])
      /\ (generateText api = None -> st' = st))
   \/ (selectRelevantSkills api rt query sf st = (Throw TypeError, st)
       /\ nonExempt <> []
       /\ Spec.rejected_without_reason api req))
  /\ (nonExempt <> [] -> Spec.rejected_without_reason api req ->
      selectRelevantSkills api rt query sf st = (Throw TypeError, st)).
Proof.
  cbv zeta. split.
  - unfold selectRelevantSkills, bind.
    destruct (llmRecommendation_cases api rt query
                (nonExemptCandidates api (JsMap.keys sf)) st)
      as [(llm & st' & Hrun & Hf & Hl & Hn)|(Hrun & Hne & Hrej)]; rewrite Hrun.
    + left. eexists _, st'. split; [reflexivity|]. auto.
    + right. auto.
  - intros Hne Hrej. unfold selectRelevantSkills, bind.
    now rewrite (nullish_rejection_throws api rt query _ st Hne Hrej).
Qed.

Lemma patterns_in_force_config (api : Api) (patterns : list string) :
  Spec.patterns_in_force api patterns -> configExemptions api = patterns.
Proof.
  unfold configExemptions. now intros [->|[-> ->]].
Qed.

(** X25.  A candidate that a pattern of the configured exemption list
    matches, or of the list [zesty-*], [qmd] when none is configured, is
    selected whatever the query, the descriptors and the reply of the
    collaborator are; the score object holds 999 and the reason object the
    one reason "Exemption" for it, unless its name is [__proto__]: then
    neither object has an entry for it and the reasons are the prototype of
    the reason object. *)
Theorem exempt_candidates_are_selected (api : Api) (rt : Runtime)
    (query : string) (sf : JsMap.t) (st : state) (patterns : list string)
    (s : string) (res : selection) (st' : state) :
  In s (JsMap.keys sf) ->
  Spec.patterns_in_force api patterns ->
  Spec.exempted s patterns ->
  selectRelevantSkills api rt query sf st = (Normal res, st') ->
  In s (selected res)
  /\ (s <> "__proto__" ->
      JsObject.own (scores res) !! s = Some 999
      /\ JsObject.own (breakdown res) !! s = Some ["Exemption"])
  /\ (s = "__proto__" ->
      JsObject.own (scores res) !! s = None
      /\ JsObject.own (breakdown res) !! s = None
      /\ JsObject.proto (breakdown res) = Some ["Exemption"]).
Proof.
  intros Hin Hforce Hex Hrun.
  assert (Hex' : isExempt s (configExemptions api) = true).
  { apply isExempt_spec. now rewrite (patterns_in_force_config _ _ Hforce). }
  destruct (exempt_candidate_result api rt query sf st s res st' Hin Hex' Hrun)
    as (Hsel & Hsc & Hbd).
  split; [exact Hsel|]. split.
  - intros Hne. apply String.eqb_neq in Hne. rewrite Hne in Hsc, Hbd. auto.
  - intros ->. split; [exact Hsc|]. split; [exact Hbd|].
    destruct (selectRelevantSkills_normal _ _ _ _ _ _ _ Hrun)
      as (llm & _ & _ & ->).
    destruct (result_proto api rt query llm sf) as [_ ->].
    change "__proto__" with JsObject.proto_key in Hin, Hex'.
    apply includes_In in Hin. now rewrite Hin, Hex'.
Qed.

(** X26.  When the collaborator is absent, its call is rejected with a
    value that has a message, or its reply holds no parsable JSON array,
    the recommendation is empty and the Selector returns, with the record
    list as it was: the candidates that a pattern in force matches are
    selected, and any other candidate is selected exactly when its name
    and description points reach 60. *)
Theorem failure_with_a_reason_degrades (api : Api) (rt : Runtime)
    (query : string) (sf : JsMap.t) (st : state) (patterns : list string) :
  let cands := JsMap.keys sf in
  let qLower := Js.toLowerCase query in
  let req := request (routerModel api) query (nonExemptCandidates api cands) in
  Spec.semantic_failure api rt req ->
  ~ Spec.rejected_without_reason api req ->
  Spec.patterns_in_force api patterns ->
  exists st' res,
    llmRecommendation api rt query (nonExemptCandidates api cands) st
    = (Normal [], st')
    /\ selectRelevantSkills api rt query sf st = (Normal res, st')
    /\ bootstrapFiles st' = bootstrapFiles st
    /\ (forall s, In s cands -> Spec.exempted s patterns -> In s (selected res))
    /\ (forall s, In s cands -> ~ Spec.exempted s patterns ->
          (In s (selected res)
           <-> 60 <= nameContribution qLower s
                     + descriptionContribution rt qLower sf s)).
Proof.
  intros cands qLower req Hfail Hreason Hforce.
  apply patterns_in_force_config in Hforce. subst patterns.
  destruct (semantic_failure_empty api rt query _ st Hfail Hreason)
    as (st' & Hllm & Hst).
  exists st'. eexists. split; [exact Hllm|]. split.
  { unfold selectRelevantSkills, bind. fold cands. rewrite Hllm. reflexivity. }
  split; [exact Hst|]. split.
  - intros s Hin Hex%isExempt_spec. apply result_selected. auto.
  - intros s Hin Hnot.
    assert (Hex : isExempt s (configExemptions api) = false).
    { destruct (isExempt s (configExemptions api)) eqn:E; [|reflexivity].
      now apply isExempt_spec in E. }
    pose proof (result_selected api rt query [] sf s) as Hsel.
    pose proof (score_is_sum rt qLower [] sf s) as Hsum.
    rewrite llmContribution_nil, Z.add_0_r in Hsum.
    fold qLower in Hsel. rewrite Hsum, Hex in Hsel. split.
    + intros H. apply Hsel in H as [_ [H|H]]; [discriminate|exact H].
    + intros H. apply Hsel. auto.
Qed.

(* ===================================================================== *)
(** * The bracketed part of a reply *)
(* ===================================================================== *)

Lemma dropWhile_spec (f : ascii -> bool) (l : list ascii) :
  exists pre,
    l = pre ++ Js.dropWhile f l
    /\ (forall x, In x pre -> f x = true)
    /\ match Js.dropWhile f l with
       | c :: _ => f c = false
       | [] => True
       end.
Proof.
  induction l as [|c l (pre & IH & Hpre & Hhead)].
  - exists []. cbn. auto.
  - cbn [Js.dropWhile]. destruct (f c) eqn:E.
    + exists (c :: pre). cbn [app]. rewrite <- IH. repeat split; auto.
      intros x [<-|Hx]; auto.
    + exists []. cbn. rewrite E. repeat split; auto; intros x [].
Qed.

Lemma later_part_is_inside {A} (pre after a rest : list A) (x y : A) :
  pre ++ x :: after = a ++ y :: rest -> ~ In y pre ->
  forall z, In z rest -> In z after.
Proof.
  revert a. induction pre as [|p pre IH]; intros a Heq Hy z Hz.
  - destruct a as [|a0 a]; cbn in Heq; injection Heq as -> ->.
    + exact Hz.
    + apply in_or_app. right. now right.
  - destruct a as [|a0 a]; cbn in Heq; injection Heq as -> Heq.
    + destruct Hy. now left.
    + apply (IH a Heq); [|exact Hz]. intros H. apply Hy. now right.
Qed.

(** X7.  The text handed to [JSON.parse] runs from the first opening
    bracket of the reply to its last closing bracket; when the reply has no
    closing bracket after an opening one, nothing is parsed. *)
Theorem jsonMatch_is_the_widest_bracket (text : string) :
  match jsonMatch text with
  | Some m =>
      exists pre inner post,
        Js.chars text = pre ++ "["%char :: inner ++ "]"%char :: post
        /\ Js.chars m = "["%char :: inner ++ ["]"%char]
        /\ ~ In "["%char pre
        /\ ~ In "]"%char post
  | None =>
      forall a b c,
        Js.chars text <> a ++ "["%char :: b ++ "]"%char :: c
  end.
Proof.
  unfold jsonMatch.
  set (nb := fun c : ascii => negb (Ascii.eqb c "[")).
  set (nc := fun c : ascii => negb (Ascii.eqb c "]")).
  destruct (dropWhile_spec nb (Js.chars text)) as (pre & Hpre & Hnb & Hopen).
  assert (Hpre_no : ~ In "["%char pre).
  { intros H. apply Hnb in H. discriminate. }
  destruct (Js.dropWhile nb (Js.chars text)) as [|open after].
  - intros a b c Heq. rewrite app_nil_r in Hpre. apply Hpre_no.
    rewrite <- Hpre, Heq. apply in_or_app. right. now left.
  - assert (open = "["%char) as ->.
    { unfold nb in Hopen. apply negb_false_iff, Ascii.eqb_eq in Hopen.
      exact Hopen. }
    destruct (dropWhile_spec nc (rev after)) as (x & Hx & Hnc & Hclose).
    destruct (Js.dropWhile nc (rev after)) as [|close inner].
    + intros a b c Heq. rewrite Hpre in Heq. rewrite app_nil_r in Hx.
      assert (Hin : In "]"%char after).
      { apply (later_part_is_inside pre after a (b ++ "]"%char :: c) _ _ Heq Hpre_no).
        apply in_or_app. right. now left. }
      apply in_rev in Hin. rewrite Hx in Hin. apply Hnc in Hin. discriminate.
    + assert (close = "]"%char) as ->.
      { unfold nc in Hclose. apply negb_false_iff, Ascii.eqb_eq in Hclose.
        exact Hclose. }
      exists pre, (rev inner), (rev x).
      assert (Hafter : after = rev inner ++ "]"%char :: rev x).
      { rewrite <- (rev_involutive after), Hx, rev_app_distr. cbn [rev].
        now rewrite <- app_assoc. }
      repeat split.
      * now rewrite Hpre, Hafter.
      * rewrite chars_of_chars. reflexivity.
      * exact Hpre_no.
      * intros H. apply in_rev in H. apply Hnc in H. discriminate.
Qed.

(* ===================================================================== *)
(** * Exemption patterns, one at a time *)
(* ===================================================================== *)

(** X8.  A pattern [p*] exempts exactly the names that start with [p], so
    [*] alone exempts every name; a pattern that does not end in a star
    exempts its own name only; a list of patterns exempts what one of its
    patterns exempts, and the empty list nothing. *)
Theorem isExempt_pattern_by_pattern (name : string) :
  (forall pre, isExempt name [(pre ++ "*")%string] = true
               <-> exists rest, name = (pre ++ rest)%string)
  /\ isExempt name ["*"] = true
  /\ (forall pattern, Js.endsWith pattern "*" = false ->
        (isExempt name [pattern] = true <-> name = pattern))
  /\ (forall ps qs, isExempt name (ps ++ qs)
                    = isExempt name ps || isExempt name qs)
  /\ isExempt name [] = false.
Proof.
  assert (Hwild : forall pre, isExempt name [(pre ++ "*")%string] = true
                              <-> exists rest, name = (pre ++ rest)%string).
  { intros pre. unfold isExempt. cbn [existsb]. rewrite orb_false_r.
    assert (E : Js.endsWith (pre ++ "*") "*" = true)
      by (apply endsWith_star; eauto).
    rewrite E. change "*" with (String "*"%char "") at 1.
    rewrite slice_0_m1_snoc. apply startsWith_app. }
  split; [exact Hwild|]. split; [|split; [|split]].
  - apply (Hwild ""). exists name. reflexivity.
  - intros pattern E. unfold isExempt. cbn [existsb].
    rewrite orb_false_r, E. apply String.eqb_eq.
  - intros ps qs. unfold isExempt. apply existsb_app.
  - reflexivity.
Qed.

(* ===================================================================== *)
(** * A query that is the candidate's name *)
(* ===================================================================== *)

Lemma lower_keeps_word (c : ascii) :
  CodeUnit.isWordChar (CodeUnit.toLowerCase c) = CodeUnit.isWordChar c.
Proof.
  apply Bool.eqb_true_iff. revert c. apply forall_code_units.
  vm_compute. reflexivity.
Qed.

Lemma lower_idempotent (c : ascii) :
  CodeUnit.toLowerCase (CodeUnit.toLowerCase c) = CodeUnit.toLowerCase c.
Proof.
  apply Ascii.eqb_eq. revert c. apply forall_code_units.
  vm_compute. reflexivity.
Qed.

Lemma chars_toLowerCase (s : string) :
  Js.chars (Js.toLowerCase s) = map CodeUnit.toLowerCase (Js.chars s).
Proof. unfold Js.toLowerCase. apply chars_of_chars. Qed.

Lemma isWord_head_lower (l : list ascii) :
  RegExp.isWord (head (map CodeUnit.toLowerCase l)) = RegExp.isWord (head l).
Proof. destruct l as [|c l]; [reflexivity|]. cbn. apply lower_keeps_word. Qed.

Lemma isWord_last_lower (l : list ascii) :
  RegExp.isWord (last (map CodeUnit.toLowerCase l)) = RegExp.isWord (last l).
Proof.
  induction l as [|c l IH]; [reflexivity|].
  destruct l as [|d l]; [cbn; apply lower_keeps_word|].
  cbn [map] in *. rewrite !last_cons_cons. exact IH.
Qed.

(** X9.  A query that is the candidate's name, in any letter case, scores
    the name match exactly when the name begins and ends with a letter, a
    digit or an underscore: a name such as [c++] is not matched by itself. *)
Theorem own_name_matches_between_word_characters (skillName query : string) :
  Js.toLowerCase query = Js.toLowerCase skillName ->
  nameContribution (Js.toLowerCase query) skillName
  = if RegExp.isWord (head (Js.chars skillName))
       && RegExp.isWord (last (Js.chars skillName))
    then 60 else 0.
Proof.
  intros Hq. rewrite nameContribution_values, Hq.
  set (n := Js.chars skillName).
  assert (Hiff : RegExp.wholeWordTest skillName (Js.toLowerCase skillName) = true
                 <-> RegExp.isWord (head n) = true /\ RegExp.isWord (last n) = true).
  { rewrite wholeWordTest_spec.
    unfold Spec.occurs_as_whole_word, Spec.word_boundary, Spec.equal_ignoring_case.
    rewrite chars_toLowerCase. fold n. split.
    - intros (pre & mid & post & Heq & Hci & Hb1 & Hb2).
      assert (Hlen : length (pre ++ mid ++ post) = length mid).
      { rewrite <- Heq, length_map, <- (length_map CodeUnit.toLowerCase mid), Hci.
        now rewrite length_map. }
      rewrite !length_app in Hlen.
      destruct pre; [|cbn in Hlen; lia]. destruct post; [|cbn in Hlen; lia].
      cbn [app] in *. rewrite app_nil_r in *. subst mid.
      rewrite isWord_head_lower in Hb1. rewrite isWord_last_lower in Hb2.
      cbn in Hb1, Hb2.
      destruct (RegExp.isWord (head n)), (RegExp.isWord (last n));
        split; congruence.
    - intros [Hh Hl]. exists [], (map CodeUnit.toLowerCase n), [].
      cbn [app]. rewrite app_nil_r, isWord_head_lower, isWord_last_lower.
      rewrite Hh, Hl. repeat split; try discriminate.
      rewrite map_map. apply map_ext. intros c. apply lower_idempotent. }
  destruct (RegExp.wholeWordTest skillName (Js.toLowerCase skillName)).
  - destruct Hiff as [[-> ->] _]; reflexivity.
  - destruct (RegExp.isWord (head n)), (RegExp.isWord (last n)); cbn;
      try reflexivity.
    destruct Hiff as [_ H]. now specialize (H (conj eq_refl eq_refl)).
Qed.

(* ===================================================================== *)
(** * The candidate name of a path *)
(* ===================================================================== *)

Lemma is_prefix_true (p l : list ascii) :
  Frontmatter.is_prefix p l = true <-> exists rest, l = p ++ rest.
Proof.
  revert l. induction p as [|a p IH]; intros l; cbn.
  - split; eauto.
  - destruct l as [|b l].
    + split; [discriminate|]. intros (rest & H). discriminate.
    + rewrite andb_true_iff, Ascii.eqb_eq, IH. split.
      * intros (-> & rest & ->). eauto.
      * intros (rest & H). injection H as -> ->. eauto.
Qed.

Lemma skipn_length_app {A} (p rest : list A) : skipn (length p) (p ++ rest) = rest.
Proof. induction p; cbn; auto. Qed.

Lemma takeWhile_spec (f : ascii -> bool) (l : list ascii) :
  exists rest,
    l = SkillPath.takeWhile f l ++ rest
    /\ (forall x, In x (SkillPath.takeWhile f l) -> f x = true)
    /\ match rest with
       | c :: _ => f c = false
       | [] => True
       end.
Proof.
  induction l as [|c l (rest & IH & Hall & Hrest)].
  - exists []. cbn. auto.
  - cbn [SkillPath.takeWhile]. destruct (f c) eqn:E.
    + exists rest. cbn [app]. rewrite <- IH. repeat split; auto.
      intros x [<-|Hx]; auto.
    + exists (c :: l). cbn. repeat split; auto; intros x [].
Qed.

(** What one attempt of the pattern reads. *)
Lemma match_at_Some (l name : list ascii) :
  SkillPath.match_at l = Some name
  <-> exists s1 s2 rest,
        l = s1 :: Js.chars "skills" ++ s2 :: name ++ rest
        /\ SkillPath.isSeparator s1 = true
        /\ SkillPath.isSeparator s2 = true
        /\ name <> []
        /\ (forall x, In x name -> SkillPath.isSeparator x = false)
        /\ match rest with
           | c :: _ => SkillPath.isSeparator c = true
           | [] => True
           end.
Proof.
  set (nonsep := fun x => negb (SkillPath.isSeparator x)).
  split.
  - unfold SkillPath.match_at. destruct l as [|c l1]; [discriminate|].
    destruct (SkillPath.isSeparator c) eqn:Hc; [|discriminate].
    destruct (Frontmatter.is_prefix (Js.chars "skills") l1) eqn:Hp;
      [|discriminate].
    apply is_prefix_true in Hp as (r6 & ->).
    change 6%nat with (length (Js.chars "skills")). rewrite skipn_length_app.
    cbn [andb]. destruct r6 as [|d l2]; [discriminate|].
    destruct (SkillPath.isSeparator d) eqn:Hd; [|discriminate].
    fold nonsep.
    destruct (takeWhile_spec nonsep l2) as (rest & Hl2 & Hall & Hrest).
    destruct (SkillPath.takeWhile nonsep l2) as [|n0 ns] eqn:Htw;
      [discriminate|].
    intros [= <-]. exists c, d, rest.
    split; [now rewrite Hl2 at 1|]. split; [exact Hc|]. split; [exact Hd|].
    split; [discriminate|]. split.
    + intros x Hx. apply Hall in Hx. now apply negb_true_iff in Hx.
    + destruct rest; [exact I|]. now apply negb_false_iff in Hrest.
  - intros (s1 & s2 & rest & -> & H1 & H2 & Hne & Hall & Hrest).
    unfold SkillPath.match_at. rewrite H1.
    assert (Hp : Frontmatter.is_prefix (Js.chars "skills")
                   (Js.chars "skills" ++ s2 :: name ++ rest) = true)
      by (apply is_prefix_true; eauto).
    rewrite Hp. cbn [andb].
    change 6%nat with (length (Js.chars "skills")). rewrite skipn_length_app.
    rewrite H2. fold nonsep.
    assert (Htw : SkillPath.takeWhile nonsep (name ++ rest) = name).
    { clear Hne Hp. induction name as [|n0 name IH]; cbn.
      - destruct rest as [|c rest]; [reflexivity|]. cbn.
        unfold nonsep. now rewrite Hrest.
      - unfold nonsep at 1. rewrite (Hall n0 (or_introl eq_refl)). cbn.
        f_equal. apply IH. intros x Hx. apply Hall. now right. }
    rewrite Htw. destruct name; [contradiction|reflexivity].
Qed.

Lemma find_Some (l name : list ascii) :
  SkillPath.find l = Some name ->
  exists pre l', l = pre ++ l' /\ SkillPath.match_at l' = Some name.
Proof.
  induction l as [|c l IH].
  - cbn. discriminate.
  - cbn [SkillPath.find].
    destruct (SkillPath.match_at (c :: l)) as [n|] eqn:E.
    + intros [= ->]. exists [], (c :: l). auto.
    + intros H. destruct (IH H) as (pre & l' & -> & Hm).
      exists (c :: pre), l'. auto.
Qed.

Lemma find_None (l : list ascii) :
  SkillPath.find l = None ->
  forall pre l', l = pre ++ l' -> SkillPath.match_at l' = None.
Proof.
  induction l as [|c l IH]; intros H pre l' Heq.
  - symmetry in Heq. apply app_eq_nil in Heq as [_ ->]. reflexivity.
  - cbn [SkillPath.find] in H.
    destruct (SkillPath.match_at (c :: l)) as [n|] eqn:E; [discriminate|].
    destruct pre as [|p pre]; cbn in Heq.
    + now subst l'.
    + injection Heq as -> Heq. exact (IH H pre l' Heq).
Qed.

(** X10.  The name read from a path is not empty and holds no separator;
    it stands in the path right after a segment [skills] and runs up to the
    next separator or the end of the path. *)
Theorem skill_name_is_the_segment_after_skills (filePath name : string) :
  SkillPath.skillName filePath = Some name ->
  name <> ""
  /\ (forall c, In c (Js.chars name) -> SkillPath.isSeparator c = false)
  /\ exists pre s1 s2 post,
       Js.chars filePath
       = pre ++ s1 :: Js.chars "skills" ++ s2 :: Js.chars name ++ post
       /\ SkillPath.isSeparator s1 = true
       /\ SkillPath.isSeparator s2 = true
       /\ match post with
          | c :: _ => SkillPath.isSeparator c = true
          | [] => True
          end.
Proof.
  unfold SkillPath.skillName.
  destruct (SkillPath.find (Js.chars filePath)) as [n|] eqn:E; [|discriminate].
  intros [= <-]. rewrite chars_of_chars.
  apply find_Some in E as (pre & l' & Hp & Hm).
  apply match_at_Some in Hm
    as (s1 & s2 & rest & -> & H1 & H2 & Hne & Hall & Hrest).
  split; [|split].
  - intros H. apply Hne. now rewrite <- (chars_of_chars n), H.
  - exact Hall.
  - exists pre, s1, s2, rest. auto.
Qed.

(** X11.  A path yields no name, so that its record counts as a non-skill
    record, exactly when it has no separator, [skills], separator followed
    by a code unit that is not a separator. *)
Theorem non_skill_paths (filePath : string) :
  SkillPath.skillName filePath = None
  <-> forall pre s1 s2 c post,
        Js.chars filePath = pre ++ s1 :: Js.chars "skills" ++ s2 :: c :: post ->
        SkillPath.isSeparator s1 = true ->
        SkillPath.isSeparator s2 = true ->
        SkillPath.isSeparator c = true.
Proof.
  unfold SkillPath.skillName. split.
  - destruct (SkillPath.find (Js.chars filePath)) as [n|] eqn:E; [discriminate|].
    intros _ pre s1 s2 c post Heq H1 H2.
    destruct (SkillPath.isSeparator c) eqn:Hc; [reflexivity|].
    pose proof (find_None _ E pre _ Heq) as Hnone.
    set (nonsep := fun x => negb (SkillPath.isSeparator x)).
    destruct (takeWhile_spec nonsep post) as (rest & Hpost & Hall & Hrest).
    assert (Hsome : SkillPath.match_at
                      (s1 :: Js.chars "skills" ++ s2 :: c :: post)
                    = Some (c :: SkillPath.takeWhile nonsep post)).
    { apply match_at_Some. exists s1, s2, rest.
      split; [cbn [app]; now rewrite <- Hpost|].
      split; [exact H1|]. split; [exact H2|]. split; [discriminate|]. split.
      - intros x [<-|Hx]; [exact Hc|]. apply Hall in Hx.
        now apply negb_true_iff in Hx.
      - destruct rest; [exact I|]. now apply negb_false_iff in Hrest. }
    congruence.
  - intros H.
    destruct (SkillPath.find (Js.chars filePath)) as [n|] eqn:E; [|reflexivity].
    apply find_Some in E as (pre & l' & Hp & Hm).
    apply match_at_Some in Hm
      as (s1 & s2 & rest & -> & H1 & H2 & Hne & Hall & Hrest).
    destruct n as [|c n]; [contradiction|].
    specialize (H pre s1 s2 c (n ++ rest) Hp H1 H2).
    rewrite (Hall c (or_introl eq_refl)) in H. discriminate.
Qed.

(* ===================================================================== *)
(** * The map of descriptor paths *)
(* ===================================================================== *)

Lemma get_set_same (k v : string) (m : JsMap.t) :
  JsMap.get k (JsMap.set k v m) = Some v.
Proof.
  induction m as [|[k' v'] m IH]; cbn.
  - now rewrite String.eqb_refl.
  - destruct (String.eqb_spec k' k) as [->|Hne]; cbn.
    + now rewrite String.eqb_refl.
    + apply String.eqb_neq in Hne. now rewrite Hne.
Qed.

Lemma get_set_other (k v n : string) (m : JsMap.t) :
  n <> k -> JsMap.get n (JsMap.set k v m) = JsMap.get n m.
Proof.
  intros Hn. induction m as [|[k' v'] m IH]; cbn.
  - apply not_eq_sym, String.eqb_neq in Hn. now rewrite Hn.
  - destruct (String.eqb_spec k' k) as [->|Hne]; cbn.
    + apply not_eq_sym, String.eqb_neq in Hn. now rewrite Hn.
    + now rewrite IH.
Qed.

Lemma keys_set_NoDup (k v : string) (m : JsMap.t) :
  List.NoDup (JsMap.keys m) -> List.NoDup (JsMap.keys (JsMap.set k v m)).
Proof.
  unfold JsMap.keys. induction m as [|[k' v'] m IH]; cbn; intros Hnd.
  - constructor; [intros []|constructor].
  - apply List.NoDup_cons_iff in Hnd as [Hnot Hnd].
    destruct (String.eqb_spec k' k) as [->|Hne]; cbn.
    + constructor; assumption.
    + constructor; [|now apply IH].
      intros Hin. apply (in_keys_set k v k' m) in Hin as [->|Hin]; auto.
Qed.

Lemma partition_snoc (files : list record) (f : record) :
  partition (files ++ [f]) = partitionStep (partition files) f.
Proof. unfold partition. now rewrite fold_left_app. Qed.

Lemma partition_keys_NoDup (files : list record) :
  List.NoDup (JsMap.keys (fst (partition files))).
Proof.
  induction files as [|f files IH] using rev_ind; [constructor|].
  rewrite partition_snoc. destruct (partition files) as [m ns].
  unfold partitionStep.
  destruct (SkillPath.skillName (path_or_empty f)) as [n|]; [|exact IH].
  destruct (Js.endsWith (path_or_empty f) "SKILL.md"); [|exact IH].
  now apply keys_set_NoDup.
Qed.

(** X12.  The names handed to the Selector are distinct, so the hook's
    selection names no candidate twice. *)
Theorem hook_candidates_are_distinct (api : Api) (rt : Runtime)
    (query : string) (files : list record) (st : state) (res : selection)
    (st' : state) :
  selectRelevantSkills api rt query (fst (partition files)) st
  = (Normal res, st') ->
  List.NoDup (JsMap.keys (fst (partition files)))
  /\ List.NoDup (selected res).
Proof.
  intros Hrun. split; [apply partition_keys_NoDup|].
  destruct (selectRelevantSkills_normal _ _ _ _ _ _ _ Hrun)
    as (llm & _ & _ & ->).
  rewrite scoring_loop_selected, exemption_loop_selected.
  cbn [selected app]. rewrite nonExempt_as_filter, filter_filter_andb.
  apply NoDup_filter_app; [apply partition_keys_NoDup|].
  intros x Hx Hy. rewrite Hx in Hy. discriminate.
Qed.

Lemma endsWith_nonempty (s suf : string) :
  Js.endsWith s suf = true -> suf <> "" -> s <> "".
Proof.
  unfold Js.endsWith. intros [Hlen _]%andb_true_iff Hsuf ->.
  apply Nat.leb_le in Hlen. destruct suf; [congruence|cbn in Hlen; lia].
Qed.

(** X13.  The path the map holds for a name is the path of a record of that
    candidate that ends in [SKILL.md], and of the last such record of the
    list; it is never empty, so the Selector always tries to read it. *)
Theorem stored_path_is_last_descriptor (files : list record) (n p : string) :
  JsMap.get n (fst (partition files)) = Some p ->
  Js.endsWith p "SKILL.md" = true
  /\ Js.truthy p = true
  /\ exists before file after,
       files = before ++ file :: after
       /\ Spec.record_path file = p
       /\ Spec.candidate_of file = Some n
       /\ forall g, In g after ->
            Spec.candidate_of g = Some n ->
            Js.endsWith (Spec.record_path g) "SKILL.md" = false.
Proof.
  intros Hget.
  assert (H : Js.endsWith p "SKILL.md" = true
              /\ exists before file after,
                   files = before ++ file :: after
                   /\ Spec.record_path file = p
                   /\ Spec.candidate_of file = Some n
                   /\ forall g, In g after ->
                        Spec.candidate_of g = Some n ->
                        Js.endsWith (Spec.record_path g) "SKILL.md" = false).
  { revert p Hget. induction files as [|f files IH] using rev_ind; intros p.
    - discriminate.
    - rewrite partition_snoc. destruct (partition files) as [m ns].
      cbn [fst] in IH. unfold partitionStep.
      rewrite path_or_empty_record_path. fold (Spec.candidate_of f).
      assert (Hkeep : JsMap.get n m = Some p ->
                      (Spec.candidate_of f = Some n ->
                       Js.endsWith (Spec.record_path f) "SKILL.md" = false) ->
                      Js.endsWith p "SKILL.md" = true
                      /\ exists before file after,
                           files ++ [f] = before ++ file :: after
                           /\ Spec.record_path file = p
                           /\ Spec.candidate_of file = Some n
                           /\ forall g, In g after ->
                                Spec.candidate_of g = Some n ->
                                Js.endsWith (Spec.record_path g) "SKILL.md" = false).
      { intros Hm Hf.
        destruct (IH p Hm) as (He & before & file & after & -> & Hp & Hc & Hafter).
        split; [exact He|]. exists before, file, (after ++ [f]).
        rewrite <- app_assoc. cbn [app]. repeat split; auto.
        intros g [Hg|[<-|[]]]%in_app_or; auto. }
      destruct (Spec.candidate_of f) as [k|] eqn:Hk.
      + destruct (Js.endsWith (Spec.record_path f) "SKILL.md") eqn:He.
        * cbn [fst]. destruct (String.eqb_spec n k) as [->|Hne].
          -- rewrite get_set_same. intros [= <-]. split; [exact He|].
             exists files, f, []. repeat split; auto. intros g [].
          -- rewrite (get_set_other k _ n m Hne). intros Hm.
             apply Hkeep; [exact Hm|]. congruence.
        * cbn [fst]. intros Hm. apply Hkeep; auto.
      + cbn [fst]. intros Hm. apply Hkeep; [exact Hm|discriminate]. }
  destruct H as (He & Hex). split; [exact He|]. split; [|exact Hex].
  assert (p <> "") by (apply (endsWith_nonempty p "SKILL.md" He); discriminate).
  destruct p; [contradiction|reflexivity].
Qed.

(* ===================================================================== *)
(** * The list of all skill names *)
(* ===================================================================== *)

Lemma dedupe_go_In (l acc : list string) (x : string) :
  In x (fold_left (fun acc x => if Js.includes acc x then acc else acc ++ [x])
          l acc)
  <-> In x acc \/ In x l.
Proof.
  revert acc. induction l as [|y l IH]; intros acc; cbn [fold_left].
  - cbn. tauto.
  - rewrite IH. destruct (Js.includes acc y) eqn:E.
    + apply includes_In in E. cbn. split; [tauto|].
      intros [H|[<-|H]]; auto.
    + rewrite in_app_iff. cbn. tauto.
Qed.

Lemma dedupe_go_NoDup (l acc : list string) :
  List.NoDup acc ->
  List.NoDup (fold_left (fun acc x => if Js.includes acc x then acc else acc ++ [x])
                l acc).
Proof.
  revert acc. induction l as [|y l IH]; intros acc Hnd; cbn [fold_left].
  - exact Hnd.
  - apply IH. destruct (Js.includes acc y) eqn:E; [exact Hnd|].
    apply List.NoDup_app; [exact Hnd|constructor; [intros []|constructor]|].
    intros a Ha [<-|[]]. apply includes_In in Ha. congruence.
Qed.

Lemma skillName_nonempty (p n : string) :
  SkillPath.skillName p = Some n -> Js.truthy n = true.
Proof.
  unfold SkillPath.skillName.
  destruct (SkillPath.find (Js.chars p)) as [l|] eqn:E; [|discriminate].
  intros [= <-]. apply find_Some in E as (pre & l' & _ & Hm).
  apply match_at_Some in Hm as (_ & _ & _ & _ & _ & _ & Hne & _).
  destruct l; [contradiction|reflexivity].
Qed.

(** X14.  On a list whose object records all have a path, the list of all
    skill names holds each candidate name of the list once, and the names
    handed to the Selector are among them; an object record with an empty
    path makes the computation throw a TypeError. *)
Theorem allSkillNames_lists_every_candidate (files : list record)
    (st : state) :
  (Forall Spec.has_path files ->
   exists names,
     allSkillNames files st = (Normal names, st)
     /\ List.NoDup names
     /\ (forall n, In n names <-> Spec.is_candidate_name files n)
     /\ (forall n, In n (JsMap.keys (fst (partition files))) -> In n names))
  /\ (~ Forall Spec.has_path files ->
      allSkillNames files st = (Throw TypeError, st)).
Proof.
  split.
  - intros Hfiles. unfold allSkillNames, bind.
    rewrite (forM_path_match_has_path files st Hfiles).
    eexists. split; [reflexivity|].
    assert (Hin : forall n,
               In n (dedupe (List.filter Js.truthy
                               (omap id (map Spec.candidate_of files))))
               <-> Spec.is_candidate_name files n).
    { intros n. unfold dedupe. rewrite dedupe_go_In, filter_In.
      unfold Spec.is_candidate_name. split.
      - intros [[]|[Ho _]].
        apply list_elem_of_In, list_elem_of_omap in Ho as (o & Ho & Hid).
        cbn in Hid. subst o.
        apply list_elem_of_In, in_map_iff in Ho as (file & Hc & Hf). eauto.
      - intros (file & Hf & Hc). right. split.
        + apply list_elem_of_In, list_elem_of_omap.
          exists (Some n). split; [|reflexivity].
          apply list_elem_of_In, in_map_iff. eauto.
        + exact (skillName_nonempty _ _ Hc). }
    split; [|split].
    + apply dedupe_go_NoDup. constructor.
    + exact Hin.
    + intros n Hn. apply Hin.
      apply candidates_have_descriptors in Hn as (file & Hf & Hc & _).
      exists file. auto.
  - intros Hnot. unfold allSkillNames, bind.
    now rewrite (forM_path_match_throws files st Hnot).
Qed.

(* ===================================================================== *)
(** * The four outcomes of the hook *)
(* ===================================================================== *)

(** X15.  A call of the hook ends in one of four ways.  Without a query
    the list and the log stay as they are.  With a query and an object
    record whose path is empty, the list stays as it is and a TypeError is
    logged.  With a query, paths in all records and a batched call that is
    made and rejected with [undefined] or [null], the list stays as it is
    and a TypeError is logged.  Otherwise the Selector returns and the list
    is rewritten to the non-skill records, the records of the selected
    candidates and the report. *)
Theorem hook_has_four_outcomes (api : Api) (rt : Runtime) (ev : event)
    (st : state) :
  let sf := fst (partition (bootstrapFiles st)) in
  let nonExempt := nonExemptCandidates api (JsMap.keys sf) in
  let req := request (routerModel api) (query_of ev) nonExempt in
  let unchanged_with_error :=
    (Normal tt, mkState (bootstrapFiles st) (log st ++ [LogError TypeError])) in
  (Js.truthy (query_of ev) = false /\ hook api rt ev st = (Normal tt, st))
  \/ (Js.truthy (query_of ev) = true
      /\ ~ Forall Spec.has_path (bootstrapFiles st)
      /\ hook api rt ev st = unchanged_with_error)
  \/ (Js.truthy (query_of ev) = true
      /\ Forall Spec.has_path (bootstrapFiles st)
      /\ (nonExempt <> [] /\ Spec.rejected_without_reason api req)
      /\ hook api rt ev st = unchanged_with_error)
  \/ (Js.truthy (query_of ev) = true
      /\ Forall Spec.has_path (bootstrapFiles st)
      /\ ~ (nonExempt <> [] /\ Spec.rejected_without_reason api req)
      /\ exists res st',
           selectRelevantSkills api rt (query_of ev) sf st = (Normal res, st')
           /\ hook api rt ev st
              = (Normal tt,
                 mkState (Spec.rewritten (bootstrapFiles st) (selected res))
                   (log st'))).
Proof.
  cbv zeta.
  destruct (hook_outcome_cases api rt ev st)
    as [H|[H|[(Hq & Hp & Hs & H)|(Hq & Hp & res & st' & Hs & H)]]].
  - left. exact H.
  - right. left. exact H.
  - right. right. left.
    apply selectRelevantSkills_throws in Hs as (_ & _ & Hne & Hrej). auto.
  - right. right. right. split; [exact Hq|]. split; [exact Hp|]. split.
    + intros [Hne Hrej].
      destruct (selectRelevantSkills_normal _ _ _ _ _ _ _ Hs) as (llm & Hllm & _).
      rewrite (nullish_rejection_throws api rt (query_of ev) _ st Hne Hrej)
        in Hllm. discriminate.
    + eauto.
Qed.

(* ===================================================================== *)
(** * What the hook never does *)
(* ===================================================================== *)

Lemma filter_none {A} (f : A -> bool) (l : list A) :
  (forall x, In x l -> f x = false) -> List.filter f l = [].
Proof.
  induction l as [|x l IH]; intros H; [reflexivity|]. cbn.
  rewrite (H x (or_introl eq_refl)). apply IH. intros y Hy. apply H. now right.
Qed.

Lemma filter_all {A} (f : A -> bool) (l : list A) :
  (forall x, In x l -> f x = true) -> List.filter f l = l.
Proof.
  induction l as [|x l IH]; intros H; [reflexivity|]. cbn.
  rewrite (H x (or_introl eq_refl)). f_equal. apply IH.
  intros y Hy. apply H. now right.
Qed.

Lemma filter_disjoint_length {A} (f g : A -> bool) (l : list A) :
  (forall x, f x = true -> g x = true -> False) ->
  (length (List.filter f l) + length (List.filter g l) <= length l)%nat.
Proof.
  intros Hfg. induction l as [|x l IH]; [cbn; lia|]. cbn.
  destruct (f x) eqn:F, (g x) eqn:G; cbn; try lia.
  destruct (Hfg x F G).
Qed.

Lemma report_is_non_skill (sel : list string) :
  Spec.is_non_skill (report sel) = true.
Proof. reflexivity. Qed.

Lemma selected_skill_is_skill (sel : list string) (f : record) :
  Spec.is_selected_skill sel f = true -> Spec.is_non_skill f = false.
Proof.
  unfold Spec.is_selected_skill, Spec.is_non_skill.
  destruct (Spec.candidate_of f); [reflexivity|discriminate].
Qed.

Lemma non_skill_of_rewritten (files : list record) (sel : list string) :
  List.filter Spec.is_non_skill (Spec.rewritten files sel)
  = List.filter Spec.is_non_skill files
    ++ match sel with _ :: _ => [report sel] | [] => [] end.
Proof.
  unfold Spec.rewritten. rewrite !List.filter_app. f_equal; [|].
  - apply filter_all. intros x Hx. now apply filter_In in Hx.
  - rewrite (filter_none Spec.is_non_skill
               (List.filter (Spec.is_selected_skill sel) files)).
    + destruct sel; reflexivity.
    + intros x Hx. apply filter_In in Hx as [_ Hx].
      now apply selected_skill_is_skill in Hx.
Qed.

(** X16.  Whatever the event, the collaborator and the descriptors are,
    the hook keeps every non-skill record, in the original order; the only
    non-skill record it can add is one report at the end. *)
Theorem non_skill_records_survive (api : Api) (rt : Runtime) (ev : event)
    (st : state) :
  exists st' extra,
    hook api rt ev st = (Normal tt, st')
    /\ List.filter Spec.is_non_skill (bootstrapFiles st')
       = List.filter Spec.is_non_skill (bootstrapFiles st) ++ extra
    /\ (extra = [] \/ exists sel, extra = [report sel]).
Proof.
  destruct (hook_outcome_cases api rt ev st)
    as [[_ H]|[(_ & _ & H)|[(_ & _ & _ & H)|(_ & _ & res & st' & _ & H)]]].
  - exists st, []. rewrite app_nil_r. auto.
  - eexists _, []. split; [exact H|]. cbn. rewrite app_nil_r. auto.
  - eexists _, []. split; [exact H|]. cbn. rewrite app_nil_r. auto.
  - eexists _, _. split; [exact H|]. cbn [bootstrapFiles].
    split; [apply non_skill_of_rewritten|].
    destruct (selected res); eauto.
Qed.

(** X17.  The hook invents nothing: each record of the list it leaves is a
    record of the list it was given or the report, and the list grows by at
    most one record. *)
Theorem hook_only_removes_or_reports (api : Api) (rt : Runtime) (ev : event)
    (st : state) :
  exists st',
    hook api rt ev st = (Normal tt, st')
    /\ (forall f, In f (bootstrapFiles st') ->
          In f (bootstrapFiles st) \/ exists sel, f = report sel)
    /\ (length (bootstrapFiles st') <= length (bootstrapFiles st) + 1)%nat.
Proof.
  destruct (hook_outcome_cases api rt ev st)
    as [[_ H]|[(_ & _ & H)|[(_ & _ & _ & H)|(_ & _ & res & st' & _ & H)]]].
  - exists st. split; [exact H|]. split; [auto|lia].
  - eexists. split; [exact H|]. cbn. split; [auto|lia].
  - eexists. split; [exact H|]. cbn. split; [auto|lia].
  - eexists. split; [exact H|]. cbn [bootstrapFiles]. unfold Spec.rewritten.
    split.
    + intros f [Hf|[Hf|Hf]%in_app_or]%in_app_or.
      * left. now apply filter_In in Hf.
      * left. now apply filter_In in Hf.
      * right. destruct (selected res); [destruct Hf|].
        destruct Hf as [<-|[]]. eauto.
    + rewrite !length_app.
      pose proof (filter_disjoint_length Spec.is_non_skill
                    (Spec.is_selected_skill (selected res)) (bootstrapFiles st)) as Hl.
      assert (Hdis : forall x, Spec.is_non_skill x = true ->
                               Spec.is_selected_skill (selected res) x = true -> False).
      { intros x Hn Hs. apply selected_skill_is_skill in Hs. congruence. }
      specialize (Hl Hdis).
      destruct (selected res); cbn [length]; lia.
Qed.

Lemma kept_iff_selected (files : list record) (sel : list string)
    (f : record) (n : string) :
  In f files -> Spec.candidate_of f = Some n ->
  (In f (Spec.rewritten files sel) <-> Js.includes sel n = true).
Proof.
  intros Hin Hc. unfold Spec.rewritten. rewrite !in_app_iff, !filter_In.
  unfold Spec.is_non_skill, Spec.is_selected_skill. rewrite Hc. split.
  - intros [[_ H]|[[_ H]|H]]; [discriminate|exact H|].
    destruct sel; [destruct H|]. destruct H as [<-|[]]. discriminate.
  - intros H. right. left. auto.
Qed.

(** X18.  The records of one candidate stay together: after the hook, two
    records of the given list that belong to the same candidate are both in
    the list or both gone. *)
Theorem candidate_records_stay_together (api : Api) (rt : Runtime)
    (ev : event) (st : state) (f g : record) (n : string) :
  In f (bootstrapFiles st) -> In g (bootstrapFiles st) ->
  Spec.candidate_of f = Some n -> Spec.candidate_of g = Some n ->
  exists st',
    hook api rt ev st = (Normal tt, st')
    /\ (In f (bootstrapFiles st') <-> In g (bootstrapFiles st')).
Proof.
  intros Hf Hg Hcf Hcg.
  destruct (hook_outcome_cases api rt ev st)
    as [[_ H]|[(_ & _ & H)|[(_ & _ & _ & H)|(_ & _ & res & st' & _ & H)]]].
  - exists st. split; [exact H|tauto].
  - eexists. split; [exact H|cbn; tauto].
  - eexists. split; [exact H|cbn; tauto].
  - eexists. split; [exact H|]. cbn [bootstrapFiles].
    now rewrite (kept_iff_selected _ _ f n Hf Hcf),
      (kept_iff_selected _ _ g n Hg Hcg).
Qed.

(* ===================================================================== *)
(** * Descriptor headers *)
(* ===================================================================== *)

Lemma is_prefix_skipn (needle l : list ascii) :
  Frontmatter.is_prefix needle l = true ->
  l = needle ++ skipn (length needle) l.
Proof.
  revert l. induction needle as [|a needle IH]; intros l H; [reflexivity|].
  destruct l as [|b l]; [discriminate|]. cbn in H.
  apply andb_true_iff in H as [->%Ascii.eqb_eq H]. cbn. f_equal. now apply IH.
Qed.

Lemma cut_Some (needle l before after : list ascii) :
  Frontmatter.cut needle l = Some (before, after) ->
  l = before ++ needle ++ after.
Proof.
  revert before. induction l as [|c l IH]; intros before.
  - cbn [Frontmatter.cut].
    destruct (Frontmatter.is_prefix needle []) eqn:E; [|discriminate].
    intros [= <- <-]. now apply is_prefix_skipn.
  - cbn [Frontmatter.cut].
    destruct (Frontmatter.is_prefix needle (c :: l)) eqn:E.
    + intros [= <- <-]. now apply is_prefix_skipn.
    + destruct (Frontmatter.cut needle l) as [[b a]|]; [|discriminate].
      intros [= <- <-]. cbn [app]. f_equal. now apply IH.
Qed.

(** X19.  A content that does not hold [---] twice, one after the other,
    has no header: both fields of its metadata are empty. *)
Theorem no_header_gives_empty_metadata (content : string) :
  (forall a b c,
     Js.chars content
     <> a ++ Frontmatter.dashes ++ b ++ Frontmatter.dashes ++ c) ->
  parseSkillMetadata content = mkMeta "" "".
Proof.
  intros Hno. unfold parseSkillMetadata, Frontmatter.frontmatterMatch.
  destruct (Frontmatter.cut Frontmatter.dashes (Js.chars content))
    as [[pre rest]|] eqn:E1; [|reflexivity].
  destruct (Frontmatter.cut Frontmatter.dashes (Js.trimStart_chars rest))
    as [[body after]|] eqn:E2; [|reflexivity].
  apply cut_Some in E1, E2.
  destruct (dropWhile_suffix CodeUnit.isWhiteSpace rest) as (ws & Hws).
  fold (Js.trimStart_chars rest) in Hws.
  destruct (Hno pre (ws ++ body) after).
  rewrite E1, Hws, E2, <- !app_assoc. reflexivity.
Qed.

Lemma last_rev_head {A} (l : list A) : last (rev l) = head l.
Proof. destruct l as [|c l]; [reflexivity|]. cbn [rev]. apply last_snoc. Qed.

(** The ends of a trimmed text are not white space. *)
Lemma trim_ends (s : string) :
  (forall c, head (Js.chars (Js.trim s)) = Some c ->
             CodeUnit.isWhiteSpace c = false)
  /\ (forall c, last (Js.chars (Js.trim s)) = Some c ->
                CodeUnit.isWhiteSpace c = false).
Proof.
  unfold Js.trim, Js.trimEnd_chars, Js.trimStart_chars.
  rewrite chars_of_chars.
  set (l1 := Js.dropWhile CodeUnit.isWhiteSpace (Js.chars s)).
  destruct (dropWhile_spec CodeUnit.isWhiteSpace (Js.chars s))
    as (pre & _ & _ & Hhead1). fold l1 in Hhead1.
  destruct (dropWhile_spec CodeUnit.isWhiteSpace (rev l1))
    as (x & Hx & _ & Hhead2).
  set (d := Js.dropWhile CodeUnit.isWhiteSpace (rev l1)) in *.
  assert (Hl1 : l1 = rev d ++ rev x).
  { rewrite <- (rev_involutive l1), Hx, rev_app_distr. reflexivity. }
  split.
  - intros c Hc. destruct (rev d) as [|c' r] eqn:Hr; [discriminate|].
    cbn in Hc. injection Hc as ->. rewrite Hl1 in Hhead1. exact Hhead1.
  - intros c Hc. rewrite last_rev_head in Hc.
    destruct d as [|c' d']; [discriminate|]. cbn in Hc. injection Hc as ->.
    exact Hhead2.
Qed.

(** A header line leaves a field as it is or sets it to a trimmed text. *)
Lemma parse_line_fields (meta : SkillMetadata) (line : string) :
  (meta_name (Frontmatter.parse_line meta line) = meta_name meta
   \/ exists t, meta_name (Frontmatter.parse_line meta line) = Js.trim t)
  /\ (meta_description (Frontmatter.parse_line meta line)
      = meta_description meta
      \/ exists t, meta_description (Frontmatter.parse_line meta line)
                   = Js.trim t).
Proof.
  unfold Frontmatter.parse_line. cbv zeta.
  destruct (String.index 0 ":" (Js.trim line)) as [i|];
    repeat match goal with
           | |- context [if ?b then _ else _] => destruct b
           end; cbn;
    split; first [left; reflexivity | right; eexists; reflexivity].
Qed.

(** X20.  The name and the description read from a descriptor never start
    or end with white space. *)
Theorem metadata_fields_are_trimmed (content : string) :
  Header.trimmed (meta_name (parseSkillMetadata content))
  /\ Header.trimmed (meta_description (parseSkillMetadata content)).
Proof.
  assert (Hline : forall meta line,
             Header.trimmed (meta_name meta) ->
             Header.trimmed (meta_description meta) ->
             Header.trimmed (meta_name (Frontmatter.parse_line meta line))
             /\ Header.trimmed
                  (meta_description (Frontmatter.parse_line meta line))).
  { intros meta line Hn Hd.
    destruct (parse_line_fields meta line) as [[->|(t & ->)] [->|(u & ->)]];
      split; auto; apply trim_ends. }
  assert (Hfold : forall lines meta,
             Header.trimmed (meta_name meta) ->
             Header.trimmed (meta_description meta) ->
             Header.trimmed
               (meta_name (fold_left Frontmatter.parse_line lines meta))
             /\ Header.trimmed
                  (meta_description
                     (fold_left Frontmatter.parse_line lines meta))).
  { induction lines as [|line lines IH]; intros meta Hn Hd; [auto|].
    cbn [fold_left]. destruct (Hline meta line Hn Hd). now apply IH. }
  assert (Hempty : Header.trimmed "") by (split; intros c; discriminate).
  unfold parseSkillMetadata.
  destruct (Frontmatter.frontmatterMatch content); [|cbn; auto].
  apply Hfold; exact Hempty.
Qed.

Lemma dropWhile_In (f : ascii -> bool) (l : list ascii) (x : ascii) :
  In x (Js.dropWhile f l) -> In x l.
Proof.
  destruct (dropWhile_suffix f l) as (pre & H). intros Hx.
  rewrite H. apply in_or_app. now right.
Qed.

Lemma trim_In (s : string) (x : ascii) :
  In x (Js.chars (Js.trim s)) -> In x (Js.chars s).
Proof.
  unfold Js.trim, Js.trimEnd_chars, Js.trimStart_chars.
  rewrite chars_of_chars. intros H%in_rev%dropWhile_In%in_rev.
  exact (dropWhile_In _ _ _ H).
Qed.

Lemma index_colon_None (t : string) :
  ~ In ":"%char (Js.chars t) -> String.index 0 ":" t = None.
Proof.
  induction t as [|b t IH]; intros Hno; [reflexivity|].
  cbn [String.index String.prefix].
  destruct (ascii_dec ":" b) as [<-|Hb].
  - destruct Hno. now left.
  - rewrite IH; [reflexivity|]. intros H. apply Hno. now right.
Qed.

(** X21.  A header line without a colon, a blank line among them, changes
    nothing. *)
Theorem line_without_colon_is_ignored (meta : SkillMetadata) (line : string) :
  ~ In ":"%char (Js.chars line) ->
  Frontmatter.parse_line meta line = meta.
Proof.
  intros Hno. unfold Frontmatter.parse_line.
  destruct (negb (Js.truthy (Js.trim line)) || String.eqb (Js.trim line) "---");
    [reflexivity|].
  rewrite index_colon_None; [reflexivity|].
  intros H. apply Hno. exact (trim_In _ _ H).
Qed.

(* ===================================================================== *)
(** * Reading back a rendered header *)
(* ===================================================================== *)

Lemma substring_all (v : string) : String.substring 0 (String.length v) v = v.
Proof. induction v as [|c v IH]; cbn; [reflexivity|now rewrite IH]. Qed.

Lemma dropWhile_stays (f : ascii -> bool) (l : list ascii) :
  (forall c, head l = Some c -> f c = false) -> Js.dropWhile f l = l.
Proof.
  destruct l as [|c l]; intros H; [reflexivity|]. cbn.
  now rewrite (H c eq_refl).
Qed.

Lemma head_rev_last {A} (l : list A) : head (rev l) = last l.
Proof. now rewrite <- last_rev_head, rev_involutive. Qed.

Lemma trimEnd_stays (l : list ascii) :
  (forall c, last l = Some c -> CodeUnit.isWhiteSpace c = false) ->
  Js.trimEnd_chars l = l.
Proof.
  intros H. unfold Js.trimEnd_chars. rewrite dropWhile_stays.
  - apply rev_involutive.
  - intros c Hc. apply H. now rewrite <- head_rev_last.
Qed.

Lemma trimEnd_snoc_space (l : list ascii) (c : ascii) :
  CodeUnit.isWhiteSpace c = true ->
  Js.trimEnd_chars (l ++ [c]) = Js.trimEnd_chars l.
Proof.
  intros Hc. unfold Js.trimEnd_chars. rewrite rev_app_distr. cbn.
  now rewrite Hc.
Qed.

Lemma trimmed_trim (v : string) : Header.trimmed v -> Js.trim v = v.
Proof.
  intros [Hh Hl]. unfold Js.trim, Js.trimStart_chars.
  rewrite (dropWhile_stays _ _ Hh), (trimEnd_stays _ Hl).
  apply of_chars_chars.
Qed.

Lemma trim_after_space (v : string) :
  Header.trimmed v -> Js.trim (String " " v) = v.
Proof.
  intros [Hh Hl]. unfold Js.trim, Js.trimStart_chars.
  change (Js.chars (String " " v)) with (" "%char :: Js.chars v).
  cbn [Js.dropWhile].
  change (CodeUnit.isWhiteSpace " ") with true. cbn iota.
  rewrite (dropWhile_stays _ _ Hh), (trimEnd_stays _ Hl).
  apply of_chars_chars.
Qed.

Lemma split_lines_go_line (x rest tok : list ascii) :
  ~ In "010"%char x ->
  (forall c, last x = Some c -> c <> "013"%char) ->
  Js.split_lines_go tok (x ++ "010"%char :: rest)
  = Js.of_chars (rev tok ++ x) :: Js.split_lines_go [] rest.
Proof.
  revert tok. induction x as [|c x IH]; intros tok Hlf Hcr.
  - cbn. now rewrite app_nil_r.
  - cbn [app Js.split_lines_go].
    assert (Hc : Ascii.eqb c "010" = false).
    { apply Ascii.eqb_neq. intros ->. apply Hlf. now left. }
    rewrite Hc.
    assert (Hx : ~ In "010"%char x) by (intros H; apply Hlf; now right).
    assert (Hgo : Js.split_lines_go (c :: tok) (x ++ "010"%char :: rest)
                  = Js.of_chars (rev tok ++ c :: x) :: Js.split_lines_go [] rest).
    { rewrite IH; [|exact Hx|].
      - cbn [rev]. now rewrite <- app_assoc.
      - intros d Hd. apply Hcr. rewrite last_cons, Hd. reflexivity. }
    destruct x as [|d x]; cbn [app].
    + assert (Hcr' : Ascii.eqb c "013" = false).
      { apply Ascii.eqb_neq. now apply Hcr. }
      rewrite Hcr'. cbn [andb]. exact Hgo.
    + assert (Hd : Ascii.eqb d "010" = false).
      { apply Ascii.eqb_neq. intros ->. apply Hx. now left. }
      rewrite Hd, andb_false_r. exact Hgo.
Qed.

Lemma split_lines_go_last (x tok : list ascii) :
  ~ In "010"%char x ->
  Js.split_lines_go tok x = [Js.of_chars (rev tok ++ x)].
Proof.
  revert tok. induction x as [|c x IH]; intros tok Hlf.
  - cbn. now rewrite app_nil_r.
  - cbn [Js.split_lines_go].
    assert (Hc : Ascii.eqb c "010" = false).
    { apply Ascii.eqb_neq. intros ->. apply Hlf. now left. }
    rewrite Hc.
    assert (Hx : ~ In "010"%char x) by (intros H; apply Hlf; now right).
    assert (Hgo : Js.split_lines_go (c :: tok) x
                  = [Js.of_chars (rev tok ++ c :: x)]).
    { rewrite IH; [|exact Hx]. cbn [rev]. now rewrite <- app_assoc. }
    destruct x as [|d x]; [exact Hgo|].
    assert (Hd : Ascii.eqb d "010" = false).
    { apply Ascii.eqb_neq. intros ->. apply Hx. now left. }
    rewrite Hd, andb_false_r. exact Hgo.
Qed.

Lemma cut_None_dash_free (l : list ascii) :
  Frontmatter.cut Frontmatter.dashes l = None -> Header.dash_free l.
Proof.
  intros Hcut a. revert l Hcut. induction a as [|c a IH]; intros l Hcut b ->.
  - cbn [app] in Hcut.
    assert (E : Frontmatter.is_prefix Frontmatter.dashes
                  (Frontmatter.dashes ++ b) = true)
      by (apply is_prefix_true; eauto).
    destruct b; cbn in Hcut; discriminate.
  - cbn [app Frontmatter.cut] in Hcut.
    destruct (Frontmatter.is_prefix Frontmatter.dashes
                (c :: a ++ Frontmatter.dashes ++ b)); [discriminate|].
    destruct (Frontmatter.cut Frontmatter.dashes (a ++ Frontmatter.dashes ++ b))
      as [[x y]|] eqn:E; [discriminate|].
    exact (IH _ E b eq_refl).
Qed.

Lemma dash_free_app (x y : list ascii) :
  Header.dash_free x -> Header.dash_free y ->
  (forall c, last x = Some c -> c <> "-"%char)
  \/ (forall c, head y = Some c -> c <> "-"%char) ->
  Header.dash_free (x ++ y).
Proof.
  intros Hx Hy Hjoin a b Heq.
  apply app_eq_app in Heq as (l & [[Hxa Hl]|[Ha Hyl]]).
  - assert (Hstraddle : forall l0 y0,
               x = a ++ l0 -> l0 <> [] -> last l0 = Some "-"%char ->
               y = "-"%char :: y0 -> False).
    { intros l0 y0 Hx0 Hne Hlast Hy0.
      destruct Hjoin as [Hj|Hj].
      - apply (Hj "-"%char); [|reflexivity].
        rewrite Hx0, last_app, Hlast. reflexivity.
      - apply (Hj "-"%char); [|reflexivity]. now rewrite Hy0. }
    destruct l as [|l0 [|l1 [|l2 l']]]; cbn in Hl.
    + apply (Hy [] b). now rewrite <- Hl.
    + injection Hl as <- Hl.
      eapply (Hstraddle ["-"%char] _ Hxa); [discriminate|reflexivity|].
      symmetry. exact Hl.
    + injection Hl as <- <- Hl.
      eapply (Hstraddle ["-"%char; "-"%char] _ Hxa);
        [discriminate|reflexivity|]. symmetry. exact Hl.
    + injection Hl as <- <- <- Hl. apply (Hx a l'). exact Hxa.
  - apply (Hy l b). exact Hyl.
Qed.

Lemma cut_at_first (a b : list ascii) :
  Header.dash_free a ->
  (forall c, last a = Some c -> c <> "-"%char) ->
  Frontmatter.cut Frontmatter.dashes (a ++ Frontmatter.dashes ++ b)
  = Some (a, b).
Proof.
  induction a as [|c a IH]; intros Hfree Hlast.
  - cbn [app]. destruct b; reflexivity.
  - cbn [app Frontmatter.cut].
    assert (E : Frontmatter.is_prefix Frontmatter.dashes
                  (c :: a ++ Frontmatter.dashes ++ b) = false).
    { destruct (Frontmatter.is_prefix _ _) eqn:E; [|reflexivity].
      apply is_prefix_true in E as (rest & E).
      destruct a as [|c2 [|c3 a]]; cbn in E.
      - injection E as -> _. destruct (Hlast "-"%char); reflexivity.
      - injection E as -> -> _. destruct (Hlast "-"%char); reflexivity.
      - injection E as -> -> -> _. destruct (Hfree [] a). reflexivity. }
    rewrite E, IH; [reflexivity| |].
    + intros x y Hxy. apply (Hfree (c :: x) y). now rewrite Hxy.
    + intros d Hd. apply Hlast. rewrite last_cons, Hd. reflexivity.
Qed.

Lemma parse_line_of_parts (meta : SkillMetadata) (line k v : string) (i : nat) :
  Js.trim line = line ->
  Js.truthy line = true ->
  String.eqb line "---" = false ->
  String.index 0 ":" line = Some i ->
  Js.toLowerCase (Js.trim (String.substring 0 i line)) = k ->
  Js.trim (String.substring (i + 1) (String.length line - (i + 1)) line) = v ->
  Header.unquoted v ->
  Frontmatter.parse_line meta line
  = let meta' :=
      if String.eqb k "name" then mkMeta v (meta_description meta) else meta in
    if String.eqb k "description" then mkMeta (meta_name meta') v else meta'.
Proof.
  intros Htrim Htruthy Heqb Hidx Hk Hv Hunq.
  unfold Frontmatter.parse_line. cbv zeta.
  rewrite Htrim, Htruthy, Heqb. cbn [negb orb]. rewrite Hidx, Hk, Hv.
  unfold Header.unquoted in Hunq. rewrite Hunq. reflexivity.
Qed.

Lemma last_after_prefix (pre l : list ascii) :
  l <> [] -> last (pre ++ l) = last l.
Proof.
  intros Hne. rewrite last_app. destruct (last l) eqn:E; [reflexivity|].
  apply last_None in E. contradiction.
Qed.

Lemma chars_nonempty (s : string) : s <> "" -> Js.chars s <> [].
Proof. destruct s; [congruence|discriminate]. Qed.

Lemma parse_line_name (meta : SkillMetadata) (v : string) :
  Header.plain v ->
  Frontmatter.parse_line meta ("name: " ++ v)
  = mkMeta v (meta_description meta).
Proof.
  intros (Hne & [Hh Hl] & _ & _ & Hunq).
  change ("name: " ++ v)%string
    with (String "n" (String "a" (String "m" (String "e"
            (String ":" (String " " v)))))).
  rewrite (parse_line_of_parts meta _ "name" v 4); try reflexivity.
  - apply trimmed_trim. split.
    + intros c [= <-]. reflexivity.
    + intros c Hc. apply Hl.
      change (Js.chars (String "n" (String "a" (String "m" (String "e"
                (String ":" (String " " v)))))))
        with (Js.chars "name: " ++ Js.chars v) in Hc.
      now rewrite (last_after_prefix _ _ (chars_nonempty v Hne)) in Hc.
  - change (Js.trim (String " " (String.substring 0 (String.length v) v)) = v).
    rewrite substring_all. apply trim_after_space. now split.
  - exact Hunq.
Qed.

Lemma parse_line_description (meta : SkillMetadata) (v : string) :
  Header.plain v ->
  Frontmatter.parse_line meta ("description: " ++ v)
  = mkMeta (meta_name meta) v.
Proof.
  intros (Hne & [Hh Hl] & _ & _ & Hunq).
  change ("description: " ++ v)%string
    with (String "d" (String "e" (String "s" (String "c" (String "r"
            (String "i" (String "p" (String "t" (String "i" (String "o"
            (String "n" (String ":" (String " " v))))))))))))).
  rewrite (parse_line_of_parts meta _ "description" v 11); try reflexivity.
  - apply trimmed_trim. split.
    + intros c [= <-]. reflexivity.
    + intros c Hc. apply Hl.
      change (Js.chars (String "d" (String "e" (String "s" (String "c"
                (String "r" (String "i" (String "p" (String "t" (String "i"
                (String "o" (String "n" (String ":" (String " " v))))))))))))))
        with (Js.chars "description: " ++ Js.chars v) in Hc.
      now rewrite (last_after_prefix _ _ (chars_nonempty v Hne)) in Hc.
  - change (Js.trim (String " " (String.substring 0 (String.length v) v)) = v).
    rewrite substring_all. apply trim_after_space. now split.
  - exact Hunq.
Qed.

Lemma plain_value_line (key v : string) :
  Header.plain v ->
  Frontmatter.cut Frontmatter.dashes (Js.chars key) = None ->
  ~ In "010"%char (Js.chars key) ->
  last (Js.chars key) = Some " "%char ->
  let line := Js.chars key ++ Js.chars v in
  Header.dash_free line
  /\ ~ In "010"%char line
  /\ (forall c, last line = Some c -> CodeUnit.isWhiteSpace c = false).
Proof.
  intros (Hne & [_ Hl] & Hsingle & Hfree & _) Hkey Hlf Hlast line.
  split; [|split].
  - apply dash_free_app; [now apply cut_None_dash_free|exact Hfree|].
    left. intros c Hc. rewrite Hlast in Hc. injection Hc as <-. discriminate.
  - intros [H|H]%in_app_or; [now apply Hlf|now apply Hsingle].
  - intros c Hc. apply Hl. unfold line in Hc.
    now rewrite (last_after_prefix _ _ (chars_nonempty v Hne)) in Hc.
Qed.

(** X22.  A header written with a name and a description that are plain
    (not empty, trimmed, on one line, without [---] and not wrapped in
    quotes) is read back as that name and that description, whatever
    follows the closing [---]. *)
Theorem rendered_header_is_read_back (name description body : string) :
  Header.plain name -> Header.plain description ->
  parseSkillMetadata (Header.render name description ++ body)
  = mkMeta name description.
Proof.
  intros Hn Hd.
  destruct (plain_value_line "name: " name Hn eq_refl)
    as (Hfree1 & Hlf1 & Hlast1).
  { intros H. cbn in H. intuition discriminate. }
  { reflexivity. }
  destruct (plain_value_line "description: " description Hd eq_refl)
    as (Hfree2 & Hlf2 & Hlast2).
  { intros H. cbn in H. intuition discriminate. }
  { reflexivity. }
  set (l1 := Js.chars "name: " ++ Js.chars name) in *.
  set (l2 := Js.chars "description: " ++ Js.chars description) in *.
  assert (Hne1 : l1 <> []) by discriminate.
  assert (Hne2 : l2 <> []) by discriminate.
  assert (Hchars : Js.chars (Header.render name description ++ body)
                   = Frontmatter.dashes
                       ++ "010"%char
                          :: ((l1 ++ "010"%char :: l2) ++ ["010"%char])
                             ++ Frontmatter.dashes ++ Js.chars body).
  { unfold Header.render, lf, l1, l2. rewrite !chars_app.
    change (Js.chars "---") with Frontmatter.dashes.
    change (Js.chars (String "010" "")) with ["010"%char].
    rewrite <- !app_assoc. reflexivity. }
  unfold parseSkillMetadata, Frontmatter.frontmatterMatch.
  rewrite Hchars.
  assert (Hcut1 : forall rest,
             Frontmatter.cut Frontmatter.dashes (Frontmatter.dashes ++ rest)
             = Some ([], rest)).
  { intros rest. apply (cut_at_first [] rest).
    - intros a b H. destruct a; discriminate.
    - intros c H. discriminate. }
  rewrite Hcut1.
  assert (Hstart : forall rest,
             Js.trimStart_chars ("010"%char :: (l1 ++ rest)) = l1 ++ rest)
    by reflexivity.
  rewrite <- !app_assoc. cbn [app]. rewrite Hstart.
  assert (Hbody : Header.dash_free (l1 ++ "010"%char :: l2 ++ ["010"%char])).
  { apply dash_free_app; [exact Hfree1| |right; intros c [= <-]; discriminate].
    apply (dash_free_app ["010"%char] (l2 ++ ["010"%char])).
    - intros a b H. destruct a as [|? [|? ?]]; discriminate.
    - apply dash_free_app; [exact Hfree2| |right; intros c [= <-]; discriminate].
      intros a b H. destruct a as [|? [|? ?]]; discriminate.
    - left. intros c [= <-]. discriminate. }
  assert (Hcut2 : Frontmatter.cut Frontmatter.dashes
                    (l1 ++ "010"%char :: l2
                       ++ "010"%char :: Frontmatter.dashes ++ Js.chars body)
                  = Some (l1 ++ "010"%char :: l2 ++ ["010"%char], Js.chars body)).
  { rewrite <- (cut_at_first (l1 ++ "010"%char :: l2 ++ ["010"%char])
                  (Js.chars body) Hbody).
    - rewrite <- !app_assoc. cbn [app]. rewrite <- !app_assoc. reflexivity.
    - intros c Hc.
      change (l1 ++ "010"%char :: l2 ++ ["010"%char])
        with (l1 ++ ("010"%char :: l2) ++ ["010"%char]) in Hc.
      rewrite app_assoc, last_snoc in Hc. injection Hc as <-. discriminate. }
  rewrite Hcut2.
  assert (Hend : Js.trimEnd_chars (l1 ++ "010"%char :: l2 ++ ["010"%char])
                 = l1 ++ "010"%char :: l2).
  { change (l1 ++ "010"%char :: l2 ++ ["010"%char])
      with (l1 ++ ("010"%char :: l2) ++ ["010"%char]).
    rewrite app_assoc, trimEnd_snoc_space by reflexivity.
    apply trimEnd_stays. intros c Hc. apply Hlast2.
    change (l1 ++ "010"%char :: l2) with (l1 ++ ["010"%char] ++ l2) in Hc.
    now rewrite app_assoc, (last_after_prefix _ _ Hne2) in Hc. }
  rewrite Hend. unfold Js.split_lines. rewrite chars_of_chars.
  rewrite split_lines_go_line; [|exact Hlf1|].
  - rewrite split_lines_go_last by exact Hlf2. cbn [rev app fold_left].
    unfold l1, l2. rewrite !of_chars_app, !of_chars_chars.
    change (Js.of_chars (Js.chars "name: ")) with "name: ".
    change (Js.of_chars (Js.chars "description: ")) with "description: ".
    rewrite (parse_line_name _ name Hn).
    rewrite (parse_line_description _ description Hd). reflexivity.
  - intros c Hc ->. now specialize (Hlast1 _ Hc).
Qed.

(* ===================================================================== *)
(** * Keywords of a query in two parts *)
(* ===================================================================== *)

Lemma long_pieces_after_gap (l : list ascii) :
  List.filter (fun w => (2 <? String.length w)%nat) (Js.split_ws_go true [] l)
  = List.filter (fun w => (2 <? String.length w)%nat)
      (Js.split_ws_go false [] l).
Proof.
  destruct l as [|c l]; [reflexivity|]. cbn [Js.split_ws_go].
  destruct (CodeUnit.isWhiteSpace c); reflexivity.
Qed.

Lemma long_pieces_app (l1 l2 tok : list ascii) (gap : bool) (ws : ascii) :
  CodeUnit.isWhiteSpace ws = true ->
  (gap = true -> tok = []) ->
  List.filter (fun w => (2 <? String.length w)%nat)
    (Js.split_ws_go gap tok (l1 ++ ws :: l2))
  = List.filter (fun w => (2 <? String.length w)%nat)
      (Js.split_ws_go gap tok l1)
    ++ List.filter (fun w => (2 <? String.length w)%nat)
         (Js.split_ws_go false [] l2).
Proof.
  intros Hws. revert gap tok.
  induction l1 as [|c l1 IH]; intros gap tok Hinv.
  - cbn [app Js.split_ws_go]. rewrite Hws. destruct gap.
    + rewrite (Hinv eq_refl). cbn. apply long_pieces_after_gap.
    + cbn [List.filter]. rewrite long_pieces_after_gap.
      destruct (2 <? String.length (Js.of_chars (rev tok)))%nat; reflexivity.
  - cbn [app Js.split_ws_go]. destruct (CodeUnit.isWhiteSpace c).
    + destruct gap.
      * apply IH. auto.
      * cbn [List.filter]. rewrite (IH true []); [|auto].
        destruct (2 <? String.length (Js.of_chars (rev tok)))%nat; reflexivity.
    + apply IH. discriminate.
Qed.

(** X23.  The keywords of two query parts joined by a space are the
    keywords of the first part followed by those of the second, and so are
    the matched keywords: a word that the query repeats is counted each
    time, up to the cap. *)
Theorem keywords_of_joined_queries (q1 q2 desc : string) :
  keywords (q1 ++ " " ++ q2) = keywords q1 ++ keywords q2
  /\ matchedKeywords (q1 ++ " " ++ q2) desc
     = matchedKeywords q1 desc ++ matchedKeywords q2 desc
  /\ keywordContribution (q1 ++ " " ++ q2) desc
     = Z.min 30
         (10 * (Z.of_nat (length (matchedKeywords q1 desc))
                + Z.of_nat (length (matchedKeywords q2 desc)))).
Proof.
  assert (Hk : keywords (q1 ++ " " ++ q2) = keywords q1 ++ keywords q2).
  { unfold keywords, Js.split_whitespace. rewrite !chars_app.
    change (Js.chars " ") with [" "%char]. cbn [app].
    apply (long_pieces_app (Js.chars q1) (Js.chars q2) [] false " "%char);
      [reflexivity|discriminate]. }
  assert (Hm : matchedKeywords (q1 ++ " " ++ q2) desc
               = matchedKeywords q1 desc ++ matchedKeywords q2 desc).
  { unfold matchedKeywords. now rewrite Hk, List.filter_app. }
  split; [exact Hk|]. split; [exact Hm|].
  rewrite keywordContribution_values, Hm, length_app. f_equal. lia.
Qed.

(* ===================================================================== *)
(** * Which skill records a rewrite keeps *)
(* ===================================================================== *)

Lemma score_reaches_threshold (rt : Runtime) (qLower : string)
    (llm : list json_value) (sf : JsMap.t) (s : string) :
  60 <= fst (scoreSkill rt qLower llm sf s)
  <-> Spec.occurs_as_whole_word s qLower \/ In (JString s) llm.
Proof.
  rewrite score_is_sum, nameContribution_values, llmContribution_values.
  rewrite <- wholeWordTest_spec, <- llm_includes_In.
  destruct (descriptionContribution_values rt qLower sf s) as (k & Hk & ->).
  destruct (RegExp.wholeWordTest s qLower), (llm_includes llm s);
    split; auto; try lia; intros [H|H]; discriminate.
Qed.

(** X24.  When the batched call of the Selector returns and the hook
    rewrites the list, a record of a candidate is kept exactly when the
    list holds a SKILL.md record of that candidate and the candidate is
    exempt, named in the query as a whole word, or named in the parsed
    reply of the collaborator. *)
Theorem kept_skill_records (api : Api) (rt : Runtime) (ev : event)
    (st : state) (f : record) (n : string) (llm : list json_value)
    (st'' : state) :
  Js.truthy (query_of ev) = true ->
  Forall Spec.has_path (bootstrapFiles st) ->
  In f (bootstrapFiles st) ->
  Spec.candidate_of f = Some n ->
  llmRecommendation api rt (query_of ev)
    (nonExemptCandidates api
       (JsMap.keys (fst (partition (bootstrapFiles st))))) st
  = (Normal llm, st'') ->
  exists st',
    hook api rt ev st = (Normal tt, st')
    /\ (In f (bootstrapFiles st')
        <-> (exists g, In g (bootstrapFiles st)
                       /\ Spec.candidate_of g = Some n
                       /\ Js.endsWith (Spec.record_path g) "SKILL.md" = true)
            /\ (Spec.exempted n (configExemptions api)
                \/ Spec.occurs_as_whole_word n (Js.toLowerCase (query_of ev))
                \/ In (JString n) llm)).
Proof.
  intros Hq Hfiles Hf Hc Hllm.
  assert (Hrun : selectRelevantSkills api rt (query_of ev)
                   (fst (partition (bootstrapFiles st))) st
                 = (Normal
                      (fold_left
                         (scoringStep rt (Js.toLowerCase (query_of ev)) llm
                            (fst (partition (bootstrapFiles st))))
                         (nonExemptCandidates api
                            (JsMap.keys (fst (partition (bootstrapFiles st)))))
                         (fold_left exemptionStep
                            (exemptCandidates api
                               (JsMap.keys (fst (partition (bootstrapFiles st)))))
                            (mkSelection [] JsObject.empty JsObject.empty))),
                    st'')).
  { unfold selectRelevantSkills, bind. now rewrite Hllm. }
  eexists. split.
  { exact (hook_rewrites_lists_with_paths api rt ev st _ _ Hq Hfiles Hrun). }
  cbn [bootstrapFiles].
  rewrite (kept_iff_selected _ _ f n Hf Hc), includes_In.
  rewrite (result_selected api rt (query_of ev) llm _ n).
  rewrite candidates_have_descriptors, score_reaches_threshold, isExempt_spec.
  tauto.
Qed.

(* ===================================================================== *)
(** * The further theorems at sample inputs *)
(* ===================================================================== *)

Lemma not_In_by_test (c : ascii) (l : list ascii) :
  existsb (Ascii.eqb c) l = false -> ~ In c l.
Proof.
  intros H Hin. assert (existsb (Ascii.eqb c) l = true).
  { apply existsb_exists. exists c. split; [exact Hin|apply Ascii.eqb_refl]. }
  congruence.
Qed.

Lemma plain_by_test (s : string) :
  Js.truthy s = true ->
  Js.trim s = s ->
  existsb (Ascii.eqb "010") (Js.chars s) = false ->
  Frontmatter.cut Frontmatter.dashes (Js.chars s) = None ->
  Header.unquoted s ->
  Header.plain s.
Proof.
  intros Ht Htrim Hlf Hcut Hq. split; [|split; [|split; [|split]]].
  - intros ->. discriminate.
  - rewrite <- Htrim. apply trim_ends.
  - now apply not_In_by_test.
  - now apply cut_None_dash_free.
  - exact Hq.
Qed.

Lemma sample_selection :
  exists res st',
    selectRelevantSkills Sample.api_recommending Sample.rt
      "use the pdf tool" Sample.skillFiles Sample.st = (Normal res, st').
Proof. vm_compute. eauto. Defined.

(** The theorem on names and recommendations at the candidate "xyz", which
    the sample collaborator recommends. *)
Lemma selection_needs_name_or_recommendation_witness :
  exists res st',
    In "xyz" (JsMap.keys Sample.skillFiles)
    /\ ~ Spec.exempted "xyz" (configExemptions Sample.api_recommending)
    /\ selectRelevantSkills Sample.api_recommending Sample.rt
         "use the pdf tool" Sample.skillFiles Sample.st = (Normal res, st')
    /\ exists llm,
         llmRecommendation Sample.api_recommending Sample.rt "use the pdf tool"
           (nonExemptCandidates Sample.api_recommending
              (JsMap.keys Sample.skillFiles)) Sample.st = (Normal llm, st')
         /\ (In "xyz" (selected res)
             <-> Spec.occurs_as_whole_word "xyz"
                   (Js.toLowerCase "use the pdf tool")
                 \/ In (JString "xyz") llm).
Proof.
  assert (Hin : In "xyz" (JsMap.keys Sample.skillFiles))
    by (vm_compute; auto).
  assert (Hnot : ~ Spec.exempted "xyz" (configExemptions Sample.api_recommending))
    by (intros H%isExempt_spec; vm_compute in H; discriminate).
  destruct sample_selection as (res & st' & Hrun). exists res, st'.
  split; [exact Hin|]. split; [exact Hnot|]. split; [exact Hrun|].
  exact (selection_needs_name_or_recommendation Sample.api_recommending
           Sample.rt "use the pdf tool" Sample.skillFiles Sample.st "xyz"
           res st' Hin Hnot Hrun).
Defined.

(** The theorem on the order of the selected names at the sample run. *)
Lemma selected_lists_exempt_first_witness :
  exists res st',
    selectRelevantSkills Sample.api_recommending Sample.rt
      "use the pdf tool" Sample.skillFiles Sample.st = (Normal res, st')
    /\ exists llm,
         llmRecommendation Sample.api_recommending Sample.rt "use the pdf tool"
           (nonExemptCandidates Sample.api_recommending
              (JsMap.keys Sample.skillFiles)) Sample.st = (Normal llm, st')
         /\ selected res
            = List.filter
                (fun s => isExempt s (configExemptions Sample.api_recommending))
                (JsMap.keys Sample.skillFiles)
              ++ List.filter
                   (fun s =>
                      negb (isExempt s (configExemptions Sample.api_recommending))
                      && (60 <=? fst (scoreSkill Sample.rt
                                        (Js.toLowerCase "use the pdf tool")
                                        llm Sample.skillFiles s))%Z)
                   (JsMap.keys Sample.skillFiles).
Proof.
  destruct sample_selection as (res & st' & Hrun). exists res, st'.
  split; [exact Hrun|].
  exact (selected_lists_exempt_first Sample.api_recommending Sample.rt
           "use the pdf tool" Sample.skillFiles Sample.st res st' Hrun).
Defined.

(** The theorem on the two objects at a map that has the candidate
    [__proto__]. *)
Lemma tables_hold_every_candidate_but_proto_witness :
  exists res st',
    selectRelevantSkills Sample.api_plain Sample.rt "use the pdf tool"
      Sample.protoFiles Sample.st = (Normal res, st')
    /\ (forall s,
          (is_Some (JsObject.own (scores res) !! s)
           <-> In s (JsMap.keys Sample.protoFiles) /\ s <> "__proto__")
          /\ (is_Some (JsObject.own (breakdown res) !! s)
              <-> In s (JsMap.keys Sample.protoFiles) /\ s <> "__proto__"))
    /\ JsObject.proto (scores res) = None
    /\ (is_Some (JsObject.proto (breakdown res))
        <-> In "__proto__" (JsMap.keys Sample.protoFiles)).
Proof.
  assert (Hrun : exists res st',
             selectRelevantSkills Sample.api_plain Sample.rt "use the pdf tool"
               Sample.protoFiles Sample.st = (Normal res, st'))
    by (vm_compute; eauto).
  destruct Hrun as (res & st' & Hrun). exists res, st'.
  split; [exact Hrun|].
  exact (tables_hold_every_candidate_but_proto Sample.api_plain Sample.rt
           "use the pdf tool" Sample.protoFiles Sample.st res st' Hrun).
Defined.

Lemma sample_keys_NoDup : List.NoDup (JsMap.keys Sample.skillFiles).
Proof.
  repeat constructor; cbn; intuition discriminate.
Qed.

(** The theorem on duplicates at the sample map. *)
Lemma selected_has_no_duplicates_witness :
  exists res st',
    List.NoDup (JsMap.keys Sample.skillFiles)
    /\ selectRelevantSkills Sample.api_recommending Sample.rt
         "use the pdf tool" Sample.skillFiles Sample.st = (Normal res, st')
    /\ List.NoDup (selected res).
Proof.
  destruct sample_selection as (res & st' & Hrun). exists res, st'.
  split; [exact sample_keys_NoDup|]. split; [exact Hrun|].
  exact (selected_has_no_duplicates Sample.api_recommending Sample.rt
           "use the pdf tool" Sample.skillFiles Sample.st res st'
           sample_keys_NoDup Hrun).
Defined.

(** The theorem on the hook's candidates at the sample list. *)
Lemma hook_candidates_are_distinct_witness :
  exists res st',
    selectRelevantSkills Sample.api_recommending Sample.rt "use the pdf tool"
      (fst (partition Sample.files)) Sample.st = (Normal res, st')
    /\ List.NoDup (JsMap.keys (fst (partition Sample.files)))
    /\ List.NoDup (selected res).
Proof.
  assert (Hrun : exists res st',
             selectRelevantSkills Sample.api_recommending Sample.rt
               "use the pdf tool" (fst (partition Sample.files)) Sample.st
             = (Normal res, st'))
    by (vm_compute; eauto).
  destruct Hrun as (res & st' & Hrun). exists res, st'.
  split; [exact Hrun|].
  exact (hook_candidates_are_distinct Sample.api_recommending Sample.rt
           "use the pdf tool" Sample.files Sample.st res st' Hrun).
Defined.

(** The theorem on exempt candidates at the default patterns and the
    candidate "zesty-x", and at the configured pattern [*] and the
    candidate [__proto__]. *)
Lemma exempt_candidates_are_selected_witness :
  (exists res st',
     In "zesty-x" (JsMap.keys Sample.skillFiles)
     /\ Spec.patterns_in_force Sample.api_recommending ["zesty-*"; "qmd"]
     /\ Spec.exempted "zesty-x" ["zesty-*"; "qmd"]
     /\ selectRelevantSkills Sample.api_recommending Sample.rt
          "use the pdf tool" Sample.skillFiles Sample.st = (Normal res, st')
     /\ In "zesty-x" (selected res)
     /\ ("zesty-x" <> "__proto__" ->
         JsObject.own (scores res) !! "zesty-x" = Some 999
         /\ JsObject.own (breakdown res) !! "zesty-x" = Some ["Exemption"])
     /\ ("zesty-x" = "__proto__" ->
         JsObject.own (scores res) !! "zesty-x" = None
         /\ JsObject.own (breakdown res) !! "zesty-x" = None
         /\ JsObject.proto (breakdown res) = Some ["Exemption"]))
  /\ (exists res st',
        In "__proto__" (JsMap.keys Sample.protoFiles)
        /\ Spec.patterns_in_force Sample.api_exempting ["*"]
        /\ Spec.exempted "__proto__" ["*"]
        /\ selectRelevantSkills Sample.api_exempting Sample.rt
             "use the pdf tool" Sample.protoFiles Sample.st = (Normal res, st')
        /\ In "__proto__" (selected res)
        /\ ("__proto__" <> "__proto__" ->
            JsObject.own (scores res) !! "__proto__" = Some 999
            /\ JsObject.own (breakdown res) !! "__proto__" = Some ["Exemption"])
        /\ ("__proto__" = "__proto__" ->
            JsObject.own (scores res) !! "__proto__" = None
            /\ JsObject.own (breakdown res) !! "__proto__" = None
            /\ JsObject.proto (breakdown res) = Some ["Exemption"])).
Proof.
  split.
  - assert (Hin : In "zesty-x" (JsMap.keys Sample.skillFiles))
      by (vm_compute; auto).
    assert (Hforce : Spec.patterns_in_force Sample.api_recommending
                       ["zesty-*"; "qmd"])
      by (right; split; reflexivity).
    assert (Hex : Spec.exempted "zesty-x" ["zesty-*"; "qmd"])
      by (apply isExempt_spec; reflexivity).
    destruct sample_selection as (res & st' & Hrun). exists res, st'.
    split; [exact Hin|]. split; [exact Hforce|]. split; [exact Hex|].
    split; [exact Hrun|].
    exact (exempt_candidates_are_selected Sample.api_recommending Sample.rt
             "use the pdf tool" Sample.skillFiles Sample.st _ "zesty-x" res st'
             Hin Hforce Hex Hrun).
  - assert (Hin : In "__proto__" (JsMap.keys Sample.protoFiles))
      by (vm_compute; auto).
    assert (Hforce : Spec.patterns_in_force Sample.api_exempting ["*"])
      by (left; reflexivity).
    assert (Hex : Spec.exempted "__proto__" ["*"])
      by (apply isExempt_spec; reflexivity).
    assert (Hrun : exists res st',
               selectRelevantSkills Sample.api_exempting Sample.rt
                 "use the pdf tool" Sample.protoFiles Sample.st
               = (Normal res, st'))
      by (vm_compute; eauto).
    destruct Hrun as (res & st' & Hrun). exists res, st'.
    split; [exact Hin|]. split; [exact Hforce|]. split; [exact Hex|].
    split; [exact Hrun|].
    exact (exempt_candidates_are_selected Sample.api_exempting Sample.rt
             "use the pdf tool" Sample.protoFiles Sample.st _ "__proto__" res st'
             Hin Hforce Hex Hrun).
Defined.

(** The theorem on failures with a reason at a collaborator whose call is
    rejected with a message. *)
Lemma failure_with_a_reason_degrades_witness :
  let req :=
    request (routerModel Sample.api_failing) "use the pdf tool"
      (nonExemptCandidates Sample.api_failing (JsMap.keys Sample.skillFiles)) in
  Spec.semantic_failure Sample.api_failing Sample.rt req
  /\ ~ Spec.rejected_without_reason Sample.api_failing req
  /\ Spec.patterns_in_force Sample.api_failing ["zesty-*"; "qmd"]
  /\ exists st' res,
       llmRecommendation Sample.api_failing Sample.rt "use the pdf tool"
         (nonExemptCandidates Sample.api_failing (JsMap.keys Sample.skillFiles))
         Sample.st = (Normal [], st')
       /\ selectRelevantSkills Sample.api_failing Sample.rt "use the pdf tool"
            Sample.skillFiles Sample.st = (Normal res, st')
       /\ bootstrapFiles st' = bootstrapFiles Sample.st
       /\ (forall s, In s (JsMap.keys Sample.skillFiles) ->
                     Spec.exempted s ["zesty-*"; "qmd"] ->
                     In s (selected res))
       /\ (forall s, In s (JsMap.keys Sample.skillFiles) ->
                     ~ Spec.exempted s ["zesty-*"; "qmd"] ->
             (In s (selected res)
              <-> 60 <= nameContribution (Js.toLowerCase "use the pdf tool") s
                        + descriptionContribution Sample.rt
                            (Js.toLowerCase "use the pdf tool")
                            Sample.skillFiles s)).
Proof.
  cbv zeta.
  assert (H : Spec.semantic_failure Sample.api_failing Sample.rt
                (request (routerModel Sample.api_failing) "use the pdf tool"
                   (nonExemptCandidates Sample.api_failing
                      (JsMap.keys Sample.skillFiles)))).
  { eapply Spec.collaborator_raises; reflexivity. }
  assert (H' : ~ Spec.rejected_without_reason Sample.api_failing
                   (request (routerModel Sample.api_failing) "use the pdf tool"
                      (nonExemptCandidates Sample.api_failing
                         (JsMap.keys Sample.skillFiles)))).
  { intros (gen & [= <-] & Hrej). discriminate. }
  assert (Hforce : Spec.patterns_in_force Sample.api_failing ["zesty-*"; "qmd"])
    by (right; split; reflexivity).
  split; [exact H|]. split; [exact H'|]. split; [exact Hforce|].
  exact (failure_with_a_reason_degrades Sample.api_failing Sample.rt
           "use the pdf tool" Sample.skillFiles Sample.st _ H H' Hforce).
Defined.

(** The theorem on a query that is the name, at the name "PDF" asked for
    in lower case. *)
Lemma own_name_matches_between_word_characters_witness :
  Js.toLowerCase "pdf" = Js.toLowerCase "PDF"
  /\ nameContribution (Js.toLowerCase "pdf") "PDF"
     = if RegExp.isWord (head (Js.chars "PDF"))
          && RegExp.isWord (last (Js.chars "PDF"))
       then 60 else 0.
Proof.
  split; [reflexivity|].
  exact (own_name_matches_between_word_characters "PDF" "pdf" eq_refl).
Defined.

(** The theorem on the name of a path at a descriptor path. *)
Lemma skill_name_is_the_segment_after_skills_witness :
  SkillPath.skillName "/ws/skills/pdf/SKILL.md" = Some "pdf"
  /\ "pdf" <> ""
  /\ (forall c, In c (Js.chars "pdf") -> SkillPath.isSeparator c = false)
  /\ exists pre s1 s2 post,
       Js.chars "/ws/skills/pdf/SKILL.md"
       = pre ++ s1 :: Js.chars "skills" ++ s2 :: Js.chars "pdf" ++ post
       /\ SkillPath.isSeparator s1 = true
       /\ SkillPath.isSeparator s2 = true
       /\ match post with
          | c :: _ => SkillPath.isSeparator c = true
          | [] => True
          end.
Proof.
  split; [reflexivity|].
  exact (skill_name_is_the_segment_after_skills "/ws/skills/pdf/SKILL.md"
           "pdf" eq_refl).
Defined.

(** The theorem on stored paths at the sample list and the name "pdf". *)
Lemma stored_path_is_last_descriptor_witness :
  JsMap.get "pdf" (fst (partition Sample.files))
  = Some "/ws/skills/pdf/SKILL.md"
  /\ Js.endsWith "/ws/skills/pdf/SKILL.md" "SKILL.md" = true
  /\ Js.truthy "/ws/skills/pdf/SKILL.md" = true
  /\ exists before file after,
       Sample.files = before ++ file :: after
       /\ Spec.record_path file = "/ws/skills/pdf/SKILL.md"
       /\ Spec.candidate_of file = Some "pdf"
       /\ forall g, In g after ->
            Spec.candidate_of g = Some "pdf" ->
            Js.endsWith (Spec.record_path g) "SKILL.md" = false.
Proof.
  split; [reflexivity|].
  exact (stored_path_is_last_descriptor Sample.files "pdf"
           "/ws/skills/pdf/SKILL.md" eq_refl).
Defined.

Lemma sample_files_have_paths : Forall Spec.has_path Sample.files.
Proof. repeat constructor; discriminate. Qed.

(** The theorem on the records of one candidate at the two "pdf" records
    of the sample list. *)
Lemma candidate_records_stay_together_witness :
  In (FileObject "/ws/skills/pdf/SKILL.md" None) (bootstrapFiles Sample.st)
  /\ In (PathString "/ws/skills/pdf/run.py") (bootstrapFiles Sample.st)
  /\ Spec.candidate_of (FileObject "/ws/skills/pdf/SKILL.md" None) = Some "pdf"
  /\ Spec.candidate_of (PathString "/ws/skills/pdf/run.py") = Some "pdf"
  /\ exists st',
       hook Sample.api_recommending Sample.rt (Sample.asks "hello there")
         Sample.st = (Normal tt, st')
       /\ (In (FileObject "/ws/skills/pdf/SKILL.md" None) (bootstrapFiles st')
           <-> In (PathString "/ws/skills/pdf/run.py") (bootstrapFiles st')).
Proof.
  assert (Hf : In (FileObject "/ws/skills/pdf/SKILL.md" None)
                 (bootstrapFiles Sample.st)) by (cbn; auto).
  assert (Hg : In (PathString "/ws/skills/pdf/run.py")
                 (bootstrapFiles Sample.st)) by (cbn; auto).
  split; [exact Hf|]. split; [exact Hg|].
  split; [reflexivity|]. split; [reflexivity|].
  exact (candidate_records_stay_together Sample.api_recommending Sample.rt
           (Sample.asks "hello there") Sample.st _ _ "pdf" Hf Hg
           eq_refl eq_refl).
Defined.

(** The theorem on contents without a header at a text without [---]. *)
Lemma no_header_gives_empty_metadata_witness :
  (forall a b c,
     Js.chars "# pdf: no header here"
     <> a ++ Frontmatter.dashes ++ b ++ Frontmatter.dashes ++ c)
  /\ parseSkillMetadata "# pdf: no header here" = mkMeta "" "".
Proof.
  assert (H : forall a b c,
             Js.chars "# pdf: no header here"
             <> a ++ Frontmatter.dashes ++ b ++ Frontmatter.dashes ++ c).
  { intros a b c.
    apply (cut_None_dash_free (Js.chars "# pdf: no header here") eq_refl
             a (b ++ Frontmatter.dashes ++ c)). }
  split; [exact H|].
  exact (no_header_gives_empty_metadata "# pdf: no header here" H).
Defined.

(** The theorem on lines without a colon at a line of prose. *)
Lemma line_without_colon_is_ignored_witness :
  ~ In ":"%char (Js.chars "  a line of prose ")
  /\ Frontmatter.parse_line (mkMeta "pdf" "Parses PDF files")
       "  a line of prose "
     = mkMeta "pdf" "Parses PDF files".
Proof.
  assert (H : ~ In ":"%char (Js.chars "  a line of prose "))
    by (apply not_In_by_test; reflexivity).
  split; [exact H|].
  exact (line_without_colon_is_ignored (mkMeta "pdf" "Parses PDF files")
           "  a line of prose " H).
Defined.

Lemma sample_name_plain : Header.plain "pdf".
Proof. apply plain_by_test; reflexivity. Qed.

Lemma sample_description_plain : Header.plain "Parses PDF files: text, tables".
Proof. apply plain_by_test; reflexivity. Qed.

(** The theorem on rendered headers at a sample name and description. *)
Lemma rendered_header_is_read_back_witness :
  Header.plain "pdf"
  /\ Header.plain "Parses PDF files: text, tables"
  /\ parseSkillMetadata
       (Header.render "pdf" "Parses PDF files: text, tables" ++ lf ++ "# PDF")
     = mkMeta "pdf" "Parses PDF files: text, tables".
Proof.
  split; [exact sample_name_plain|]. split; [exact sample_description_plain|].
  exact (rendered_header_is_read_back "pdf" "Parses PDF files: text, tables"
           (lf ++ "# PDF") sample_name_plain sample_description_plain).
Defined.

(** The theorem on kept records at the sample list, the query "use the pdf
    tool" and the record [run.py] of the candidate "pdf". *)
Lemma kept_skill_records_witness :
  exists llm st'',
    Js.truthy (query_of (Sample.asks "use the pdf tool")) = true
    /\ Forall Spec.has_path (bootstrapFiles Sample.st)
    /\ In (PathString "/ws/skills/pdf/run.py") (bootstrapFiles Sample.st)
    /\ Spec.candidate_of (PathString "/ws/skills/pdf/run.py") = Some "pdf"
    /\ llmRecommendation Sample.api_recommending Sample.rt
         (query_of (Sample.asks "use the pdf tool"))
         (nonExemptCandidates Sample.api_recommending
            (JsMap.keys (fst (partition (bootstrapFiles Sample.st)))))
         Sample.st
       = (Normal llm, st'')
    /\ exists st',
         hook Sample.api_recommending Sample.rt (Sample.asks "use the pdf tool")
           Sample.st = (Normal tt, st')
         /\ (In (PathString "/ws/skills/pdf/run.py") (bootstrapFiles st')
             <-> (exists g, In g (bootstrapFiles Sample.st)
                            /\ Spec.candidate_of g = Some "pdf"
                            /\ Js.endsWith (Spec.record_path g) "SKILL.md" = true)
                 /\ (Spec.exempted "pdf" (configExemptions Sample.api_recommending)
                     \/ Spec.occurs_as_whole_word "pdf"
                          (Js.toLowerCase
                             (query_of (Sample.asks "use the pdf tool")))
                     \/ In (JString "pdf") llm)).
Proof.
  assert (Hg : In (PathString "/ws/skills/pdf/run.py")
                 (bootstrapFiles Sample.st)) by (cbn; auto).
  assert (Hllm : exists llm st'',
             llmRecommendation Sample.api_recommending Sample.rt
               (query_of (Sample.asks "use the pdf tool"))
               (nonExemptCandidates Sample.api_recommending
                  (JsMap.keys (fst (partition (bootstrapFiles Sample.st)))))
               Sample.st
             = (Normal llm, st''))
    by (vm_compute; eauto).
  destruct Hllm as (llm & st'' & Hllm). exists llm, st''.
  split; [reflexivity|]. split; [exact sample_files_have_paths|].
  split; [exact Hg|]. split; [reflexivity|]. split; [exact Hllm|].
  exact (kept_skill_records Sample.api_recommending Sample.rt
           (Sample.asks "use the pdf tool") Sample.st _ "pdf" llm st'' eq_refl
           sample_files_have_paths Hg eq_refl Hllm).
Defined.
